(** * Ishiiruka: the D3D12 shader cache and the disc filesystem factory

    A shallow embedding of
      - [Source/Core/DiscIO/Filesystem.cpp] (module [DiscIO]) and
      - [Source/Core/VideoBackends/D3D12/ShaderCache.cpp] (module [DX12]),
    followed by the properties of the specification that concern them.

    Conventions of the embedding.
      - A C++ pointer is an [option]: [None] is [nullptr].
      - The global variables of [ShaderCache.cpp] are the fields of one
        record [State]; a function of the source is a computation in the
        monad [M], which threads the [State] and collects the [Event]s the
        call performs, oldest first.
      - A pointer into one of the three [std::unordered_map]s is the key it
        points at ([EntryPtr]); [std::unordered_map] never moves its
        elements, so the key identifies the element as long as it exists.
      - Code that lives in other files of the repository (the uid and source
        generators, the asynchronous compiler, the linear disk cache) is
        either a field of the class [VideoCommon] or a definition whose
        comment says what it is modelled from.
      - A call runs to its end before the next one starts. The compiler
        threads are the environment: [worker_finish] is the step by which
        one of them finishes a unit.
      - The handlers of the three stages are embedded a second time in
        small steps ([step_from]), one atomic access to the shared state per
        step, for the properties of calls that run at the same time. *)

From Stdlib Require Import ZArith NArith.
From Stdlib.Strings Require Import Byte.
From stdpp Require Import gmap strings list pretty.

Open Scope string_scope.
Open Scope list_scope.

(* ===================================================================== *)
(** * DiscIO/Filesystem.cpp                                               *)
(* ===================================================================== *)

Module DiscIO.
Section Filesystem.

(** The volumes a non-null [const IVolume*] can point at. *)
Context {IVolume : Type}.
(** [CFileSystemGCWii] is declared in [DiscIO/FileSystemGCWii.h]: the state
    its constructor computes from the volume, and its override of the
    virtual [IsValid]. *)
Context {GCWiiState : Type}.
Variable CFileSystemGCWii_ctor : IVolume -> GCWiiState.
Variable CFileSystemGCWii_IsValid : GCWiiState -> bool.

(** [class IFileSystem]: the base sub-object keeps the volume pointer
    ([IFileSystem::IFileSystem(const IVolume* _rVolume) : m_rVolume(_rVolume)]). *)
Record IFileSystem : Type := mkIFileSystem {
  m_rVolume : option IVolume;
  gcwii : GCWiiState
}.

(** [std::make_unique<CFileSystemGCWii>(volume)]: the object built over
    [volume]. [make_unique] never yields a null pointer. *)
Definition make_unique_CFileSystemGCWii (volume : IVolume) : option IFileSystem :=
  Some {| m_rVolume := Some volume; gcwii := CFileSystemGCWii_ctor volume |}.

Definition IsValid (filesystem : IFileSystem) : bool :=
  CFileSystemGCWii_IsValid (gcwii filesystem).

Definition CreateFileSystem (volume : option IVolume) : option IFileSystem :=
  match volume with
  | None => None                                     (* if (!volume) return nullptr; *)
  | Some v =>
      let filesystem := make_unique_CFileSystemGCWii v in
      match filesystem with
      | None => None                                 (* if (!filesystem) return nullptr; *)
      | Some fs =>
          if negb (IsValid fs) then None             (* filesystem.reset(); *)
          else Some fs
      end
  end.

End Filesystem.

(** An instance to run the code on: a volume is a boolean, and the
    filesystem built over it reports itself valid when the volume is [true]. *)
Definition demo_filesystem (volume : bool) : option (@IFileSystem bool bool) :=
  CreateFileSystem (fun volume => volume) (fun state => state) (Some volume).

End DiscIO.

(* ===================================================================== *)
(** * VideoBackends/D3D12/ShaderCache.cpp                                 *)
(* ===================================================================== *)

Module DX12.

Definition u8 : Type := byte.
(** [u32] values are only passed along, except for the cast to [u32] of a
    buffer size, which is written out as [to_u32]. *)
Definition u32 : Type := N.
Definition to_u32 (n : N) : u32 := (n mod 2 ^ 32)%N.

(** [D3DBlob]: an immutable, owned copy of some bytes; [Data()] and [Size()]. *)
Definition D3DBlob : Type := list u8.
Definition Data (b : D3DBlob) : list u8 := b.
Definition Size (b : D3DBlob) : nat := length b.

Inductive D3D12_PRIMITIVE_TOPOLOGY_TYPE : Type :=
  | D3D12_PRIMITIVE_TOPOLOGY_TYPE_TRIANGLE
  | D3D12_PRIMITIVE_TOPOLOGY_TYPE_LINE
  | D3D12_PRIMITIVE_TOPOLOGY_TYPE_POINT.

(** [D3D12_SHADER_BYTECODE]: a pointer to the bytes of a blob and a length.
    The pointer is modelled by the bytes it points at. *)
Record D3D12_SHADER_BYTECODE : Type := mkBytecode {
  pShaderBytecode : option (list u8);
  BytecodeLength : nat
}.

(** [D3D12_SHADER_BYTECODE({})]: the zero value. *)
Definition zero_bytecode : D3D12_SHADER_BYTECODE :=
  {| pShaderBytecode := None; BytecodeLength := 0 |}.

Record ByteCodeCacheEntry : Type := mkEntry {
  m_shader_bytecode : D3D12_SHADER_BYTECODE;
  m_compiled : bool;
  m_initialized : bool;          (* std::atomic_flag *)
  code : string                  (* only used for shader debugging *)
}.

(** [ByteCodeCacheEntry::ByteCodeCacheEntry()]. *)
Definition ByteCodeCacheEntry_ctor : ByteCodeCacheEntry :=
  {| m_shader_bytecode := zero_bytecode;
     m_compiled := false;
     m_initialized := false;
     code := "" |}.

Definition set_m_shader_bytecode (b : D3D12_SHADER_BYTECODE) (e : ByteCodeCacheEntry) :=
  mkEntry b (m_compiled e) (m_initialized e) (code e).
Definition set_m_compiled (b : bool) (e : ByteCodeCacheEntry) :=
  mkEntry (m_shader_bytecode e) b (m_initialized e) (code e).
Definition set_m_initialized (b : bool) (e : ByteCodeCacheEntry) :=
  mkEntry (m_shader_bytecode e) (m_compiled e) b (code e).
Definition set_code (c : string) (e : ByteCodeCacheEntry) :=
  mkEntry (m_shader_bytecode e) (m_compiled e) (m_initialized e) c.

(** What the compiler thread leaves in a finished work unit: [cresult]
    with either [shaderbytecode] or [error]. *)
Inductive CompileOutput : Type :=
  | CompileSucceeded (shaderbytecode : D3DBlob)
  | CompileFailed (error : string).

Definition SUCCEEDED (o : CompileOutput) : bool :=
  match o with CompileSucceeded _ => true | CompileFailed _ => false end.

(** [VideoConfig]: the two settings this file reads. *)
Record VideoConfig : Type := mkConfig {
  bEnableShaderDebugging : bool;
  bFullAsyncShaderCompilation : bool
}.

(** [Statistics]: the counters this file writes. *)
Record Statistics : Type := mkStats {
  numGeometryShadersAlive : Z;
  numGeometryShadersCreated : Z;
  numPixelShadersAlive : Z;
  numPixelShadersCreated : Z;
  numVertexShadersAlive : Z;
  numVertexShadersCreated : Z
}.

(** An argument handed to a [printf]-style variadic function for a [%s] of
    its format: the characters behind a [char] pointer or array, or a
    [std::string] object passed as it is, without [c_str()]. What the function
    makes of the object is not defined by the code; the embedding records
    which of the two the caller passed. *)
Inductive VarArg : Type :=
  | chars (text : string)
  | string_object (value : string).

(** A [PanicAlert]: the format string and its arguments. *)
Record Alert : Type := mkAlert {
  alert_format : string;
  alert_args : list VarArg
}.

(** d3dcompiler.h *)
Definition D3DCOMPILE_SKIP_VALIDATION : Z := Z.shiftl 1 1.
Definition D3DCOMPILE_ENABLE_BACKWARDS_COMPATIBILITY : Z := Z.shiftl 1 12.
Definition D3DCOMPILE_OPTIMIZATION_LEVEL3 : Z := Z.shiftl 1 15.

(** What [ShaderCache.cpp] uses of VideoCommon, Common and the D3D helper
    files: the uid types with their hash and equality, the uid and source
    generators, constants, and the HLSL compiler itself. *)
Class VideoCommon : Type := {
  GeometryShaderUid : Type;
  PixelShaderUid : Type;
  VertexShaderUid : Type;
  GeometryShaderUid_eq :: EqDecision GeometryShaderUid;
  GeometryShaderUid_hash :: Countable GeometryShaderUid;
  PixelShaderUid_eq :: EqDecision PixelShaderUid;
  PixelShaderUid_hash :: Countable PixelShaderUid;
  VertexShaderUid_eq :: EqDecision VertexShaderUid;
  VertexShaderUid_hash :: Countable VertexShaderUid;
  (* the value-initialised uids, [GeometryShaderUid{}] and so on *)
  GeometryShaderUid_zero : GeometryShaderUid;
  PixelShaderUid_zero : PixelShaderUid;
  VertexShaderUid_zero : VertexShaderUid;
  (* gs_uid.GetUidData().IsPassthrough() *)
  IsPassthrough : GeometryShaderUid -> bool;
  XFMemory : Type;
  BPMemory : Type;
  DSTALPHA_MODE : Type;
  API_TYPE : Type;
  API_D3D11 : API_TYPE;
  PRIMITIVE_POINTS : u32;
  PRIMITIVE_LINES : u32;
  PRIMITIVE_TRIANGLES : u32;
  GEOMETRYSHADERGEN_BUFFERSIZE : N;
  PIXELSHADERGEN_BUFFERSIZE : N;
  VERTEXSHADERGEN_BUFFERSIZE : N;
  GetGeometryShaderUid : u32 -> API_TYPE -> XFMemory -> u32 -> GeometryShaderUid;
  GetPixelShaderUidD3D11 : DSTALPHA_MODE -> u32 -> XFMemory -> BPMemory -> PixelShaderUid;
  GetVertexShaderUidD3D11 : u32 -> XFMemory -> BPMemory -> VertexShaderUid;
  GenerateGeometryShaderCode : u32 -> API_TYPE -> XFMemory -> u32 -> string;
  GeneratePixelShaderCodeD3D11 : DSTALPHA_MODE -> u32 -> XFMemory -> BPMemory -> string;
  GenerateVertexShaderCodeD3D11 : u32 -> XFMemory -> BPMemory -> string;
  GeometryShaderVersionString : string;
  PixelShaderVersionString : string;
  VertexShaderVersionString : string;
  (* File::GetUserPath(D_DUMP_IDX) *)
  D_DUMP_IDX : string;
  (* whether the file is built with _DEBUG or DEBUGFAST *)
  DEBUG_BUILD : bool;
  (* the HLSL compiler: source, entry point, flags, target *)
  D3DCompile : string -> string -> Z -> string -> CompileOutput
}.

Section ShaderCache.
Context `{VideoCommon}.

(** A [ByteCodeCacheEntry*]: the address of [s_pass_entry], or of the
    element of one of the three maps stored under a uid. *)
Inductive EntryPtr : Type :=
  | addr_s_pass_entry
  | addr_gs (uid : GeometryShaderUid)
  | addr_ps (uid : PixelShaderUid)
  | addr_vs (uid : VertexShaderUid).

(** The three lambdas assigned to [wunit->ResultHandler], with what each
    captures by value. *)
Inductive ResultHandlerClosure : Type :=
  | GSResultHandler (gs_uid : GeometryShaderUid) (entry : EntryPtr)
  | PSResultHandler (ps_uid : PixelShaderUid) (entry : EntryPtr)
  | VSResultHandler (vs_uid : VertexShaderUid) (entry : EntryPtr).

Record ShaderCompilerWorkUnit : Type := mkUnit {
  wunit_bufsize : N;
  wunit_code : string;
  codesize : u32;
  entrypoint : string;
  flags : Z;
  target : string;
  ResultHandler : option ResultHandlerClosure
}.

(** Modelled from the spec: the asynchronous compiler (section 4.2; the class
    [HLSLAsyncCompiler] is in [VideoCommon/HLSLCompiler.h]). [Submit]
    enqueues a work unit; compilation happens on background threads and is
    not finished when [Submit] returns; [DrainCompleted] invokes the
    completion callback of every unit that finished since the last drain. *)
Record HLSLAsyncCompiler : Type := mkCompiler {
  in_flight : list ShaderCompilerWorkUnit;
  completed : list (ShaderCompilerWorkUnit * CompileOutput)
}.

(** What a call does besides changing the [State]. *)
Inductive Event : Type :=
  | EvLock                                   (* s_shaders_lock.lock() *)
  | EvUnlock                                 (* s_shaders_lock.unlock() *)
  | EvLookup (p : EntryPtr)                  (* cache[uid] *)
  | EvTestAndSet (p : EntryPtr) (previous : bool)
  | EvCompileShaderAsync (p : EntryPtr)      (* a compile dispatch *)
  | EvProcCompilationResults                 (* a drain of the completions *)
  | EvDiskCacheAppend (p : EntryPtr)
  | EvUidCheck (stage : string)
  | EvYield (count : Z).

(** The global variables. A [LinearDiskCache] is the sequence of records of
    its file, oldest first. [gs_num_failures] and its siblings are the
    [static int num_failures] of the three lambdas. *)
Record State : Type := mkState {
  s_current_primitive_topology : D3D12_PRIMITIVE_TOPOLOGY_TYPE;
  s_pass_entry : ByteCodeCacheEntry;
  gs_bytecode_cache : gmap GeometryShaderUid ByteCodeCacheEntry;
  ps_bytecode_cache : gmap PixelShaderUid ByteCodeCacheEntry;
  vs_bytecode_cache : gmap VertexShaderUid ByteCodeCacheEntry;
  s_shader_blob_list : list D3DBlob;
  s_gs_disk_cache : list (GeometryShaderUid * D3DBlob);
  s_ps_disk_cache : list (PixelShaderUid * D3DBlob);
  s_vs_disk_cache : list (VertexShaderUid * D3DBlob);
  s_last_geometry_shader_bytecode : option EntryPtr;
  s_last_pixel_shader_bytecode : option EntryPtr;
  s_last_vertex_shader_bytecode : option EntryPtr;
  s_last_geometry_shader_uid : GeometryShaderUid;
  s_last_pixel_shader_uid : PixelShaderUid;
  s_last_vertex_shader_uid : VertexShaderUid;
  s_last_cpu_geometry_shader_uid : GeometryShaderUid;
  s_last_cpu_pixel_shader_uid : PixelShaderUid;
  s_last_cpu_vertex_shader_uid : VertexShaderUid;
  s_compiler : HLSLAsyncCompiler;
  m_dirty_pso : bool;                        (* D3D::command_list_mgr->m_dirty_pso *)
  stats : Statistics;
  gs_num_failures : N;
  ps_num_failures : N;
  vs_num_failures : N;
  dump_files : gmap string string;           (* the files under D_DUMP_IDX *)
  alerts : list Alert;                       (* the alerts shown, oldest first *)
  g_Config : VideoConfig;
  g_ActiveConfig : VideoConfig
}.

Definition set_s_current_primitive_topology x (s : State) : State :=
  mkState x (s_pass_entry s) (gs_bytecode_cache s) (ps_bytecode_cache s) (vs_bytecode_cache s)
    (s_shader_blob_list s) (s_gs_disk_cache s) (s_ps_disk_cache s) (s_vs_disk_cache s)
    (s_last_geometry_shader_bytecode s) (s_last_pixel_shader_bytecode s)
    (s_last_vertex_shader_bytecode s) (s_last_geometry_shader_uid s) (s_last_pixel_shader_uid s)
    (s_last_vertex_shader_uid s) (s_last_cpu_geometry_shader_uid s) (s_last_cpu_pixel_shader_uid
    s) (s_last_cpu_vertex_shader_uid s) (s_compiler s) (m_dirty_pso s) (stats s)
    (gs_num_failures s) (ps_num_failures s) (vs_num_failures s) (dump_files s) (alerts s)
    (g_Config s) (g_ActiveConfig s).
Definition set_s_pass_entry x (s : State) : State :=
  mkState (s_current_primitive_topology s) x (gs_bytecode_cache s) (ps_bytecode_cache s)
    (vs_bytecode_cache s) (s_shader_blob_list s) (s_gs_disk_cache s) (s_ps_disk_cache s)
    (s_vs_disk_cache s) (s_last_geometry_shader_bytecode s) (s_last_pixel_shader_bytecode s)
    (s_last_vertex_shader_bytecode s) (s_last_geometry_shader_uid s) (s_last_pixel_shader_uid s)
    (s_last_vertex_shader_uid s) (s_last_cpu_geometry_shader_uid s) (s_last_cpu_pixel_shader_uid
    s) (s_last_cpu_vertex_shader_uid s) (s_compiler s) (m_dirty_pso s) (stats s)
    (gs_num_failures s) (ps_num_failures s) (vs_num_failures s) (dump_files s) (alerts s)
    (g_Config s) (g_ActiveConfig s).
Definition set_gs_bytecode_cache x (s : State) : State :=
  mkState (s_current_primitive_topology s) (s_pass_entry s) x (ps_bytecode_cache s)
    (vs_bytecode_cache s) (s_shader_blob_list s) (s_gs_disk_cache s) (s_ps_disk_cache s)
    (s_vs_disk_cache s) (s_last_geometry_shader_bytecode s) (s_last_pixel_shader_bytecode s)
    (s_last_vertex_shader_bytecode s) (s_last_geometry_shader_uid s) (s_last_pixel_shader_uid s)
    (s_last_vertex_shader_uid s) (s_last_cpu_geometry_shader_uid s) (s_last_cpu_pixel_shader_uid
    s) (s_last_cpu_vertex_shader_uid s) (s_compiler s) (m_dirty_pso s) (stats s)
    (gs_num_failures s) (ps_num_failures s) (vs_num_failures s) (dump_files s) (alerts s)
    (g_Config s) (g_ActiveConfig s).
Definition set_ps_bytecode_cache x (s : State) : State :=
  mkState (s_current_primitive_topology s) (s_pass_entry s) (gs_bytecode_cache s) x
    (vs_bytecode_cache s) (s_shader_blob_list s) (s_gs_disk_cache s) (s_ps_disk_cache s)
    (s_vs_disk_cache s) (s_last_geometry_shader_bytecode s) (s_last_pixel_shader_bytecode s)
    (s_last_vertex_shader_bytecode s) (s_last_geometry_shader_uid s) (s_last_pixel_shader_uid s)
    (s_last_vertex_shader_uid s) (s_last_cpu_geometry_shader_uid s) (s_last_cpu_pixel_shader_uid
    s) (s_last_cpu_vertex_shader_uid s) (s_compiler s) (m_dirty_pso s) (stats s)
    (gs_num_failures s) (ps_num_failures s) (vs_num_failures s) (dump_files s) (alerts s)
    (g_Config s) (g_ActiveConfig s).
Definition set_vs_bytecode_cache x (s : State) : State :=
  mkState (s_current_primitive_topology s) (s_pass_entry s) (gs_bytecode_cache s)
    (ps_bytecode_cache s) x (s_shader_blob_list s) (s_gs_disk_cache s) (s_ps_disk_cache s)
    (s_vs_disk_cache s) (s_last_geometry_shader_bytecode s) (s_last_pixel_shader_bytecode s)
    (s_last_vertex_shader_bytecode s) (s_last_geometry_shader_uid s) (s_last_pixel_shader_uid s)
    (s_last_vertex_shader_uid s) (s_last_cpu_geometry_shader_uid s) (s_last_cpu_pixel_shader_uid
    s) (s_last_cpu_vertex_shader_uid s) (s_compiler s) (m_dirty_pso s) (stats s)
    (gs_num_failures s) (ps_num_failures s) (vs_num_failures s) (dump_files s) (alerts s)
    (g_Config s) (g_ActiveConfig s).
Definition set_s_shader_blob_list x (s : State) : State :=
  mkState (s_current_primitive_topology s) (s_pass_entry s) (gs_bytecode_cache s)
    (ps_bytecode_cache s) (vs_bytecode_cache s) x (s_gs_disk_cache s) (s_ps_disk_cache s)
    (s_vs_disk_cache s) (s_last_geometry_shader_bytecode s) (s_last_pixel_shader_bytecode s)
    (s_last_vertex_shader_bytecode s) (s_last_geometry_shader_uid s) (s_last_pixel_shader_uid s)
    (s_last_vertex_shader_uid s) (s_last_cpu_geometry_shader_uid s) (s_last_cpu_pixel_shader_uid
    s) (s_last_cpu_vertex_shader_uid s) (s_compiler s) (m_dirty_pso s) (stats s)
    (gs_num_failures s) (ps_num_failures s) (vs_num_failures s) (dump_files s) (alerts s)
    (g_Config s) (g_ActiveConfig s).
Definition set_s_gs_disk_cache x (s : State) : State :=
  mkState (s_current_primitive_topology s) (s_pass_entry s) (gs_bytecode_cache s)
    (ps_bytecode_cache s) (vs_bytecode_cache s) (s_shader_blob_list s) x (s_ps_disk_cache s)
    (s_vs_disk_cache s) (s_last_geometry_shader_bytecode s) (s_last_pixel_shader_bytecode s)
    (s_last_vertex_shader_bytecode s) (s_last_geometry_shader_uid s) (s_last_pixel_shader_uid s)
    (s_last_vertex_shader_uid s) (s_last_cpu_geometry_shader_uid s) (s_last_cpu_pixel_shader_uid
    s) (s_last_cpu_vertex_shader_uid s) (s_compiler s) (m_dirty_pso s) (stats s)
    (gs_num_failures s) (ps_num_failures s) (vs_num_failures s) (dump_files s) (alerts s)
    (g_Config s) (g_ActiveConfig s).
Definition set_s_ps_disk_cache x (s : State) : State :=
  mkState (s_current_primitive_topology s) (s_pass_entry s) (gs_bytecode_cache s)
    (ps_bytecode_cache s) (vs_bytecode_cache s) (s_shader_blob_list s) (s_gs_disk_cache s) x
    (s_vs_disk_cache s) (s_last_geometry_shader_bytecode s) (s_last_pixel_shader_bytecode s)
    (s_last_vertex_shader_bytecode s) (s_last_geometry_shader_uid s) (s_last_pixel_shader_uid s)
    (s_last_vertex_shader_uid s) (s_last_cpu_geometry_shader_uid s) (s_last_cpu_pixel_shader_uid
    s) (s_last_cpu_vertex_shader_uid s) (s_compiler s) (m_dirty_pso s) (stats s)
    (gs_num_failures s) (ps_num_failures s) (vs_num_failures s) (dump_files s) (alerts s)
    (g_Config s) (g_ActiveConfig s).
Definition set_s_vs_disk_cache x (s : State) : State :=
  mkState (s_current_primitive_topology s) (s_pass_entry s) (gs_bytecode_cache s)
    (ps_bytecode_cache s) (vs_bytecode_cache s) (s_shader_blob_list s) (s_gs_disk_cache s)
    (s_ps_disk_cache s) x (s_last_geometry_shader_bytecode s) (s_last_pixel_shader_bytecode s)
    (s_last_vertex_shader_bytecode s) (s_last_geometry_shader_uid s) (s_last_pixel_shader_uid s)
    (s_last_vertex_shader_uid s) (s_last_cpu_geometry_shader_uid s) (s_last_cpu_pixel_shader_uid
    s) (s_last_cpu_vertex_shader_uid s) (s_compiler s) (m_dirty_pso s) (stats s)
    (gs_num_failures s) (ps_num_failures s) (vs_num_failures s) (dump_files s) (alerts s)
    (g_Config s) (g_ActiveConfig s).
Definition set_s_last_geometry_shader_bytecode x (s : State) : State :=
  mkState (s_current_primitive_topology s) (s_pass_entry s) (gs_bytecode_cache s)
    (ps_bytecode_cache s) (vs_bytecode_cache s) (s_shader_blob_list s) (s_gs_disk_cache s)
    (s_ps_disk_cache s) (s_vs_disk_cache s) x (s_last_pixel_shader_bytecode s)
    (s_last_vertex_shader_bytecode s) (s_last_geometry_shader_uid s) (s_last_pixel_shader_uid s)
    (s_last_vertex_shader_uid s) (s_last_cpu_geometry_shader_uid s) (s_last_cpu_pixel_shader_uid
    s) (s_last_cpu_vertex_shader_uid s) (s_compiler s) (m_dirty_pso s) (stats s)
    (gs_num_failures s) (ps_num_failures s) (vs_num_failures s) (dump_files s) (alerts s)
    (g_Config s) (g_ActiveConfig s).
Definition set_s_last_pixel_shader_bytecode x (s : State) : State :=
  mkState (s_current_primitive_topology s) (s_pass_entry s) (gs_bytecode_cache s)
    (ps_bytecode_cache s) (vs_bytecode_cache s) (s_shader_blob_list s) (s_gs_disk_cache s)
    (s_ps_disk_cache s) (s_vs_disk_cache s) (s_last_geometry_shader_bytecode s) x
    (s_last_vertex_shader_bytecode s) (s_last_geometry_shader_uid s) (s_last_pixel_shader_uid s)
    (s_last_vertex_shader_uid s) (s_last_cpu_geometry_shader_uid s) (s_last_cpu_pixel_shader_uid
    s) (s_last_cpu_vertex_shader_uid s) (s_compiler s) (m_dirty_pso s) (stats s)
    (gs_num_failures s) (ps_num_failures s) (vs_num_failures s) (dump_files s) (alerts s)
    (g_Config s) (g_ActiveConfig s).
Definition set_s_last_vertex_shader_bytecode x (s : State) : State :=
  mkState (s_current_primitive_topology s) (s_pass_entry s) (gs_bytecode_cache s)
    (ps_bytecode_cache s) (vs_bytecode_cache s) (s_shader_blob_list s) (s_gs_disk_cache s)
    (s_ps_disk_cache s) (s_vs_disk_cache s) (s_last_geometry_shader_bytecode s)
    (s_last_pixel_shader_bytecode s) x (s_last_geometry_shader_uid s) (s_last_pixel_shader_uid
    s) (s_last_vertex_shader_uid s) (s_last_cpu_geometry_shader_uid s)
    (s_last_cpu_pixel_shader_uid s) (s_last_cpu_vertex_shader_uid s) (s_compiler s) (m_dirty_pso
    s) (stats s) (gs_num_failures s) (ps_num_failures s) (vs_num_failures s) (dump_files s)
    (alerts s) (g_Config s) (g_ActiveConfig s).
Definition set_s_last_geometry_shader_uid x (s : State) : State :=
  mkState (s_current_primitive_topology s) (s_pass_entry s) (gs_bytecode_cache s)
    (ps_bytecode_cache s) (vs_bytecode_cache s) (s_shader_blob_list s) (s_gs_disk_cache s)
    (s_ps_disk_cache s) (s_vs_disk_cache s) (s_last_geometry_shader_bytecode s)
    (s_last_pixel_shader_bytecode s) (s_last_vertex_shader_bytecode s) x
    (s_last_pixel_shader_uid s) (s_last_vertex_shader_uid s) (s_last_cpu_geometry_shader_uid s)
    (s_last_cpu_pixel_shader_uid s) (s_last_cpu_vertex_shader_uid s) (s_compiler s) (m_dirty_pso
    s) (stats s) (gs_num_failures s) (ps_num_failures s) (vs_num_failures s) (dump_files s)
    (alerts s) (g_Config s) (g_ActiveConfig s).
Definition set_s_last_pixel_shader_uid x (s : State) : State :=
  mkState (s_current_primitive_topology s) (s_pass_entry s) (gs_bytecode_cache s)
    (ps_bytecode_cache s) (vs_bytecode_cache s) (s_shader_blob_list s) (s_gs_disk_cache s)
    (s_ps_disk_cache s) (s_vs_disk_cache s) (s_last_geometry_shader_bytecode s)
    (s_last_pixel_shader_bytecode s) (s_last_vertex_shader_bytecode s)
    (s_last_geometry_shader_uid s) x (s_last_vertex_shader_uid s)
    (s_last_cpu_geometry_shader_uid s) (s_last_cpu_pixel_shader_uid s)
    (s_last_cpu_vertex_shader_uid s) (s_compiler s) (m_dirty_pso s) (stats s) (gs_num_failures
    s) (ps_num_failures s) (vs_num_failures s) (dump_files s) (alerts s) (g_Config s)
    (g_ActiveConfig s).
Definition set_s_last_vertex_shader_uid x (s : State) : State :=
  mkState (s_current_primitive_topology s) (s_pass_entry s) (gs_bytecode_cache s)
    (ps_bytecode_cache s) (vs_bytecode_cache s) (s_shader_blob_list s) (s_gs_disk_cache s)
    (s_ps_disk_cache s) (s_vs_disk_cache s) (s_last_geometry_shader_bytecode s)
    (s_last_pixel_shader_bytecode s) (s_last_vertex_shader_bytecode s)
    (s_last_geometry_shader_uid s) (s_last_pixel_shader_uid s) x (s_last_cpu_geometry_shader_uid
    s) (s_last_cpu_pixel_shader_uid s) (s_last_cpu_vertex_shader_uid s) (s_compiler s)
    (m_dirty_pso s) (stats s) (gs_num_failures s) (ps_num_failures s) (vs_num_failures s)
    (dump_files s) (alerts s) (g_Config s) (g_ActiveConfig s).
Definition set_s_last_cpu_geometry_shader_uid x (s : State) : State :=
  mkState (s_current_primitive_topology s) (s_pass_entry s) (gs_bytecode_cache s)
    (ps_bytecode_cache s) (vs_bytecode_cache s) (s_shader_blob_list s) (s_gs_disk_cache s)
    (s_ps_disk_cache s) (s_vs_disk_cache s) (s_last_geometry_shader_bytecode s)
    (s_last_pixel_shader_bytecode s) (s_last_vertex_shader_bytecode s)
    (s_last_geometry_shader_uid s) (s_last_pixel_shader_uid s) (s_last_vertex_shader_uid s) x
    (s_last_cpu_pixel_shader_uid s) (s_last_cpu_vertex_shader_uid s) (s_compiler s) (m_dirty_pso
    s) (stats s) (gs_num_failures s) (ps_num_failures s) (vs_num_failures s) (dump_files s)
    (alerts s) (g_Config s) (g_ActiveConfig s).
Definition set_s_last_cpu_pixel_shader_uid x (s : State) : State :=
  mkState (s_current_primitive_topology s) (s_pass_entry s) (gs_bytecode_cache s)
    (ps_bytecode_cache s) (vs_bytecode_cache s) (s_shader_blob_list s) (s_gs_disk_cache s)
    (s_ps_disk_cache s) (s_vs_disk_cache s) (s_last_geometry_shader_bytecode s)
    (s_last_pixel_shader_bytecode s) (s_last_vertex_shader_bytecode s)
    (s_last_geometry_shader_uid s) (s_last_pixel_shader_uid s) (s_last_vertex_shader_uid s)
    (s_last_cpu_geometry_shader_uid s) x (s_last_cpu_vertex_shader_uid s) (s_compiler s)
    (m_dirty_pso s) (stats s) (gs_num_failures s) (ps_num_failures s) (vs_num_failures s)
    (dump_files s) (alerts s) (g_Config s) (g_ActiveConfig s).
Definition set_s_last_cpu_vertex_shader_uid x (s : State) : State :=
  mkState (s_current_primitive_topology s) (s_pass_entry s) (gs_bytecode_cache s)
    (ps_bytecode_cache s) (vs_bytecode_cache s) (s_shader_blob_list s) (s_gs_disk_cache s)
    (s_ps_disk_cache s) (s_vs_disk_cache s) (s_last_geometry_shader_bytecode s)
    (s_last_pixel_shader_bytecode s) (s_last_vertex_shader_bytecode s)
    (s_last_geometry_shader_uid s) (s_last_pixel_shader_uid s) (s_last_vertex_shader_uid s)
    (s_last_cpu_geometry_shader_uid s) (s_last_cpu_pixel_shader_uid s) x (s_compiler s)
    (m_dirty_pso s) (stats s) (gs_num_failures s) (ps_num_failures s) (vs_num_failures s)
    (dump_files s) (alerts s) (g_Config s) (g_ActiveConfig s).
Definition set_s_compiler x (s : State) : State :=
  mkState (s_current_primitive_topology s) (s_pass_entry s) (gs_bytecode_cache s)
    (ps_bytecode_cache s) (vs_bytecode_cache s) (s_shader_blob_list s) (s_gs_disk_cache s)
    (s_ps_disk_cache s) (s_vs_disk_cache s) (s_last_geometry_shader_bytecode s)
    (s_last_pixel_shader_bytecode s) (s_last_vertex_shader_bytecode s)
    (s_last_geometry_shader_uid s) (s_last_pixel_shader_uid s) (s_last_vertex_shader_uid s)
    (s_last_cpu_geometry_shader_uid s) (s_last_cpu_pixel_shader_uid s)
    (s_last_cpu_vertex_shader_uid s) x (m_dirty_pso s) (stats s) (gs_num_failures s)
    (ps_num_failures s) (vs_num_failures s) (dump_files s) (alerts s) (g_Config s)
    (g_ActiveConfig s).
Definition set_m_dirty_pso x (s : State) : State :=
  mkState (s_current_primitive_topology s) (s_pass_entry s) (gs_bytecode_cache s)
    (ps_bytecode_cache s) (vs_bytecode_cache s) (s_shader_blob_list s) (s_gs_disk_cache s)
    (s_ps_disk_cache s) (s_vs_disk_cache s) (s_last_geometry_shader_bytecode s)
    (s_last_pixel_shader_bytecode s) (s_last_vertex_shader_bytecode s)
    (s_last_geometry_shader_uid s) (s_last_pixel_shader_uid s) (s_last_vertex_shader_uid s)
    (s_last_cpu_geometry_shader_uid s) (s_last_cpu_pixel_shader_uid s)
    (s_last_cpu_vertex_shader_uid s) (s_compiler s) x (stats s) (gs_num_failures s)
    (ps_num_failures s) (vs_num_failures s) (dump_files s) (alerts s) (g_Config s)
    (g_ActiveConfig s).
Definition set_stats x (s : State) : State :=
  mkState (s_current_primitive_topology s) (s_pass_entry s) (gs_bytecode_cache s)
    (ps_bytecode_cache s) (vs_bytecode_cache s) (s_shader_blob_list s) (s_gs_disk_cache s)
    (s_ps_disk_cache s) (s_vs_disk_cache s) (s_last_geometry_shader_bytecode s)
    (s_last_pixel_shader_bytecode s) (s_last_vertex_shader_bytecode s)
    (s_last_geometry_shader_uid s) (s_last_pixel_shader_uid s) (s_last_vertex_shader_uid s)
    (s_last_cpu_geometry_shader_uid s) (s_last_cpu_pixel_shader_uid s)
    (s_last_cpu_vertex_shader_uid s) (s_compiler s) (m_dirty_pso s) x (gs_num_failures s)
    (ps_num_failures s) (vs_num_failures s) (dump_files s) (alerts s) (g_Config s)
    (g_ActiveConfig s).
Definition set_gs_num_failures x (s : State) : State :=
  mkState (s_current_primitive_topology s) (s_pass_entry s) (gs_bytecode_cache s)
    (ps_bytecode_cache s) (vs_bytecode_cache s) (s_shader_blob_list s) (s_gs_disk_cache s)
    (s_ps_disk_cache s) (s_vs_disk_cache s) (s_last_geometry_shader_bytecode s)
    (s_last_pixel_shader_bytecode s) (s_last_vertex_shader_bytecode s)
    (s_last_geometry_shader_uid s) (s_last_pixel_shader_uid s) (s_last_vertex_shader_uid s)
    (s_last_cpu_geometry_shader_uid s) (s_last_cpu_pixel_shader_uid s)
    (s_last_cpu_vertex_shader_uid s) (s_compiler s) (m_dirty_pso s) (stats s) x (ps_num_failures
    s) (vs_num_failures s) (dump_files s) (alerts s) (g_Config s) (g_ActiveConfig s).
Definition set_ps_num_failures x (s : State) : State :=
  mkState (s_current_primitive_topology s) (s_pass_entry s) (gs_bytecode_cache s)
    (ps_bytecode_cache s) (vs_bytecode_cache s) (s_shader_blob_list s) (s_gs_disk_cache s)
    (s_ps_disk_cache s) (s_vs_disk_cache s) (s_last_geometry_shader_bytecode s)
    (s_last_pixel_shader_bytecode s) (s_last_vertex_shader_bytecode s)
    (s_last_geometry_shader_uid s) (s_last_pixel_shader_uid s) (s_last_vertex_shader_uid s)
    (s_last_cpu_geometry_shader_uid s) (s_last_cpu_pixel_shader_uid s)
    (s_last_cpu_vertex_shader_uid s) (s_compiler s) (m_dirty_pso s) (stats s) (gs_num_failures
    s) x (vs_num_failures s) (dump_files s) (alerts s) (g_Config s) (g_ActiveConfig s).
Definition set_vs_num_failures x (s : State) : State :=
  mkState (s_current_primitive_topology s) (s_pass_entry s) (gs_bytecode_cache s)
    (ps_bytecode_cache s) (vs_bytecode_cache s) (s_shader_blob_list s) (s_gs_disk_cache s)
    (s_ps_disk_cache s) (s_vs_disk_cache s) (s_last_geometry_shader_bytecode s)
    (s_last_pixel_shader_bytecode s) (s_last_vertex_shader_bytecode s)
    (s_last_geometry_shader_uid s) (s_last_pixel_shader_uid s) (s_last_vertex_shader_uid s)
    (s_last_cpu_geometry_shader_uid s) (s_last_cpu_pixel_shader_uid s)
    (s_last_cpu_vertex_shader_uid s) (s_compiler s) (m_dirty_pso s) (stats s) (gs_num_failures
    s) (ps_num_failures s) x (dump_files s) (alerts s) (g_Config s) (g_ActiveConfig s).
Definition set_dump_files x (s : State) : State :=
  mkState (s_current_primitive_topology s) (s_pass_entry s) (gs_bytecode_cache s)
    (ps_bytecode_cache s) (vs_bytecode_cache s) (s_shader_blob_list s) (s_gs_disk_cache s)
    (s_ps_disk_cache s) (s_vs_disk_cache s) (s_last_geometry_shader_bytecode s)
    (s_last_pixel_shader_bytecode s) (s_last_vertex_shader_bytecode s)
    (s_last_geometry_shader_uid s) (s_last_pixel_shader_uid s) (s_last_vertex_shader_uid s)
    (s_last_cpu_geometry_shader_uid s) (s_last_cpu_pixel_shader_uid s)
    (s_last_cpu_vertex_shader_uid s) (s_compiler s) (m_dirty_pso s) (stats s) (gs_num_failures
    s) (ps_num_failures s) (vs_num_failures s) x (alerts s) (g_Config s) (g_ActiveConfig s).
Definition set_alerts x (s : State) : State :=
  mkState (s_current_primitive_topology s) (s_pass_entry s) (gs_bytecode_cache s)
    (ps_bytecode_cache s) (vs_bytecode_cache s) (s_shader_blob_list s) (s_gs_disk_cache s)
    (s_ps_disk_cache s) (s_vs_disk_cache s) (s_last_geometry_shader_bytecode s)
    (s_last_pixel_shader_bytecode s) (s_last_vertex_shader_bytecode s)
    (s_last_geometry_shader_uid s) (s_last_pixel_shader_uid s) (s_last_vertex_shader_uid s)
    (s_last_cpu_geometry_shader_uid s) (s_last_cpu_pixel_shader_uid s)
    (s_last_cpu_vertex_shader_uid s) (s_compiler s) (m_dirty_pso s) (stats s) (gs_num_failures
    s) (ps_num_failures s) (vs_num_failures s) (dump_files s) x (g_Config s) (g_ActiveConfig s).
Definition set_g_Config x (s : State) : State :=
  mkState (s_current_primitive_topology s) (s_pass_entry s) (gs_bytecode_cache s)
    (ps_bytecode_cache s) (vs_bytecode_cache s) (s_shader_blob_list s) (s_gs_disk_cache s)
    (s_ps_disk_cache s) (s_vs_disk_cache s) (s_last_geometry_shader_bytecode s)
    (s_last_pixel_shader_bytecode s) (s_last_vertex_shader_bytecode s)
    (s_last_geometry_shader_uid s) (s_last_pixel_shader_uid s) (s_last_vertex_shader_uid s)
    (s_last_cpu_geometry_shader_uid s) (s_last_cpu_pixel_shader_uid s)
    (s_last_cpu_vertex_shader_uid s) (s_compiler s) (m_dirty_pso s) (stats s) (gs_num_failures
    s) (ps_num_failures s) (vs_num_failures s) (dump_files s) (alerts s) x (g_ActiveConfig s).
Definition set_g_ActiveConfig x (s : State) : State :=
  mkState (s_current_primitive_topology s) (s_pass_entry s) (gs_bytecode_cache s)
    (ps_bytecode_cache s) (vs_bytecode_cache s) (s_shader_blob_list s) (s_gs_disk_cache s)
    (s_ps_disk_cache s) (s_vs_disk_cache s) (s_last_geometry_shader_bytecode s)
    (s_last_pixel_shader_bytecode s) (s_last_vertex_shader_bytecode s)
    (s_last_geometry_shader_uid s) (s_last_pixel_shader_uid s) (s_last_vertex_shader_uid s)
    (s_last_cpu_geometry_shader_uid s) (s_last_cpu_pixel_shader_uid s)
    (s_last_cpu_vertex_shader_uid s) (s_compiler s) (m_dirty_pso s) (stats s) (gs_num_failures
    s) (ps_num_failures s) (vs_num_failures s) (dump_files s) (alerts s) (g_Config s) x.

(** ** The monad of the embedding *)

Definition M (A : Type) : Type := State -> A * State * list Event.

Definition ret {A : Type} (a : A) : M A := fun s => (a, s, []).

Definition bind {A B : Type} (m : M A) (k : A -> M B) : M B :=
  fun s =>
    let '(a, s1, t1) := m s in
    let '(b, s2, t2) := k a s1 in
    (b, s2, t1 ++ t2).

Notation "x <- m ;; k" := (bind m (fun x => k))
  (at level 100, m at next level, right associativity).
Notation "m ;;; k" := (bind m (fun _ => k))
  (at level 100, right associativity).

Definition gets {A : Type} (f : State -> A) : M A := fun s => (f s, s, []).
Definition modify (f : State -> State) : M unit := fun s => (tt, f s, []).
Definition emit (e : Event) : M unit := fun s => (tt, s, [e]).
Definition when (b : bool) (m : M unit) : M unit := if b then m else ret tt.

(** The state and the events of a run. *)
Definition exec {A : Type} (m : M A) (s : State) : State := snd (fst (m s)).
Definition events {A : Type} (m : M A) (s : State) : list Event := snd (m s).
Definition result {A : Type} (m : M A) (s : State) : A := fst (fst (m s)).

(** ** Entries behind pointers *)

(** [*p]. A pointer whose key has left its map dangles; the embedding reads
    a freshly constructed entry through it and writes nothing. The code
    below only dereferences pointers it has just obtained from [cache[uid]]. *)
Definition load (p : EntryPtr) (s : State) : ByteCodeCacheEntry :=
  match p with
  | addr_s_pass_entry => s_pass_entry s
  | addr_gs u => default ByteCodeCacheEntry_ctor (gs_bytecode_cache s !! u)
  | addr_ps u => default ByteCodeCacheEntry_ctor (ps_bytecode_cache s !! u)
  | addr_vs u => default ByteCodeCacheEntry_ctor (vs_bytecode_cache s !! u)
  end.

Definition store (p : EntryPtr) (f : ByteCodeCacheEntry -> ByteCodeCacheEntry)
    (s : State) : State :=
  match p with
  | addr_s_pass_entry => set_s_pass_entry (f (s_pass_entry s)) s
  | addr_gs u => set_gs_bytecode_cache (alter f u (gs_bytecode_cache s)) s
  | addr_ps u => set_ps_bytecode_cache (alter f u (ps_bytecode_cache s)) s
  | addr_vs u => set_vs_bytecode_cache (alter f u (vs_bytecode_cache s)) s
  end.

(** [std::unordered_map::operator[]]: the element under [uid], default
    constructed and inserted first when there is none. *)
Definition subscript `{Countable K} (uid : K) (cache : gmap K ByteCodeCacheEntry)
    : gmap K ByteCodeCacheEntry :=
  match cache !! uid with
  | Some _ => cache
  | None => <[uid := ByteCodeCacheEntry_ctor]> cache
  end.

Definition gs_bytecode_cache_at (uid : GeometryShaderUid) : M EntryPtr :=
  modify (fun s => set_gs_bytecode_cache (subscript uid (gs_bytecode_cache s)) s) ;;;
  emit (EvLookup (addr_gs uid)) ;;;
  ret (addr_gs uid).

Definition ps_bytecode_cache_at (uid : PixelShaderUid) : M EntryPtr :=
  modify (fun s => set_ps_bytecode_cache (subscript uid (ps_bytecode_cache s)) s) ;;;
  emit (EvLookup (addr_ps uid)) ;;;
  ret (addr_ps uid).

Definition vs_bytecode_cache_at (uid : VertexShaderUid) : M EntryPtr :=
  modify (fun s => set_vs_bytecode_cache (subscript uid (vs_bytecode_cache s)) s) ;;;
  emit (EvLookup (addr_vs uid)) ;;;
  ret (addr_vs uid).

(** [entry->m_initialized.test_and_set()]: sets the flag and returns the
    value it had. *)
Definition test_and_set (entry : EntryPtr) : M bool :=
  previous <- gets (fun s => m_initialized (load entry s)) ;;
  modify (store entry (set_m_initialized true)) ;;;
  emit (EvTestAndSet entry previous) ;;;
  ret previous.

(** [s_shaders_lock]. A call of this file runs to its end before the next
    one starts in this embedding, so the lock is free whenever it is taken;
    taking and releasing it are recorded as events. *)
Definition lock : M unit := emit EvLock.
Definition unlock : M unit := emit EvUnlock.

(** ** Collaborators *)

(** [PanicAlert(format, ...)]: shows the message and returns. *)
Definition PanicAlert (format : string) (args : list VarArg) : M unit :=
  modify (fun s => set_alerts (alerts s ++ [mkAlert format args]) s).

(** [std::ofstream] opened with [std::ios_base::out], written and closed:
    the file holds exactly what was written. *)
Definition write_file (filename contents : string) : M unit :=
  modify (fun s => set_dump_files (<[filename := contents]> (dump_files s)) s).

Fixpoint zeros (n : nat) : string :=
  match n with
  | O => ""
  | S n' => "0" +:+ zeros n'
  end.

(** The conversion [%04i] of a number that is not negative. *)
Definition fmt_04i (n : N) : string :=
  let digits := pretty n in
  zeros (4 - String.length digits) +:+ digits.

(** Modelled from the spec: [Append(uid, bytes)] of the disk cache (section
    4.3; [LinearDiskCache] is in [Common/LinearDiskCache.h]) writes one
    record at the end of the file. *)
Definition s_gs_disk_cache_Append (uid : GeometryShaderUid) (value : D3DBlob) : M unit :=
  modify (fun s => set_s_gs_disk_cache (s_gs_disk_cache s ++ [(uid, value)]) s) ;;;
  emit (EvDiskCacheAppend (addr_gs uid)).

Definition s_ps_disk_cache_Append (uid : PixelShaderUid) (value : D3DBlob) : M unit :=
  modify (fun s => set_s_ps_disk_cache (s_ps_disk_cache s ++ [(uid, value)]) s) ;;;
  emit (EvDiskCacheAppend (addr_ps uid)).

Definition s_vs_disk_cache_Append (uid : VertexShaderUid) (value : D3DBlob) : M unit :=
  modify (fun s => set_s_vs_disk_cache (s_vs_disk_cache s ++ [(uid, value)]) s) ;;;
  emit (EvDiskCacheAppend (addr_vs uid)).

(** Modelled from the spec: a [CompileWorkUnit] (section 3) is a request
    that carries source text, entry point, target profile, flags and a
    completion callback; [s_compiler->NewUnit(size)] hands out a blank one
    with a source buffer of [size] bytes. *)
Definition NewUnit (size : N) : ShaderCompilerWorkUnit :=
  {| wunit_bufsize := size; wunit_code := ""; codesize := 0%N; entrypoint := "";
     flags := 0%Z; target := ""; ResultHandler := None |}.

(** Modelled from the spec: [Submit(workUnit)] (section 4.2;
    [s_compiler->CompileShaderAsync(wunit)]) enqueues the unit; nothing is
    compiled when it returns. The event names the entry the handler of the
    unit will publish to. *)
Definition CompileShaderAsync (entry : EntryPtr) (wunit : ShaderCompilerWorkUnit) : M unit :=
  modify (fun s =>
    set_s_compiler
      (mkCompiler (in_flight (s_compiler s) ++ [wunit]) (completed (s_compiler s))) s) ;;;
  emit (EvCompileShaderAsync entry).

(** Modelled from the spec: compilation happens on background threads
    (section 4.2). A thread finishes the [i]-th unit in flight: the unit
    leaves the queue and waits, with its output, for the next drain. This is
    a step of the environment, not of a function of this file. *)
Definition worker_finish (i : nat) (s : State) : State :=
  match in_flight (s_compiler s) !! i with
  | None => s
  | Some wunit =>
      let out := D3DCompile (wunit_code wunit) (entrypoint wunit) (flags wunit) (target wunit) in
      set_s_compiler
        (mkCompiler (delete i (in_flight (s_compiler s)))
                    (completed (s_compiler s) ++ [(wunit, out)])) s
  end.

Definition workers_finish (done : list nat) (s : State) : State :=
  foldl (fun s i => worker_finish i s) s done.

Fixpoint for_each {A : Type} (l : list A) (body : A -> M unit) : M unit :=
  match l with
  | [] => ret tt
  | x :: l' => body x ;;; for_each l' body
  end.

(** ** ShaderCache.cpp *)

Definition set_pShaderBytecode (p : option (list u8)) (e : ByteCodeCacheEntry) :=
  set_m_shader_bytecode (mkBytecode p (BytecodeLength (m_shader_bytecode e))) e.
Definition set_BytecodeLength (n : nat) (e : ByteCodeCacheEntry) :=
  set_m_shader_bytecode (mkBytecode (pShaderBytecode (m_shader_bytecode e)) n) e.

(** [template<...> void ShaderCache::InsertByteCode(uid, shader_cache, bytecode_blob)];
    [shader_cache_at] is the subscript of the cache the template is
    instantiated with. *)
Definition InsertByteCode {UidType : Type} (shader_cache_at : UidType -> M EntryPtr)
    (uid : UidType) (bytecode_blob : D3DBlob) : M unit :=
  modify (fun s => set_s_shader_blob_list (s_shader_blob_list s ++ [bytecode_blob]) s) ;;;
  lock ;;;
  entry <- shader_cache_at uid ;;
  unlock ;;;
  modify (store entry (set_pShaderBytecode (Some (Data bytecode_blob)))) ;;;
  modify (store entry (set_BytecodeLength (Size bytecode_blob))) ;;;
  modify (store entry (set_m_compiled true)) ;;;
  _ <- test_and_set entry ;;
  ret tt.

(** [ShaderCacheInserter<UidType, ShaderCacheType, cache>::Read]. *)
Definition ShaderCacheInserter_Read {UidType : Type} (cache_at : UidType -> M EntryPtr)
    (key : UidType) (value : list u8) (value_size : nat) : M unit :=
  let blob : D3DBlob := take value_size value in     (* new D3DBlob(value_size, value) *)
  InsertByteCode cache_at key blob.

(** Modelled from the spec: [OpenAndLoad] of the disk cache (section 4.3;
    [LinearDiskCache::OpenAndRead] is in [Common/LinearDiskCache.h]) reads
    every persisted record, oldest first, and hands it to the reader; a file
    that is missing has no record. *)
Definition OpenAndRead {UidType : Type} (file : State -> list (UidType * D3DBlob))
    (reader_Read : UidType -> list u8 -> nat -> M unit) : M unit :=
  records <- gets file ;;
  for_each records (fun r => reader_Read (fst r) (snd r) (length (snd r))).

(** [ShaderCache::Clear]: the body is empty. *)
Definition Clear : M unit := ret tt.

(** [ShaderCache::Init]. The cache files are the three [LinearDiskCache]
    fields of the state; creating the cache directory and building the file
    names change nothing the embedding keeps. *)
Definition Init : M unit :=
  unlock ;;;
  modify (store addr_s_pass_entry (set_m_compiled true)) ;;;
  _ <- test_and_set addr_s_pass_entry ;;
  modify (set_s_last_geometry_shader_bytecode None) ;;;
  modify (set_s_last_pixel_shader_bytecode None) ;;;
  modify (set_s_last_vertex_shader_bytecode None) ;;;
  modify (set_s_last_geometry_shader_uid GeometryShaderUid_zero) ;;;
  modify (set_s_last_pixel_shader_uid PixelShaderUid_zero) ;;;
  modify (set_s_last_vertex_shader_uid VertexShaderUid_zero) ;;;
  modify (set_s_last_cpu_geometry_shader_uid GeometryShaderUid_zero) ;;;
  modify (set_s_last_cpu_pixel_shader_uid PixelShaderUid_zero) ;;;
  modify (set_s_last_cpu_vertex_shader_uid VertexShaderUid_zero) ;;;
  OpenAndRead s_gs_disk_cache (ShaderCacheInserter_Read gs_bytecode_cache_at) ;;;
  OpenAndRead s_ps_disk_cache (ShaderCacheInserter_Read ps_bytecode_cache_at) ;;;
  OpenAndRead s_vs_disk_cache (ShaderCacheInserter_Read vs_bytecode_cache_at) ;;;
  (* Clear out disk cache when debugging shaders to ensure stale ones don't stick around.. *)
  debugging <- gets (fun s => bEnableShaderDebugging (g_Config s)) ;;
  when debugging Clear ;;;
  modify (fun s => set_stats
    {| numGeometryShadersAlive := Z.of_nat (size (gs_bytecode_cache s));
       numGeometryShadersCreated := 0;
       numPixelShadersAlive := Z.of_nat (size (ps_bytecode_cache s));
       numPixelShadersCreated := 0;
       numVertexShadersAlive := Z.of_nat (size (vs_bytecode_cache s));
       numVertexShadersCreated := 0 |} s).

(** Modelled from the spec: [WaitForAll()] (section 4.2;
    [HLSLAsyncCompiler::WaitForFinish]) blocks until the work queue and the
    compiles in flight are empty: the compiler threads finish every unit in
    flight, oldest first. Completion callbacks are invoked by a drain only. *)
Definition WaitForFinish : M unit :=
  modify (fun s => workers_finish (replicate (length (in_flight (s_compiler s))) 0) s).

(** Modelled from the spec: [Append] writes one record (section 4.3), and
    [Close()] finalizes the file; [Sync] and [Close] of a [LinearDiskCache]
    leave the records of the file as they are. *)
Definition Sync : M unit := ret tt.
Definition Close : M unit := ret tt.

(** [UidChecker::Invalidate] (VideoCommon) forgets the sources the checker
    has seen; the embedding keeps none of them. *)
Definition Invalidate : M unit := ret tt.

(** [ShaderCache::Shutdown]. [s_compiler] is null until [Init] assigns it;
    no unit is in flight then, and waiting for none changes nothing. The
    blobs of [s_shader_blob_list] are released and the list is emptied; the
    entries that pointed at their bytes leave the caches next. *)
Definition Shutdown : M unit :=
  WaitForFinish ;;;
  modify (set_s_shader_blob_list []) ;;;
  modify (set_gs_bytecode_cache ∅) ;;;
  modify (set_ps_bytecode_cache ∅) ;;;
  modify (set_vs_bytecode_cache ∅) ;;;
  Sync ;;; Close ;;;                                   (* s_gs_disk_cache *)
  Sync ;;; Close ;;;                                   (* s_ps_disk_cache *)
  Sync ;;; Close ;;;                                   (* s_vs_disk_cache *)
  Invalidate ;;; Invalidate ;;; Invalidate.

Definition PushByteCode (entry : EntryPtr) (shaderBuffer : D3DBlob) : M unit :=
  modify (fun s => set_s_shader_blob_list (s_shader_blob_list s ++ [shaderBuffer]) s) ;;;
  modify (store entry (set_pShaderBytecode (Some (Data shaderBuffer)))) ;;;
  modify (store entry (set_BytecodeLength (Size shaderBuffer))) ;;;
  modify (store entry (set_m_compiled true)).

Definition SetCurrentPrimitiveTopology (gs_primitive_type : u32) : M unit :=
  if bool_decide (gs_primitive_type = PRIMITIVE_TRIANGLES) then
    modify (set_s_current_primitive_topology D3D12_PRIMITIVE_TOPOLOGY_TYPE_TRIANGLE)
  else if bool_decide (gs_primitive_type = PRIMITIVE_LINES) then
    modify (set_s_current_primitive_topology D3D12_PRIMITIVE_TOPOLOGY_TYPE_LINE)
  else if bool_decide (gs_primitive_type = PRIMITIVE_POINTS) then
    modify (set_s_current_primitive_topology D3D12_PRIMITIVE_TOPOLOGY_TYPE_POINT)
  else
    PanicAlert "Invalid primitive type." [].

(** The line feed, [\n] in a C string literal. *)
Definition LF : string := String (Ascii.ascii_of_nat 10) EmptyString.

(** The format string of the three alerts; they differ in the name of the
    stage. *)
Definition compile_failure_format (stage : string) : string :=
  "Failed to compile " +:+ stage +:+ " shader!" +:+ LF +:+
  "This usually happens when trying to use Dolphin with an outdated GPU or integrated GPU like the Intel GMA series." +:+ LF +:+ LF +:+
  "If you're sure this is Dolphin's error anyway, post the contents of %s along with this error message at the forums." +:+ LF +:+ LF +:+
  "Debug info (%s):" +:+ LF +:+ "%s".

(** The three result handlers. [wunit->code.data()] is the source text,
    [out] what the compiler thread left in the unit. The geometry handler
    builds the name of the dump file in [char szTemp[MAX_PATH]] and hands the
    array to [PanicAlert]; the pixel and the vertex handler build it in a
    [std::string] and hand [PanicAlert] the object. *)
Definition HandleGSUIDChange_ResultHandler (gs_uid : GeometryShaderUid) (entry : EntryPtr)
    (wunit : ShaderCompilerWorkUnit) (out : CompileOutput) : M unit :=
  match out with
  | CompileSucceeded shaderbytecode =>
      let shaderBuffer : D3DBlob := shaderbytecode in
      s_gs_disk_cache_Append gs_uid shaderBuffer ;;;
      PushByteCode entry shaderBuffer ;;;
      modify (fun s => set_stats
        (mkStats (Z.of_nat (size (ps_bytecode_cache s)))
                 (numGeometryShadersCreated (stats s) + 1)
                 (numPixelShadersAlive (stats s)) (numPixelShadersCreated (stats s))
                 (numVertexShadersAlive (stats s)) (numVertexShadersCreated (stats s))) s) ;;;
      debugging <- gets (fun s => bEnableShaderDebugging (g_ActiveConfig s)) ;;
      when (DEBUG_BUILD && debugging) (modify (store entry (set_code (wunit_code wunit))))
  | CompileFailed error =>
      num_failures <- gets gs_num_failures ;;
      modify (set_gs_num_failures (num_failures + 1)%N) ;;;
      let szTemp := D_DUMP_IDX +:+ "bad_gs_" +:+ fmt_04i num_failures +:+ ".txt" in
      write_file szTemp (wunit_code wunit +:+ error) ;;;
      PanicAlert (compile_failure_format "geometry")
        [chars szTemp; chars GeometryShaderVersionString; chars error]
  end.

Definition HandlePSUIDChange_ResultHandler (ps_uid : PixelShaderUid) (entry : EntryPtr)
    (wunit : ShaderCompilerWorkUnit) (out : CompileOutput) : M unit :=
  match out with
  | CompileSucceeded shaderbytecode =>
      let shaderBuffer : D3DBlob := shaderbytecode in
      s_ps_disk_cache_Append ps_uid shaderBuffer ;;;
      PushByteCode entry shaderBuffer ;;;
      debugging <- gets (fun s => bEnableShaderDebugging (g_ActiveConfig s)) ;;
      when (DEBUG_BUILD && debugging) (modify (store entry (set_code (wunit_code wunit))))
  | CompileFailed error =>
      num_failures <- gets ps_num_failures ;;
      modify (set_ps_num_failures (num_failures + 1)%N) ;;;
      let filename := D_DUMP_IDX +:+ "bad_ps_" +:+ fmt_04i num_failures +:+ ".txt" in
      write_file filename (wunit_code wunit +:+ error) ;;;
      PanicAlert (compile_failure_format "pixel")
        [string_object filename; chars PixelShaderVersionString; chars error]
  end.

Definition HandleVSUIDChange_ResultHandler (vs_uid : VertexShaderUid) (entry : EntryPtr)
    (wunit : ShaderCompilerWorkUnit) (out : CompileOutput) : M unit :=
  match out with
  | CompileSucceeded shaderbytecode =>
      let shaderBuffer : D3DBlob := shaderbytecode in
      s_vs_disk_cache_Append vs_uid shaderBuffer ;;;
      PushByteCode entry shaderBuffer ;;;
      debugging <- gets (fun s => bEnableShaderDebugging (g_ActiveConfig s)) ;;
      when (DEBUG_BUILD && debugging) (modify (store entry (set_code (wunit_code wunit))))
  | CompileFailed error =>
      num_failures <- gets vs_num_failures ;;
      modify (set_vs_num_failures (num_failures + 1)%N) ;;;
      let filename := D_DUMP_IDX +:+ "bad_vs_" +:+ fmt_04i num_failures +:+ ".txt" in
      write_file filename (wunit_code wunit) ;;;
      PanicAlert (compile_failure_format "vertex")
        [string_object filename; chars VertexShaderVersionString; chars error]
  end.

(** [wunit->ResultHandler(wunit)]. *)
Definition call_ResultHandler (done : ShaderCompilerWorkUnit * CompileOutput) : M unit :=
  let (wunit, out) := done in
  match ResultHandler wunit with
  | Some (GSResultHandler gs_uid entry) => HandleGSUIDChange_ResultHandler gs_uid entry wunit out
  | Some (PSResultHandler ps_uid entry) => HandlePSUIDChange_ResultHandler ps_uid entry wunit out
  | Some (VSResultHandler vs_uid entry) => HandleVSUIDChange_ResultHandler vs_uid entry wunit out
  | None => ret tt
  end.

(** Modelled from the spec: [DrainCompleted] (section 4.2;
    [HLSLAsyncCompiler::ProcCompilationResults]) synchronously invokes the
    completion callback of every work unit that finished since the last
    drain. *)
Definition ProcCompilationResults : M unit :=
  emit EvProcCompilationResults ;;;
  done <- gets (fun s => completed (s_compiler s)) ;;
  modify (fun s => set_s_compiler (mkCompiler (in_flight (s_compiler s)) []) s) ;;;
  for_each done call_ResultHandler.

Definition HandleGSUIDChange (gs_uid : GeometryShaderUid) (gs_primitive_type components : u32)
    (xfr : XFMemory) (on_gpu_thread : bool) : M unit :=
  if IsPassthrough gs_uid then
    modify (set_s_last_geometry_shader_bytecode (Some addr_s_pass_entry))
  else
    lock ;;;
    entry <- gs_bytecode_cache_at gs_uid ;;
    unlock ;;;
    when on_gpu_thread (modify (set_s_last_geometry_shader_bytecode (Some entry))) ;;;
    initialized <- test_and_set entry ;;
    if initialized then ret tt
    else
      (* Need to compile a new shader *)
      let wunit := NewUnit GEOMETRYSHADERGEN_BUFFERSIZE in
      let code := GenerateGeometryShaderCode gs_primitive_type API_D3D11 xfr components in
      let wunit :=
        {| wunit_bufsize := wunit_bufsize wunit;
           wunit_code := code;
           codesize := to_u32 (N.of_nat (String.length code));
           entrypoint := "main";
           flags := Z.lor D3DCOMPILE_SKIP_VALIDATION D3DCOMPILE_OPTIMIZATION_LEVEL3;
           target := GeometryShaderVersionString;
           ResultHandler := Some (GSResultHandler gs_uid entry) |} in
      CompileShaderAsync entry wunit.

Definition HandlePSUIDChange (ps_uid : PixelShaderUid) (ps_dst_alpha_mode : DSTALPHA_MODE)
    (components : u32) (xfr : XFMemory) (bpm : BPMemory) (on_gpu_thread : bool) : M unit :=
  lock ;;;
  entry <- ps_bytecode_cache_at ps_uid ;;
  unlock ;;;
  when on_gpu_thread (modify (set_s_last_pixel_shader_bytecode (Some entry))) ;;;
  initialized <- test_and_set entry ;;
  if initialized then ret tt
  else
    (* Need to compile a new shader *)
    let wunit := NewUnit PIXELSHADERGEN_BUFFERSIZE in
    let code := GeneratePixelShaderCodeD3D11 ps_dst_alpha_mode components xfr bpm in
    let wunit :=
      {| wunit_bufsize := wunit_bufsize wunit;
         wunit_code := code;
         codesize := to_u32 (N.of_nat (String.length code));
         entrypoint := "main";
         flags := Z.lor D3DCOMPILE_SKIP_VALIDATION D3DCOMPILE_OPTIMIZATION_LEVEL3;
         target := PixelShaderVersionString;
         ResultHandler := Some (PSResultHandler ps_uid entry) |} in
    CompileShaderAsync entry wunit.

Definition HandleVSUIDChange (vs_uid : VertexShaderUid) (components : u32)
    (xfr : XFMemory) (bpm : BPMemory) (on_gpu_thread : bool) : M unit :=
  lock ;;;
  entry <- vs_bytecode_cache_at vs_uid ;;
  unlock ;;;
  when on_gpu_thread (modify (set_s_last_vertex_shader_bytecode (Some entry))) ;;;
  (* Compile only when we have a new instance *)
  initialized <- test_and_set entry ;;
  if initialized then ret tt
  else
    let wunit := NewUnit VERTEXSHADERGEN_BUFFERSIZE in
    let code := GenerateVertexShaderCodeD3D11 components xfr bpm in
    let wunit :=
      {| wunit_bufsize := wunit_bufsize wunit;
         wunit_code := code;
         codesize := to_u32 (N.of_nat (String.length code));
         entrypoint := "main";
         flags := Z.lor (Z.lor D3DCOMPILE_SKIP_VALIDATION D3DCOMPILE_OPTIMIZATION_LEVEL3)
                        D3DCOMPILE_ENABLE_BACKWARDS_COMPATIBILITY;
         target := VertexShaderVersionString;
         ResultHandler := Some (VSResultHandler vs_uid entry) |} in
    CompileShaderAsync entry wunit.

(** The debug-only block of [PrepareShaders]: the sources are generated
    again and handed to the uid checkers ([UidChecker] is in VideoCommon). *)
Definition check_uids (gs_changed ps_changed vs_changed : bool) : M unit :=
  debugging <- gets (fun s => bEnableShaderDebugging (g_ActiveConfig s)) ;;
  when (DEBUG_BUILD && debugging)
    (when gs_changed (emit (EvUidCheck "Geometry")) ;;;
     when ps_changed (emit (EvUidCheck "Pixel")) ;;;
     when vs_changed (emit (EvUidCheck "Vertex"))).

Definition PrepareShaders (ps_dst_alpha_mode : DSTALPHA_MODE) (gs_primitive_type components : u32)
    (xfr : XFMemory) (bpm : BPMemory) (on_gpu_thread : bool) : M unit :=
  SetCurrentPrimitiveTopology gs_primitive_type ;;;
  let gs_uid := GetGeometryShaderUid gs_primitive_type API_D3D11 xfr components in
  let ps_uid := GetPixelShaderUidD3D11 ps_dst_alpha_mode components xfr bpm in
  let vs_uid := GetVertexShaderUidD3D11 components xfr bpm in
  changed <-
    (if on_gpu_thread then
       ProcCompilationResults ;;;
       gets (fun s => (bool_decide (gs_uid ≠ s_last_geometry_shader_uid s),
                       bool_decide (ps_uid ≠ s_last_pixel_shader_uid s),
                       bool_decide (vs_uid ≠ s_last_vertex_shader_uid s)))
     else
       gets (fun s => (bool_decide (gs_uid ≠ s_last_cpu_geometry_shader_uid s),
                       bool_decide (ps_uid ≠ s_last_cpu_pixel_shader_uid s),
                       bool_decide (vs_uid ≠ s_last_cpu_vertex_shader_uid s)))) ;;
  let '(gs_changed, ps_changed, vs_changed) := changed in
  if negb gs_changed && negb ps_changed && negb vs_changed then ret tt
  else
    (if on_gpu_thread then
       when gs_changed (modify (set_s_last_geometry_shader_uid gs_uid)) ;;;
       when ps_changed (modify (set_s_last_pixel_shader_uid ps_uid)) ;;;
       when vs_changed (modify (set_s_last_vertex_shader_uid vs_uid)) ;;;
       (* A Uid has changed, so the PSO will need to be reset at next ApplyState. *)
       modify (set_m_dirty_pso true) ;;;
       check_uids gs_changed ps_changed vs_changed
     else
       when gs_changed (modify (set_s_last_cpu_geometry_shader_uid gs_uid)) ;;;
       when ps_changed (modify (set_s_last_cpu_pixel_shader_uid ps_uid)) ;;;
       when vs_changed (modify (set_s_last_cpu_vertex_shader_uid vs_uid))) ;;;
    when gs_changed
      (HandleGSUIDChange gs_uid gs_primitive_type components xfr on_gpu_thread) ;;;
    when ps_changed
      (HandlePSUIDChange ps_uid ps_dst_alpha_mode components xfr bpm on_gpu_thread) ;;;
    when vs_changed
      (HandleVSUIDChange vs_uid components xfr bpm on_gpu_thread).

(** The condition tested by [TestShaders]: the three active entries are
    compiled. *)
Definition active_compiled (g p v : EntryPtr) (s : State) : bool :=
  m_compiled (load g s) && m_compiled (load p s) && m_compiled (load v s).

(** The loop of [TestShaders]. The compiler threads run while the caller
    spins: [finished k] lists the units in flight that they finish before
    the [k]-th drain of the loop. The loop needs not end (an active entry
    whose compilation failed is never compiled), so it runs on [fuel]:
    [None] means that [fuel] iterations did not leave it. *)
Fixpoint TestShaders_loop (fuel : nat) (finished : nat -> list nat) (count : nat)
    (g p v : EntryPtr) (s : State) : option (bool * State * list Event) :=
  if active_compiled g p v s then Some (active_compiled g p v s, s, [])
  else
    match fuel with
    | O => None
    | S fuel' =>
        let '(_, s1, t1) := ProcCompilationResults (workers_finish (finished count) s) in
        if bFullAsyncShaderCompilation (g_ActiveConfig s1) then
          Some (active_compiled g p v s1, s1, t1)              (* break *)
        else
          match TestShaders_loop fuel' finished (S count) g p v s1 with
          | None => None
          | Some (r, s2, t2) => Some (r, s2, t1 ++ EvYield (Z.of_nat count) :: t2)
          end
    end.

Definition TestShaders (fuel : nat) (finished : nat -> list nat) (s : State)
    : option (bool * State * list Event) :=
  match s_last_geometry_shader_bytecode s, s_last_pixel_shader_bytecode s,
        s_last_vertex_shader_bytecode s with
  | Some g, Some p, Some v => TestShaders_loop fuel finished 0 g p v s
  | _, _, _ => Some (false, s, [])
  end.

Definition GetCurrentPrimitiveTopology (s : State) : D3D12_PRIMITIVE_TOPOLOGY_TYPE :=
  s_current_primitive_topology s.

(** The accessors of the active bytecode dereference the pointer without a
    test; [None] stands for the dereference of a null pointer. *)
Definition GetActiveGeometryShaderBytecode (s : State) : option D3D12_SHADER_BYTECODE :=
  (fun p => m_shader_bytecode (load p s)) <$> s_last_geometry_shader_bytecode s.
Definition GetActivePixelShaderBytecode (s : State) : option D3D12_SHADER_BYTECODE :=
  (fun p => m_shader_bytecode (load p s)) <$> s_last_pixel_shader_bytecode s.
Definition GetActiveVertexShaderBytecode (s : State) : option D3D12_SHADER_BYTECODE :=
  (fun p => m_shader_bytecode (load p s)) <$> s_last_vertex_shader_bytecode s.

Definition GetActiveGeometryShaderUid (s : State) : GeometryShaderUid :=
  s_last_geometry_shader_uid s.
Definition GetActivePixelShaderUid (s : State) : PixelShaderUid :=
  s_last_pixel_shader_uid s.
Definition GetActiveVertexShaderUid (s : State) : VertexShaderUid :=
  s_last_vertex_shader_uid s.

Definition GetGeometryShaderFromUid (uid : GeometryShaderUid) : M D3D12_SHADER_BYTECODE :=
  entry <- gs_bytecode_cache_at uid ;;
  gets (fun s => m_shader_bytecode (load entry s)).
Definition GetPixelShaderFromUid (uid : PixelShaderUid) : M D3D12_SHADER_BYTECODE :=
  entry <- ps_bytecode_cache_at uid ;;
  gets (fun s => m_shader_bytecode (load entry s)).
Definition GetVertexShaderFromUid (uid : VertexShaderUid) : M D3D12_SHADER_BYTECODE :=
  entry <- vs_bytecode_cache_at uid ;;
  gets (fun s => m_shader_bytecode (load entry s)).

(** ** Sequences of calls *)

(** One step of a run of the subsystem: a call of one of the three uid-change
    handlers, a drain of the completions, or a compiler thread finishing a
    unit. *)
Inductive Step : Type :=
  | StepGS (gs_uid : GeometryShaderUid) (gs_primitive_type components : u32)
           (xfr : XFMemory) (on_gpu_thread : bool)
  | StepPS (ps_uid : PixelShaderUid) (ps_dst_alpha_mode : DSTALPHA_MODE) (components : u32)
           (xfr : XFMemory) (bpm : BPMemory) (on_gpu_thread : bool)
  | StepVS (vs_uid : VertexShaderUid) (components : u32) (xfr : XFMemory) (bpm : BPMemory)
           (on_gpu_thread : bool)
  | StepDrain
  | StepWorker (i : nat).

Definition step (c : Step) : M unit :=
  match c with
  | StepGS gs_uid gs_primitive_type components xfr on_gpu_thread =>
      HandleGSUIDChange gs_uid gs_primitive_type components xfr on_gpu_thread
  | StepPS ps_uid ps_dst_alpha_mode components xfr bpm on_gpu_thread =>
      HandlePSUIDChange ps_uid ps_dst_alpha_mode components xfr bpm on_gpu_thread
  | StepVS vs_uid components xfr bpm on_gpu_thread =>
      HandleVSUIDChange vs_uid components xfr bpm on_gpu_thread
  | StepDrain => ProcCompilationResults
  | StepWorker i => modify (worker_finish i)
  end.

Definition is_handler_call (c : Step) : bool :=
  match c with
  | StepGS _ _ _ _ _ | StepPS _ _ _ _ _ _ | StepVS _ _ _ _ _ => true
  | StepDrain | StepWorker _ => false
  end.

Definition steps (cs : list Step) : M unit := for_each cs step.

#[global] Instance EntryPtr_eq_dec : EqDecision EntryPtr.
Proof. solve_decision. Defined.

#[global] Instance Event_eq_dec : EqDecision Event.
Proof. solve_decision. Defined.

(** How often the event [e] occurs in a trace. *)
Definition occurrences (e : Event) (t : list Event) : nat :=
  length (filter (fun e' => e' = e) t).

(** The events of a call that the memoisation of [PrepareShaders] is meant
    to save: taking the lock, a cache lookup, the test of the one-shot flag
    and a compile dispatch. *)
Definition is_cache_work (e : Event) : bool :=
  match e with
  | EvLock | EvUnlock | EvLookup _ | EvTestAndSet _ _ | EvCompileShaderAsync _ => true
  | EvProcCompilationResults | EvDiskCacheAppend _ | EvUidCheck _ | EvYield _ => false
  end.

Definition is_dispatch (e : Event) : bool :=
  match e with
  | EvCompileShaderAsync _ => true
  | _ => false
  end.

(** The last bytes persisted for [uid] in a cache file. *)
Definition persisted `{EqDecision K} (uid : K) (file : list (K * D3DBlob)) : option D3DBlob :=
  snd <$> last (filter (fun r => fst r = uid) file).

Definition published (blob : D3DBlob) : D3D12_SHADER_BYTECODE :=
  {| pShaderBytecode := Some (Data blob); BytecodeLength := Size blob |}.

(** ** Vocabulary of the properties *)

(** The one-shot flag and the compiled flag of the entry behind a pointer. *)
Definition initialized (p : EntryPtr) (s : State) : bool := m_initialized (load p s).
Definition compiled (p : EntryPtr) (s : State) : bool := m_compiled (load p s).

(** The entry a step obtains from a cache and tests, if it does. *)
Definition looked_up (c : Step) : option EntryPtr :=
  match c with
  | StepGS gs_uid _ _ _ _ => if IsPassthrough gs_uid then None else Some (addr_gs gs_uid)
  | StepPS ps_uid _ _ _ _ _ => Some (addr_ps ps_uid)
  | StepVS vs_uid _ _ _ _ => Some (addr_vs vs_uid)
  | StepDrain | StepWorker _ => None
  end.

(** "The three active entries are compiled": all three pointers are bound,
    and the entries behind them have their compiled flag set. *)
Definition all_active_compiled (s : State) : bool :=
  match s_last_geometry_shader_bytecode s, s_last_pixel_shader_bytecode s,
        s_last_vertex_shader_bytecode s with
  | Some g, Some p, Some v => active_compiled g p v s
  | _, _, _ => false
  end.

Definition all_active_bound (s : State) : bool :=
  match s_last_geometry_shader_bytecode s, s_last_pixel_shader_bytecode s,
        s_last_vertex_shader_bytecode s with
  | Some _, Some _, Some _ => true
  | _, _, _ => false
  end.

(** The memo slots of an execution context. *)
Definition memo_geometry (on_gpu_thread : bool) (s : State) : GeometryShaderUid :=
  if on_gpu_thread then s_last_geometry_shader_uid s else s_last_cpu_geometry_shader_uid s.
Definition memo_pixel (on_gpu_thread : bool) (s : State) : PixelShaderUid :=
  if on_gpu_thread then s_last_pixel_shader_uid s else s_last_cpu_pixel_shader_uid s.
Definition memo_vertex (on_gpu_thread : bool) (s : State) : VertexShaderUid :=
  if on_gpu_thread then s_last_vertex_shader_uid s else s_last_cpu_vertex_shader_uid s.

(** What a drain, a compiler thread and [SetCurrentPrimitiveTopology] leave
    alone: the active pointers, the memo slots, the dirty flag, the
    settings, the units in flight, the keys of the caches and every one-shot
    flag. *)
Definition control_preserved (s s' : State) : Prop :=
  s_last_geometry_shader_bytecode s' = s_last_geometry_shader_bytecode s /\
  s_last_pixel_shader_bytecode s' = s_last_pixel_shader_bytecode s /\
  s_last_vertex_shader_bytecode s' = s_last_vertex_shader_bytecode s /\
  s_last_geometry_shader_uid s' = s_last_geometry_shader_uid s /\
  s_last_pixel_shader_uid s' = s_last_pixel_shader_uid s /\
  s_last_vertex_shader_uid s' = s_last_vertex_shader_uid s /\
  s_last_cpu_geometry_shader_uid s' = s_last_cpu_geometry_shader_uid s /\
  s_last_cpu_pixel_shader_uid s' = s_last_cpu_pixel_shader_uid s /\
  s_last_cpu_vertex_shader_uid s' = s_last_cpu_vertex_shader_uid s /\
  m_dirty_pso s' = m_dirty_pso s /\
  g_Config s' = g_Config s /\
  g_ActiveConfig s' = g_ActiveConfig s /\
  dom (gs_bytecode_cache s') = dom (gs_bytecode_cache s) /\
  dom (ps_bytecode_cache s') = dom (ps_bytecode_cache s) /\
  dom (vs_bytecode_cache s') = dom (vs_bytecode_cache s) /\
  forall p, initialized p s' = initialized p s.

(** A computation is quiet when it leaves the control state alone, does no
    cache work (no lock, no lookup, no test of a one-shot flag, no compile
    dispatch) and leaves the units in flight as they are. *)
Definition quiet {A : Type} (m : M A) : Prop :=
  forall s, control_preserved s (exec m s) /\
            Forall (fun e => is_cache_work e = false) (events m s) /\
            in_flight (s_compiler (exec m s)) = in_flight (s_compiler s).

(** What a uid-change handler leaves alone: the memo slots, the dirty flag,
    the settings, the cache files, and the compiled flag and the bytecode of
    every entry. *)
Definition handler_preserved (s s' : State) : Prop :=
  s_last_geometry_shader_uid s' = s_last_geometry_shader_uid s /\
  s_last_pixel_shader_uid s' = s_last_pixel_shader_uid s /\
  s_last_vertex_shader_uid s' = s_last_vertex_shader_uid s /\
  s_last_cpu_geometry_shader_uid s' = s_last_cpu_geometry_shader_uid s /\
  s_last_cpu_pixel_shader_uid s' = s_last_cpu_pixel_shader_uid s /\
  s_last_cpu_vertex_shader_uid s' = s_last_cpu_vertex_shader_uid s /\
  m_dirty_pso s' = m_dirty_pso s /\
  g_Config s' = g_Config s /\
  g_ActiveConfig s' = g_ActiveConfig s /\
  s_gs_disk_cache s' = s_gs_disk_cache s /\
  s_ps_disk_cache s' = s_ps_disk_cache s /\
  s_vs_disk_cache s' = s_vs_disk_cache s /\
  (forall p, compiled p s' = compiled p s) /\
  (forall p, m_shader_bytecode (load p s') = m_shader_bytecode (load p s)).

(** The events of a uid-change handler that reaches the cache, for the
    entry [p] it obtains and the value [previous] of its one-shot flag. *)
Definition handler_events (p : EntryPtr) (previous : bool) : list Event :=
  [EvLock; EvLookup p; EvUnlock; EvTestAndSet p previous] ++
  (if previous then [] else [EvCompileShaderAsync p]).

(** The state [PrepareShaders] hands to the handlers when some uid has
    changed: the memo slots of the context hold the new uids of the changed
    stages and, on the submission context, the dirty flag is set. *)
Definition remembered (on_gpu_thread gs_changed ps_changed vs_changed : bool)
    (gs_uid : GeometryShaderUid) (ps_uid : PixelShaderUid) (vs_uid : VertexShaderUid)
    (s : State) : State :=
  let update (changed : bool) (f : State -> State) (s : State) :=
    if changed then f s else s in
  if on_gpu_thread then
    set_m_dirty_pso true
      (update vs_changed (set_s_last_vertex_shader_uid vs_uid)
         (update ps_changed (set_s_last_pixel_shader_uid ps_uid)
            (update gs_changed (set_s_last_geometry_shader_uid gs_uid) s)))
  else
    update vs_changed (set_s_last_cpu_vertex_shader_uid vs_uid)
      (update ps_changed (set_s_last_cpu_pixel_shader_uid ps_uid)
         (update gs_changed (set_s_last_cpu_geometry_shader_uid gs_uid) s)).

(** The compile dispatches among the events of a call. *)
Definition dispatches (t : list Event) : list Event :=
  filter (fun e => is_dispatch e = true) t.

(** A computation dispatches nothing when none of its events is a compile
    dispatch and the units in flight are as before. *)
Definition dispatches_nothing {A : Type} (m : M A) : Prop :=
  forall s, dispatches (events m s) = [] /\
            in_flight (s_compiler (exec m s)) = in_flight (s_compiler s).

(** The entry [InsertByteCode] leaves under a uid: the blob is published,
    the entry is compiled and its one-shot flag is set; the debug source is
    the one of the entry that was there, if any. *)
Definition inserted (blob : D3DBlob) (old : option ByteCodeCacheEntry) : ByteCodeCacheEntry :=
  {| m_shader_bytecode := published blob;
     m_compiled := true;
     m_initialized := true;
     code := code (default ByteCodeCacheEntry_ctor old) |}.

(** A cache after the records of a file have been replayed into it, oldest
    first. *)
Definition replayed `{Countable K} (file : list (K * D3DBlob))
    (cache : gmap K ByteCodeCacheEntry) : gmap K ByteCodeCacheEntry :=
  foldl (fun m r => <[fst r := inserted (snd r) (m !! fst r)]> m) cache file.

(** What holds of an entry that [Init] replayed from a file, here for the
    pointer [p] to it: it is compiled and initialized and holds the bytes
    last persisted for its uid; handler calls leave that as it is, and no
    sequence of steps dispatches a compile for it. *)
Definition recovered (p : EntryPtr) (blob : D3DBlob) (s : State) : Prop :=
  m_shader_bytecode (load p s) = published blob /\
  compiled p s = true /\
  initialized p s = true /\
  (forall cs, Forall (fun c => is_handler_call c = true) cs ->
     m_shader_bytecode (load p (exec (steps cs) s)) = published blob /\
     compiled p (exec (steps cs) s) = true) /\
  (forall cs, occurrences (EvCompileShaderAsync p) (events (steps cs) s) = 0).

(** The dispatch a handler call makes: one, for the entry it reached, when
    the one-shot flag of that entry was clear. *)
Definition dispatch_of (changed : bool) (c : Step) (s : State) : list Event :=
  match looked_up c with
  | Some p => if changed && negb (initialized p s) then [EvCompileShaderAsync p] else []
  | None => []
  end.

(** The drains and the yields among the events of a call of [TestShaders]. *)
Definition is_yield (e : Event) : bool :=
  match e with
  | EvYield _ => true
  | _ => false
  end.

Definition drains (t : list Event) : nat := occurrences EvProcCompilationResults t.
Definition yields (t : list Event) : nat := length (filter (fun e => is_yield e = true) t).

(** Every event of the computation satisfies [P]. *)
Definition emits {A : Type} (P : Event -> Prop) (m : M A) : Prop :=
  forall s, Forall P (events m s).

Definition is_append (e : Event) : Prop := exists p, e = EvDiskCacheAppend p.

(** ** Work units and records *)

(** The work units the three uid-change handlers build. *)
Definition geometry_unit (gs_uid : GeometryShaderUid) (entry : EntryPtr)
    (gs_primitive_type components : u32) (xfr : XFMemory) : ShaderCompilerWorkUnit :=
  let code := GenerateGeometryShaderCode gs_primitive_type API_D3D11 xfr components in
  {| wunit_bufsize := GEOMETRYSHADERGEN_BUFFERSIZE;
     wunit_code := code;
     codesize := to_u32 (N.of_nat (String.length code));
     entrypoint := "main";
     flags := Z.lor D3DCOMPILE_SKIP_VALIDATION D3DCOMPILE_OPTIMIZATION_LEVEL3;
     target := GeometryShaderVersionString;
     ResultHandler := Some (GSResultHandler gs_uid entry) |}.

Definition pixel_unit (ps_uid : PixelShaderUid) (entry : EntryPtr)
    (ps_dst_alpha_mode : DSTALPHA_MODE) (components : u32) (xfr : XFMemory) (bpm : BPMemory)
    : ShaderCompilerWorkUnit :=
  let code := GeneratePixelShaderCodeD3D11 ps_dst_alpha_mode components xfr bpm in
  {| wunit_bufsize := PIXELSHADERGEN_BUFFERSIZE;
     wunit_code := code;
     codesize := to_u32 (N.of_nat (String.length code));
     entrypoint := "main";
     flags := Z.lor D3DCOMPILE_SKIP_VALIDATION D3DCOMPILE_OPTIMIZATION_LEVEL3;
     target := PixelShaderVersionString;
     ResultHandler := Some (PSResultHandler ps_uid entry) |}.

Definition vertex_unit (vs_uid : VertexShaderUid) (entry : EntryPtr)
    (components : u32) (xfr : XFMemory) (bpm : BPMemory) : ShaderCompilerWorkUnit :=
  let code := GenerateVertexShaderCodeD3D11 components xfr bpm in
  {| wunit_bufsize := VERTEXSHADERGEN_BUFFERSIZE;
     wunit_code := code;
     codesize := to_u32 (N.of_nat (String.length code));
     entrypoint := "main";
     flags := Z.lor (Z.lor D3DCOMPILE_SKIP_VALIDATION D3DCOMPILE_OPTIMIZATION_LEVEL3)
                    D3DCOMPILE_ENABLE_BACKWARDS_COMPATIBILITY;
     target := VertexShaderVersionString;
     ResultHandler := Some (VSResultHandler vs_uid entry) |}.



(** The element behind a pointer exists: its key is in its cache. *)
Definition present (p : EntryPtr) (s : State) : Prop :=
  match p with
  | addr_s_pass_entry => True
  | addr_gs u => is_Some (gs_bytecode_cache s !! u)
  | addr_ps u => is_Some (ps_bytecode_cache s !! u)
  | addr_vs u => is_Some (vs_bytecode_cache s !! u)
  end.

(** The bytes last persisted for the uid of an entry, in the cache file of
    its stage. *)
Definition persisted_at (p : EntryPtr) (s : State) : option D3DBlob :=
  match p with
  | addr_s_pass_entry => None
  | addr_gs u => persisted u (s_gs_disk_cache s)
  | addr_ps u => persisted u (s_ps_disk_cache s)
  | addr_vs u => persisted u (s_vs_disk_cache s)
  end.

(** The closure of a work unit publishes to [entry] and persists under the
    uid of [record]. *)
Definition handler_of (wunit : ShaderCompilerWorkUnit) : option (EntryPtr * EntryPtr) :=
  match ResultHandler wunit with
  | Some (GSResultHandler gs_uid entry) => Some (addr_gs gs_uid, entry)
  | Some (PSResultHandler ps_uid entry) => Some (addr_ps ps_uid, entry)
  | Some (VSResultHandler vs_uid entry) => Some (addr_vs vs_uid, entry)
  | None => None
  end.

(** How the statistics move along a run: the pixel and the vertex counters
    stay as they are, and [numGeometryShadersCreated] grows by one with every
    record appended to the geometry cache file. *)
Definition statistics_track (s s' : State) : Prop :=
  numPixelShadersAlive (stats s') = numPixelShadersAlive (stats s) /\
  numPixelShadersCreated (stats s') = numPixelShadersCreated (stats s) /\
  numVertexShadersAlive (stats s') = numVertexShadersAlive (stats s) /\
  numVertexShadersCreated (stats s') = numVertexShadersCreated (stats s) /\
  (exists appended, s_gs_disk_cache s' = s_gs_disk_cache s ++ appended /\
     numGeometryShadersCreated (stats s') =
       (numGeometryShadersCreated (stats s) + Z.of_nat (length appended))%Z).

Definition tracks_statistics {A : Type} (m : M A) : Prop :=
  forall s, statistics_track s (exec m s).

(** A computation preserves an observation of the state. *)
Definition preserves {A B : Type} (f : State -> B) (m : M A) : Prop :=
  forall s, f (exec m s) = f s.

(** The topology [SetCurrentPrimitiveTopology] records for a primitive
    type, if the type is one of the three it knows. *)
Definition topology_of (gs_primitive_type : u32) : option D3D12_PRIMITIVE_TOPOLOGY_TYPE :=
  if bool_decide (gs_primitive_type = PRIMITIVE_TRIANGLES) then
    Some D3D12_PRIMITIVE_TOPOLOGY_TYPE_TRIANGLE
  else if bool_decide (gs_primitive_type = PRIMITIVE_LINES) then
    Some D3D12_PRIMITIVE_TOPOLOGY_TYPE_LINE
  else if bool_decide (gs_primitive_type = PRIMITIVE_POINTS) then
    Some D3D12_PRIMITIVE_TOPOLOGY_TYPE_POINT
  else None.

(** ** Concurrent callers

    The uid-change handlers are called by the submission context and by
    auxiliary contexts at the same time. Between two points at which another
    thread can run, a call does one of the following at once: it takes the
    spin lock (it waits while another call holds it); it subscripts the
    cache; it releases the lock; it assigns the active pointer; it tests and
    sets the one-shot flag; it builds the work unit and submits it. A
    [ProgramPoint] names the point a call has reached. *)
Inductive ProgramPoint : Type :=
  | at_entry
  | at_subscript                            (* the lock is held *)
  | at_unlock (entry : EntryPtr)            (* the lock is held *)
  | at_assign (entry : EntryPtr)            (* if (on_gpu_thread) s_last_..._bytecode = entry; *)
  | at_test_and_set (entry : EntryPtr)      (* if (entry->m_initialized.test_and_set()) *)
  | at_submit (entry : EntryPtr)            (* Need to compile a new shader *)
  | returned.

(** One step of a call: from whether the lock is held and the globals to
    the point reached, whether the lock is held then, the globals and the
    events; [None] when the call cannot move (it waits for the lock, or it
    has returned). *)
Definition Atomic : Type :=
  bool -> State -> option (ProgramPoint * bool * State * list Event).

(** [s_shaders_lock.lock()]. *)
Definition acquire (next : ProgramPoint) : Atomic :=
  fun held s => if held then None else Some (next, true, s, [EvLock]).

(** [s_shaders_lock.unlock()]. *)
Definition release (next : ProgramPoint) : Atomic :=
  fun _ s => Some (next, false, s, [EvUnlock]).

Definition atomically {A : Type} (m : M A) (next : A -> ProgramPoint) : Atomic :=
  fun held s => let '(a, s', t) := m s in Some (next a, held, s', t).

Definition stuck : Atomic := fun _ _ => None.

Definition HandleGSUIDChange_from (pc : ProgramPoint) (gs_uid : GeometryShaderUid)
    (gs_primitive_type components : u32) (xfr : XFMemory) (on_gpu_thread : bool) : Atomic :=
  match pc with
  | at_entry =>
      if IsPassthrough gs_uid then
        atomically (modify (set_s_last_geometry_shader_bytecode (Some addr_s_pass_entry)))
                   (fun _ => returned)
      else acquire at_subscript
  | at_subscript => atomically (gs_bytecode_cache_at gs_uid) at_unlock
  | at_unlock entry => release (at_assign entry)
  | at_assign entry =>
      atomically (when on_gpu_thread (modify (set_s_last_geometry_shader_bytecode (Some entry))))
                 (fun _ => at_test_and_set entry)
  | at_test_and_set entry =>
      atomically (test_and_set entry)
                 (fun initialized => if initialized then returned else at_submit entry)
  | at_submit entry =>
      atomically
        (CompileShaderAsync entry
           (geometry_unit gs_uid entry gs_primitive_type components xfr))
        (fun _ => returned)
  | returned => stuck
  end.

Definition HandlePSUIDChange_from (pc : ProgramPoint) (ps_uid : PixelShaderUid)
    (ps_dst_alpha_mode : DSTALPHA_MODE) (components : u32) (xfr : XFMemory) (bpm : BPMemory)
    (on_gpu_thread : bool) : Atomic :=
  match pc with
  | at_entry => acquire at_subscript
  | at_subscript => atomically (ps_bytecode_cache_at ps_uid) at_unlock
  | at_unlock entry => release (at_assign entry)
  | at_assign entry =>
      atomically (when on_gpu_thread (modify (set_s_last_pixel_shader_bytecode (Some entry))))
                 (fun _ => at_test_and_set entry)
  | at_test_and_set entry =>
      atomically (test_and_set entry)
                 (fun initialized => if initialized then returned else at_submit entry)
  | at_submit entry =>
      atomically
        (CompileShaderAsync entry
           (pixel_unit ps_uid entry ps_dst_alpha_mode components xfr bpm))
        (fun _ => returned)
  | returned => stuck
  end.

Definition HandleVSUIDChange_from (pc : ProgramPoint) (vs_uid : VertexShaderUid)
    (components : u32) (xfr : XFMemory) (bpm : BPMemory) (on_gpu_thread : bool) : Atomic :=
  match pc with
  | at_entry => acquire at_subscript
  | at_subscript => atomically (vs_bytecode_cache_at vs_uid) at_unlock
  | at_unlock entry => release (at_assign entry)
  | at_assign entry =>
      atomically (when on_gpu_thread (modify (set_s_last_vertex_shader_bytecode (Some entry))))
                 (fun _ => at_test_and_set entry)
  | at_test_and_set entry =>
      atomically (test_and_set entry)
                 (fun initialized => if initialized then returned else at_submit entry)
  | at_submit entry =>
      atomically
        (CompileShaderAsync entry (vertex_unit vs_uid entry components xfr bpm))
        (fun _ => returned)
  | returned => stuck
  end.

(** A step of a caller. A drain, and a compiler thread that finishes a
    unit, are one step each: what they write (the bytecode and the compiled
    flag of entries, the cache files, the blob list, the statistics, the
    queues of the compiler) is read by no step of a uid-change handler. *)
Definition step_from (c : Step) (pc : ProgramPoint) : Atomic :=
  match c with
  | StepGS gs_uid gs_primitive_type components xfr on_gpu_thread =>
      HandleGSUIDChange_from pc gs_uid gs_primitive_type components xfr on_gpu_thread
  | StepPS ps_uid ps_dst_alpha_mode components xfr bpm on_gpu_thread =>
      HandlePSUIDChange_from pc ps_uid ps_dst_alpha_mode components xfr bpm on_gpu_thread
  | StepVS vs_uid components xfr bpm on_gpu_thread =>
      HandleVSUIDChange_from pc vs_uid components xfr bpm on_gpu_thread
  | StepDrain | StepWorker _ =>
      match pc with
      | at_entry => atomically (step c) (fun _ => returned)
      | _ => stuck
      end
  end.

(** The callers that run at the same time, the lock and the globals they
    share, and the events so far. *)
Record Pool : Type := mkPool {
  lock_held : bool;                         (* s_shaders_lock *)
  globals : State;
  callers : list (Step * ProgramPoint);
  history : list Event
}.

(** The scheduler lets caller [i] make one step; a caller that cannot move
    leaves the pool as it is. *)
Definition pool_step (i : nat) (P : Pool) : Pool :=
  match callers P !! i with
  | None => P
  | Some (c, pc) =>
      match step_from c pc (lock_held P) (globals P) with
      | None => P
      | Some (pc', held, s', t) =>
          mkPool held s' (<[i := (c, pc')]> (callers P)) (history P ++ t)
      end
  end.

Definition pool_run (schedule : list nat) (P : Pool) : Pool :=
  foldl (fun P i => pool_step i P) P schedule.

(** The calls [cs] are entered at the same time, with the lock free. *)
Definition pool_start (cs : list Step) (s : State) : Pool :=
  mkPool false s (map (fun c => (c, at_entry)) cs) [].

(** The schedule that runs the callers one after the other, each to its
    end: no call takes more than six steps. *)
Definition one_after_the_other (n : nat) : list nat :=
  flat_map (fun i => replicate 6 i) (seq 0 n).

(** A caller is between [lock()] and [unlock()]. *)
Definition in_critical_section (pc : ProgramPoint) : bool :=
  match pc with
  | at_subscript | at_unlock _ => true
  | _ => false
  end.

(** The entry a caller holds a pointer to. *)
Definition entry_at (pc : ProgramPoint) : option EntryPtr :=
  match pc with
  | at_unlock entry | at_assign entry | at_test_and_set entry | at_submit entry => Some entry
  | at_entry | at_subscript | returned => None
  end.

Definition all_returned (P : Pool) : Prop :=
  Forall (fun caller => snd caller = returned) (callers P).

#[global] Instance ProgramPoint_eq_dec : EqDecision ProgramPoint.
Proof. solve_decision. Defined.

(** A caller that runs alone, for at most [fuel] steps. *)
Fixpoint solo (fuel : nat) (c : Step) (pc : ProgramPoint) (held : bool) (s : State)
    : ProgramPoint * bool * State * list Event :=
  match fuel with
  | O => (pc, held, s, [])
  | S fuel' =>
      match step_from c pc held s with
      | None => (pc, held, s, [])
      | Some (pc1, held1, s1, t1) =>
          let '(pc2, held2, s2, t2) := solo fuel' c pc1 held1 s1 in
          (pc2, held2, s2, t1 ++ t2)
      end
  end.

(** A step that sets no one-shot flag and removes no element. *)
Definition flags_kept (s s' : State) : Prop :=
  (forall q, initialized q s' = initialized q s) /\
  (forall q, present q s -> present q s').

(** The steps a caller can make, with what the properties below need of
    each: the point before and after, the lock, and what the step does to
    the one-shot flags, to the elements and to the events. *)
Inductive step_shape (c : Step) :
    ProgramPoint -> bool -> State -> ProgramPoint -> bool -> State -> list Event -> Prop :=
  | shape_lock s :
      is_Some (looked_up c) ->
      step_shape c at_entry false s at_subscript true s [EvLock]
  | shape_passthrough held s s' :
      looked_up c = None -> is_handler_call c = true -> flags_kept s s' ->
      step_shape c at_entry held s returned held s' []
  | shape_subscript held s s' entry :
      looked_up c = Some entry -> flags_kept s s' -> present entry s' ->
      step_shape c at_subscript held s (at_unlock entry) held s' [EvLookup entry]
  | shape_unlock held s entry :
      is_handler_call c = true ->
      step_shape c (at_unlock entry) held s (at_assign entry) false s [EvUnlock]
  | shape_assign held s s' entry :
      is_handler_call c = true -> flags_kept s s' ->
      step_shape c (at_assign entry) held s (at_test_and_set entry) held s' []
  | shape_test_and_set held s entry :
      is_handler_call c = true ->
      step_shape c (at_test_and_set entry) held s
        (if initialized entry s then returned else at_submit entry) held
        (store entry (set_m_initialized true) s)
        [EvTestAndSet entry (initialized entry s)]
  | shape_submit held s s' entry :
      is_handler_call c = true -> flags_kept s s' ->
      step_shape c (at_submit entry) held s returned held s' [EvCompileShaderAsync entry]
  | shape_environment held s s' t :
      is_handler_call c = false -> flags_kept s s' ->
      Forall (fun e => is_cache_work e = false) t ->
      step_shape c at_entry held s returned held s' t.

(** The callers of a pool are where the code can be: a drain or a compiler
    thread has not started or has returned, and a caller that holds a pointer
    holds the one to the element of its uid, which exists. *)
Definition well_formed (P : Pool) : Prop :=
  forall i c pc, callers P !! i = Some (c, pc) ->
    (is_handler_call c = false -> pc = at_entry \/ pc = returned) /\
    (forall entry, entry_at pc = Some entry ->
       looked_up c = Some entry /\ present entry (globals P)) /\
    (pc = at_subscript -> is_Some (looked_up c)).

(** The lock is held exactly while some caller is between [lock()] and
    [unlock()], and no two callers are there at once. *)
Definition lock_discipline (P : Pool) : Prop :=
  (forall i c pc, callers P !! i = Some (c, pc) -> in_critical_section pc = true ->
     lock_held P = true) /\
  (lock_held P = true ->
     exists i c pc, callers P !! i = Some (c, pc) /\ in_critical_section pc = true) /\
  (forall i j ci pci cj pcj,
     callers P !! i = Some (ci, pci) -> callers P !! j = Some (cj, pcj) ->
     in_critical_section pci = true -> in_critical_section pcj = true -> i = j).

(** Caller [i] has found the one-shot flag of [p] clear and has not yet
    submitted the unit. *)
Definition submitting (p : EntryPtr) (P : Pool) (i : nat) : Prop :=
  exists c, callers P !! i = Some (c, at_submit p).

(** Where the entry [p] is on its way from untouched to dispatched, in a
    pool that started from the globals [s0]: its flag was set from the start;
    or it is clear and nothing has happened; or one caller has set it and is
    about to submit; or the unit has been submitted. *)
Definition dispatch_phase (p : EntryPtr) (s0 : State) (P : Pool) : Prop :=
  let dispatched := occurrences (EvCompileShaderAsync p) (history P) in
  (initialized p s0 = true /\ initialized p (globals P) = true /\ dispatched = 0 /\
   forall i, ~ submitting p P i) \/
  (initialized p s0 = false /\ initialized p (globals P) = false /\ dispatched = 0 /\
   forall i, ~ submitting p P i) \/
  (initialized p s0 = false /\ initialized p (globals P) = true /\ dispatched = 0 /\
   exists i, submitting p P i /\ forall j, submitting p P j -> j = i) \/
  (initialized p s0 = false /\ initialized p (globals P) = true /\ dispatched = 1 /\
   forall i, ~ submitting p P i).

(** A caller that has returned from a call for the entry [p] has left the
    flag of [p] set. *)
Definition returned_callers_tested (p : EntryPtr) (P : Pool) : Prop :=
  forall i c, callers P !! i = Some (c, returned) -> looked_up c = Some p ->
    initialized p (globals P) = true.

(** ** Sessions *)

(** One call of a session: an entry point of the file that the renderer
    calls between [Init] and [Shutdown], or a compiler thread that finishes a
    unit. [TestShaders] is not among them: to the state it is a sequence of
    compiler threads finishing units and of drains. *)
Inductive Call : Type :=
  | CallPrepareShaders (ps_dst_alpha_mode : DSTALPHA_MODE) (gs_primitive_type components : u32)
                       (xfr : XFMemory) (bpm : BPMemory) (on_gpu_thread : bool)
  | CallProcCompilationResults
  | CallGetGeometryShaderFromUid (uid : GeometryShaderUid)
  | CallGetPixelShaderFromUid (uid : PixelShaderUid)
  | CallGetVertexShaderFromUid (uid : VertexShaderUid)
  | CallWorker (i : nat).

Definition call (c : Call) : M unit :=
  match c with
  | CallPrepareShaders ps_dst_alpha_mode gs_primitive_type components xfr bpm on_gpu_thread =>
      PrepareShaders ps_dst_alpha_mode gs_primitive_type components xfr bpm on_gpu_thread
  | CallProcCompilationResults => ProcCompilationResults
  | CallGetGeometryShaderFromUid uid => _ <- GetGeometryShaderFromUid uid ;; ret tt
  | CallGetPixelShaderFromUid uid => _ <- GetPixelShaderFromUid uid ;; ret tt
  | CallGetVertexShaderFromUid uid => _ <- GetVertexShaderFromUid uid ;; ret tt
  | CallWorker i => modify (worker_finish i)
  end.

Definition session (cs : list Call) : M unit := for_each cs call.

(** A call of [PrepareShaders] made by the submission context. *)
Definition on_submission_context (c : Call) : bool :=
  match c with
  | CallPrepareShaders _ _ _ _ _ on_gpu_thread => on_gpu_thread
  | _ => false
  end.

(** The submission context has not drawn yet: its memo slots hold the
    value-initialised uids, its pixel and its vertex pointer are null, and
    its geometry pointer is null or bound to the passthrough entry. *)
Definition undrawn (s : State) : Prop :=
  s_last_geometry_shader_uid s = GeometryShaderUid_zero /\
  s_last_pixel_shader_uid s = PixelShaderUid_zero /\
  s_last_vertex_shader_uid s = VertexShaderUid_zero /\
  s_last_pixel_shader_bytecode s = None /\
  s_last_vertex_shader_bytecode s = None /\
  (s_last_geometry_shader_bytecode s = None \/
   s_last_geometry_shader_bytecode s = Some addr_s_pass_entry).

(** No entry regresses from [s] to [s']: the elements stay in their caches,
    and a one-shot flag or a compiled flag that is set stays set. *)
Definition grown (s s' : State) : Prop :=
  (forall q, present q s -> present q s') /\
  (forall q, initialized q s = true -> initialized q s' = true) /\
  (forall q, compiled q s = true -> compiled q s' = true).

Definition grows {A : Type} (m : M A) : Prop := forall s, grown s (exec m s).

(** The active pointers agree with the active uids: the pixel and the
    vertex pointer, when bound, point at the element of the active uid of
    their stage; the geometry pointer, when bound, points at the passthrough
    entry or at an element of the geometry cache; and the one-shot flag of
    every bound entry is set. *)
Definition bindings_coherent (s : State) : Prop :=
  (forall p, s_last_geometry_shader_bytecode s = Some p ->
     (p = addr_s_pass_entry \/ exists uid, p = addr_gs uid) /\ initialized p s = true) /\
  (forall p, s_last_pixel_shader_bytecode s = Some p ->
     p = addr_ps (s_last_pixel_shader_uid s) /\ initialized p s = true) /\
  (forall p, s_last_vertex_shader_bytecode s = Some p ->
     p = addr_vs (s_last_vertex_shader_uid s) /\ initialized p s = true).

(** The state after [n] iterations of the loop of [TestShaders], the first
    of them being iteration [count]: before each drain the compiler threads
    finish the units the schedule names. *)
Fixpoint rounds (finished : nat -> list nat) (count n : nat) (s : State) : State :=
  match n with
  | O => s
  | S n' =>
      rounds finished (S count) n'
        (exec ProcCompilationResults (workers_finish (finished count) s))
  end.

End ShaderCache.

(** ** An instance to run the code on *)

(** Uids are numbers. The geometry uid is the primitive type plus one, and
    the uid of triangles, 3, is the passthrough one; the pixel uid is [bpm]
    and the vertex uid is [xfr], so that each uid can be changed alone. The
    compiler rejects the source text ["#error"], which the generators produce
    for [components = 0]. *)
Definition demo_source (stage : string) (components : u32) : string :=
  if bool_decide (components = 0%N) then "#error" else stage.

Definition demo_compile (source entry : string) (flags : Z) (target : string) : CompileOutput :=
  if bool_decide (source = "#error") then CompileFailed "error X1507"
  else CompileSucceeded [x44; x58; x42; x43].

Definition demo : VideoCommon :=
  {| GeometryShaderUid := N;
     PixelShaderUid := N;
     VertexShaderUid := N;
     GeometryShaderUid_zero := 0%N;
     PixelShaderUid_zero := 0%N;
     VertexShaderUid_zero := 0%N;
     IsPassthrough := fun uid => bool_decide (uid = 3%N);
     XFMemory := N;
     BPMemory := N;
     DSTALPHA_MODE := N;
     API_TYPE := unit;
     API_D3D11 := tt;
     PRIMITIVE_POINTS := 0%N;
     PRIMITIVE_LINES := 1%N;
     PRIMITIVE_TRIANGLES := 2%N;
     GEOMETRYSHADERGEN_BUFFERSIZE := 32768%N;
     PIXELSHADERGEN_BUFFERSIZE := 32768%N;
     VERTEXSHADERGEN_BUFFERSIZE := 32768%N;
     GetGeometryShaderUid := fun gs_primitive_type _ _ _ => (gs_primitive_type + 1)%N;
     GetPixelShaderUidD3D11 := fun _ _ _ bpm => bpm;
     GetVertexShaderUidD3D11 := fun _ xfr _ => xfr;
     GenerateGeometryShaderCode := fun _ _ _ components => demo_source "gs" components;
     GeneratePixelShaderCodeD3D11 := fun _ components _ _ => demo_source "ps" components;
     GenerateVertexShaderCodeD3D11 := fun components _ _ => demo_source "vs" components;
     GeometryShaderVersionString := "gs_5_0";
     PixelShaderVersionString := "ps_5_0";
     VertexShaderVersionString := "vs_5_0";
     D_DUMP_IDX := "Dump/";
     DEBUG_BUILD := false;
     D3DCompile := demo_compile |}.

(** The globals as the program starts: zero-initialised statics, default
    constructed containers, no cache file. *)
Definition demo_start (debugging full_async : bool) : @State demo :=
  @mkState demo
    D3D12_PRIMITIVE_TOPOLOGY_TYPE_TRIANGLE     (* s_current_primitive_topology *)
    ByteCodeCacheEntry_ctor                    (* s_pass_entry *)
    ∅ ∅ ∅                                      (* the three bytecode caches *)
    []                                         (* s_shader_blob_list *)
    [] [] []                                   (* the three cache files *)
    None None None                             (* s_last_*_shader_bytecode *)
    0%N 0%N 0%N                                (* s_last_*_shader_uid *)
    0%N 0%N 0%N                                (* s_last_cpu_*_shader_uid *)
    (mkCompiler [] [])                         (* s_compiler *)
    false                                      (* m_dirty_pso *)
    (mkStats 0 0 0 0 0 0)
    0%N 0%N 0%N                                (* num_failures *)
    ∅                                          (* dump_files *)
    []                                         (* alerts *)
    (mkConfig debugging full_async)            (* g_Config *)
    (mkConfig debugging full_async).           (* g_ActiveConfig *)

(** A session that finds a geometry cache file with one record, written by
    an earlier session, and has shader debugging enabled. *)
Definition demo_cached : @State demo :=
  @set_s_gs_disk_cache demo [(1%N, [x01; x02])] (demo_start true false).

(** The first draw of a session, on the submission context: lines (geometry
    uid 2), pixel uid 6, vertex uid 5. *)
Definition demo_drawn (full_async : bool) : @State demo :=
  exec (@PrepareShaders demo 0%N 1%N 3%N 5%N 6%N true) (exec Init (demo_start false full_async)).

(** The same session once the compiler threads have finished the three
    units and the completions have been drained. *)
Definition demo_ready (full_async : bool) : @State demo :=
  exec ProcCompilationResults (workers_finish [0; 0; 0] (demo_drawn full_async)).

(** A session whose first vertex shader does not compile: the handler is
    called for vertex uid 5 with a source the compiler rejects, a compiler
    thread finishes the unit, and the completions are drained. *)
Definition demo_failed_vertex : @State demo :=
  exec ProcCompilationResults
    (worker_finish 0
       (exec (@HandleVSUIDChange demo 5%N 0%N 5%N 6%N true) (exec Init (demo_start false false)))).

Definition demo_failed_geometry : @State demo :=
  exec ProcCompilationResults
    (worker_finish 0
       (exec (@HandleGSUIDChange demo 1%N 1%N 0%N 5%N true) (exec Init (demo_start false false)))).

(** A session whose first draw does not compile: the submission context
    prepares a draw whose three sources the compiler rejects, the compiler
    threads finish the three units, and the completions are drained. *)
Definition demo_failed_draw : @State demo :=
  exec ProcCompilationResults
    (workers_finish [0; 0; 0]
       (exec (@PrepareShaders demo 0%N 1%N 0%N 5%N 6%N true)
          (exec Init (demo_start false false)))).

End DX12.
(* ===================================================================== *)
(** * Properties of DiscIO/Filesystem.cpp                                 *)
(* ===================================================================== *)

Import DiscIO.
Import DX12.

Section FilesystemProperties.
Context {IVolume GCWiiState : Type}.
Variable ctor : IVolume -> GCWiiState.
Variable valid : GCWiiState -> bool.

Lemma make_unique_not_null (v : IVolume) :
  exists fs, make_unique_CFileSystemGCWii ctor v = Some fs /\ m_rVolume fs = Some v.
Proof. eexists; split; reflexivity. Qed.

Lemma CreateFileSystem_unfold (volume : option IVolume) :
  CreateFileSystem ctor valid volume =
  v ← volume; fs ← make_unique_CFileSystemGCWii ctor v;
  if IsValid valid fs then Some fs else None.
Proof.
  destruct volume as [v|]; [|reflexivity].
  unfold CreateFileSystem; cbn.
  destruct (IsValid valid _); reflexivity.
Qed.

(** C10. [CreateFileSystem volume] is null exactly when [volume] is null or
    the filesystem constructed over it reports itself invalid through
    [IsValid]; a result that is not null is the filesystem constructed over
    the volume, it keeps the volume, and it is valid. *)
Theorem CreateFileSystem_null_iff_no_volume_or_invalid (volume : option IVolume) :
  (CreateFileSystem ctor valid volume = None <->
     volume = None \/
     exists v fs, volume = Some v /\ make_unique_CFileSystemGCWii ctor v = Some fs /\
                  IsValid valid fs = false) /\
  (forall filesystem, CreateFileSystem ctor valid volume = Some filesystem ->
     IsValid valid filesystem = true /\
     exists v, volume = Some v /\ make_unique_CFileSystemGCWii ctor v = Some filesystem /\
               m_rVolume filesystem = Some v).
Proof.
  rewrite CreateFileSystem_unfold.
  destruct volume as [v|]; [|split; [split; auto | discriminate]].
  destruct (make_unique_not_null v) as (fs & Hmk & Hvol).
  change (Some v ≫= _) with
    (fs' ← make_unique_CFileSystemGCWii ctor v; if IsValid valid fs' then Some fs' else None).
  rewrite Hmk; cbn [mbind option_bind].
  destruct (IsValid valid fs) eqn:Hvalid; split.
  - split; [discriminate|].
    intros [Hnull | (v' & fs' & Hv & Hmk' & Hinv)]; [discriminate|].
    injection Hv as <-. congruence.
  - intros filesystem [= <-]. split; [assumption|]. exists v. auto.
  - split; [|reflexivity]. intros _. right. exists v, fs. auto.
  - discriminate.
Qed.

End FilesystemProperties.

(* ===================================================================== *)
(** * Properties of VideoBackends/D3D12/ShaderCache.cpp                   *)
(* ===================================================================== *)

Section ShaderCacheProperties.
Context `{VideoCommon}.

(** ** Runs of monadic code *)

Lemma exec_bind {A B : Type} (m : M A) (k : A -> M B) (s : State) :
  exec (bind m k) s = exec (k (result m s)) (exec m s).
Proof.
  unfold exec, result, bind. destruct (m s) as [[a s1] t1]; cbn.
  destruct (k a s1) as [[b s2] t2]; reflexivity.
Qed.

Lemma events_bind {A B : Type} (m : M A) (k : A -> M B) (s : State) :
  events (bind m k) s = events m s ++ events (k (result m s)) (exec m s).
Proof.
  unfold events, exec, result, bind. destruct (m s) as [[a s1] t1]; cbn.
  destruct (k a s1) as [[b s2] t2]; reflexivity.
Qed.

Lemma result_bind {A B : Type} (m : M A) (k : A -> M B) (s : State) :
  result (bind m k) s = result (k (result m s)) (exec m s).
Proof.
  unfold exec, result, bind. destruct (m s) as [[a s1] t1]; cbn.
  destruct (k a s1) as [[b s2] t2]; reflexivity.
Qed.

Lemma run_eta {A : Type} (m : M A) (s : State) :
  m s = (result m s, exec m s, events m s).
Proof. unfold result, exec, events. destruct (m s) as [[a s1] t1]; reflexivity. Qed.

Lemma exec_for_each_cons {A : Type} (x : A) (l : list A) (body : A -> M unit) (s : State) :
  exec (for_each (x :: l) body) s = exec (for_each l body) (exec (body x) s).
Proof. cbn [for_each]. apply exec_bind. Qed.

Lemma events_for_each_cons {A : Type} (x : A) (l : list A) (body : A -> M unit) (s : State) :
  events (for_each (x :: l) body) s =
  events (body x) s ++ events (for_each l body) (exec (body x) s).
Proof. cbn [for_each]. apply events_bind. Qed.

Lemma exec_for_each_app {A : Type} (l1 l2 : list A) (body : A -> M unit) (s : State) :
  exec (for_each (l1 ++ l2) body) s = exec (for_each l2 body) (exec (for_each l1 body) s).
Proof.
  revert s; induction l1 as [|x l1 IH]; intros s; [reflexivity|].
  rewrite <- app_comm_cons, !exec_for_each_cons. apply IH.
Qed.

Lemma events_for_each_app {A : Type} (l1 l2 : list A) (body : A -> M unit) (s : State) :
  events (for_each (l1 ++ l2) body) s =
  events (for_each l1 body) s ++ events (for_each l2 body) (exec (for_each l1 body) s).
Proof.
  revert s; induction l1 as [|x l1 IH]; intros s; [reflexivity|].
  rewrite <- app_comm_cons, !events_for_each_cons, exec_for_each_cons, IH.
  apply app_assoc.
Qed.

(** ** The subscript of a cache *)

Lemma subscript_lookup `{Countable K} (uid : K) (cache : gmap K ByteCodeCacheEntry) :
  subscript uid cache !! uid = Some (default ByteCodeCacheEntry_ctor (cache !! uid)).
Proof.
  unfold subscript. destruct (cache !! uid) as [e|] eqn:E; cbn; [assumption|].
  apply lookup_insert_eq.
Qed.

Lemma subscript_lookup_ne `{Countable K} (uid uid' : K) (cache : gmap K ByteCodeCacheEntry) :
  uid ≠ uid' -> subscript uid cache !! uid' = cache !! uid'.
Proof.
  intros Hne. unfold subscript. destruct (cache !! uid); [reflexivity|].
  apply lookup_insert_ne, Hne.
Qed.

Lemma subscript_absent `{Countable K} (uid : K) (cache : gmap K ByteCodeCacheEntry) :
  cache !! uid = None -> subscript uid cache = <[uid := ByteCodeCacheEntry_ctor]> cache.
Proof. intros E. unfold subscript. rewrite E. reflexivity. Qed.

Lemma subscript_present `{Countable K} (uid : K) (cache : gmap K ByteCodeCacheEntry) :
  is_Some (cache !! uid) -> subscript uid cache = cache.
Proof. intros [e E]. unfold subscript. rewrite E. reflexivity. Qed.

(** ** C9: the by-uid accessors *)

(** C9. For a uid that is in none of the three caches, each by-uid accessor
    returns the zero bytecode and leaves in its cache a fresh entry for the
    uid: not compiled, one-shot flag clear, zero bytecode. The cache has
    changed, and nothing else of the state has. *)
Theorem GetShaderFromUid_inserts_default_entry
    (gs_uid : GeometryShaderUid) (ps_uid : PixelShaderUid) (vs_uid : VertexShaderUid)
    (s : State) :
  let fresh := {| m_shader_bytecode := zero_bytecode; m_compiled := false;
                  m_initialized := false; code := "" |} in
  (gs_bytecode_cache s !! gs_uid = None ->
     GetGeometryShaderFromUid gs_uid s =
       (zero_bytecode, set_gs_bytecode_cache (<[gs_uid := fresh]> (gs_bytecode_cache s)) s,
        [EvLookup (addr_gs gs_uid)]) /\
     gs_bytecode_cache (exec (GetGeometryShaderFromUid gs_uid) s) !! gs_uid = Some fresh /\
     gs_bytecode_cache (exec (GetGeometryShaderFromUid gs_uid) s) ≠ gs_bytecode_cache s) /\
  (ps_bytecode_cache s !! ps_uid = None ->
     GetPixelShaderFromUid ps_uid s =
       (zero_bytecode, set_ps_bytecode_cache (<[ps_uid := fresh]> (ps_bytecode_cache s)) s,
        [EvLookup (addr_ps ps_uid)]) /\
     ps_bytecode_cache (exec (GetPixelShaderFromUid ps_uid) s) !! ps_uid = Some fresh /\
     ps_bytecode_cache (exec (GetPixelShaderFromUid ps_uid) s) ≠ ps_bytecode_cache s) /\
  (vs_bytecode_cache s !! vs_uid = None ->
     GetVertexShaderFromUid vs_uid s =
       (zero_bytecode, set_vs_bytecode_cache (<[vs_uid := fresh]> (vs_bytecode_cache s)) s,
        [EvLookup (addr_vs vs_uid)]) /\
     vs_bytecode_cache (exec (GetVertexShaderFromUid vs_uid) s) !! vs_uid = Some fresh /\
     vs_bytecode_cache (exec (GetVertexShaderFromUid vs_uid) s) ≠ vs_bytecode_cache s).
Proof.
  intros fresh.
  assert (Hne : forall `{Countable K} (u : K) (m : gmap K ByteCodeCacheEntry),
            m !! u = None -> <[u := fresh]> m ≠ m).
  { intros K ? ? u m E Heq. rewrite <- Heq, lookup_insert_eq in E. discriminate. }
  repeat split.
  all: unfold GetGeometryShaderFromUid, GetPixelShaderFromUid, GetVertexShaderFromUid,
         gs_bytecode_cache_at, ps_bytecode_cache_at, vs_bytecode_cache_at,
         exec, bind, modify, emit, gets, ret; cbn.
  all: rewrite ?subscript_absent by assumption.
  all: rewrite ?lookup_insert_eq; cbn; try reflexivity.
  all: apply Hne; assumption.
Qed.

(** ** What a drain leaves alone *)

Lemma control_preserved_refl (s : State) : control_preserved s s.
Proof. unfold control_preserved. repeat split. Qed.

Lemma control_preserved_trans (s1 s2 s3 : State) :
  control_preserved s1 s2 -> control_preserved s2 s3 -> control_preserved s1 s3.
Proof.
  unfold control_preserved. intros H12 H23.
  repeat match goal with H : _ /\ _ |- _ => destruct H as [? ?] end.
  repeat split; try (etransitivity; eassumption).
  intros p. etransitivity; eauto.
Qed.

Lemma initialized_store (p q : EntryPtr) (f : ByteCodeCacheEntry -> ByteCodeCacheEntry)
    (s : State) :
  (forall e, m_initialized (f e) = m_initialized e) ->
  initialized q (store p f s) = initialized q s.
Proof.
  intros Hf. unfold initialized.
  destruct p, q; cbn; try reflexivity; try apply Hf.
  all: rewrite lookup_alter; case_decide; [|reflexivity].
  all: subst; match goal with |- context [?m !! ?u] => destruct (m !! u) end; cbn;
         [apply Hf | reflexivity].
Qed.

Lemma control_preserved_store (p : EntryPtr) (f : ByteCodeCacheEntry -> ByteCodeCacheEntry)
    (s : State) :
  (forall e, m_initialized (f e) = m_initialized e) ->
  control_preserved s (store p f s).
Proof.
  intros Hf. unfold control_preserved.
  repeat match goal with |- _ /\ _ => split end.
  16: intros q; apply initialized_store, Hf.
  all: destruct p; cbn; try reflexivity; apply dom_alter_L.
Qed.


Lemma quiet_ret {A : Type} (a : A) : quiet (ret a).
Proof.
  intros s. split; [apply control_preserved_refl | split; [constructor | reflexivity]].
Qed.

Lemma quiet_gets {A : Type} (f : State -> A) : quiet (gets f).
Proof.
  intros s. split; [apply control_preserved_refl | split; [constructor | reflexivity]].
Qed.

Lemma quiet_modify (f : State -> State) :
  (forall s, control_preserved s (f s)) ->
  (forall s, in_flight (s_compiler (f s)) = in_flight (s_compiler s)) ->
  quiet (modify f).
Proof. intros Hf Hq s. split; [apply Hf | split; [constructor | apply Hq]]. Qed.

Lemma quiet_emit (e : Event) : is_cache_work e = false -> quiet (emit e).
Proof.
  intros He s. split; [apply control_preserved_refl | split; [|reflexivity]].
  constructor; [assumption | constructor].
Qed.

Lemma quiet_bind {A B : Type} (m : M A) (k : A -> M B) :
  quiet m -> (forall a, quiet (k a)) -> quiet (bind m k).
Proof.
  intros Hm Hk s. rewrite exec_bind, events_bind.
  destruct (Hm s) as (Hm1 & Hm2 & Hm3).
  destruct (Hk (result m s) (exec m s)) as (Hk1 & Hk2 & Hk3).
  split; [eapply control_preserved_trans; eassumption | split].
  - apply Forall_app; auto.
  - congruence.
Qed.

Lemma quiet_when (b : bool) (m : M unit) : quiet m -> quiet (when b m).
Proof. destruct b; [auto | intros _; apply quiet_ret]. Qed.

Lemma quiet_for_each {A : Type} (l : list A) (body : A -> M unit) :
  (forall x, quiet (body x)) -> quiet (for_each l body).
Proof.
  intros Hbody. induction l as [|x l IH]; cbn [for_each]; [apply quiet_ret|].
  apply quiet_bind; auto.
Qed.

Ltac quiet_step :=
  lazymatch goal with
  | |- quiet (bind _ _) => apply quiet_bind; [|intros ?]
  | |- quiet (ret _) => apply quiet_ret
  | |- quiet (gets _) => apply quiet_gets
  | |- quiet (emit _) => apply quiet_emit; reflexivity
  | |- quiet (when _ _) => apply quiet_when
  | |- quiet (for_each _ _) => apply quiet_for_each; intros ?
  | |- quiet (modify (store ?p _)) =>
      apply quiet_modify; intros ?;
        [apply control_preserved_store; intros ?; reflexivity | destruct p; reflexivity]
  | |- quiet (modify _) =>
      apply quiet_modify; intros ?; [unfold control_preserved; repeat split | reflexivity]
  end.

Lemma quiet_PanicAlert (format : string) (args : list VarArg) : quiet (PanicAlert format args).
Proof. unfold PanicAlert. repeat quiet_step. Qed.

Lemma quiet_write_file (filename contents : string) : quiet (write_file filename contents).
Proof. unfold write_file. repeat quiet_step. Qed.

Lemma quiet_PushByteCode (entry : EntryPtr) (shaderBuffer : D3DBlob) :
  quiet (PushByteCode entry shaderBuffer).
Proof. unfold PushByteCode. repeat quiet_step. Qed.

Lemma quiet_call_ResultHandler (done : ShaderCompilerWorkUnit * CompileOutput) :
  quiet (call_ResultHandler done).
Proof.
  destruct done as [wunit out]. unfold call_ResultHandler.
  destruct (ResultHandler wunit) as [[uid entry|uid entry|uid entry]|]; [| | |apply quiet_ret].
  all: unfold HandleGSUIDChange_ResultHandler, HandlePSUIDChange_ResultHandler,
         HandleVSUIDChange_ResultHandler, s_gs_disk_cache_Append, s_ps_disk_cache_Append,
         s_vs_disk_cache_Append; destruct out.
  all: repeat lazymatch goal with
              | |- quiet (PushByteCode _ _) => apply quiet_PushByteCode
              | |- quiet (PanicAlert _ _) => apply quiet_PanicAlert
              | |- quiet (write_file _ _) => apply quiet_write_file
              | |- _ => quiet_step
              end.
Qed.

Lemma quiet_ProcCompilationResults : quiet ProcCompilationResults.
Proof.
  unfold ProcCompilationResults.
  repeat lazymatch goal with
         | |- quiet (call_ResultHandler _) => apply quiet_call_ResultHandler
         | |- _ => quiet_step
         end.
Qed.

Lemma quiet_SetCurrentPrimitiveTopology (gs_primitive_type : u32) :
  quiet (SetCurrentPrimitiveTopology gs_primitive_type).
Proof.
  unfold SetCurrentPrimitiveTopology.
  repeat case_bool_decide;
    repeat lazymatch goal with
           | |- quiet (PanicAlert _ _) => apply quiet_PanicAlert
           | |- _ => quiet_step
           end.
Qed.

Lemma control_preserved_worker_finish (i : nat) (s : State) :
  control_preserved s (worker_finish i s).
Proof.
  unfold worker_finish. destruct (in_flight (s_compiler s) !! i).
  - unfold control_preserved; repeat split.
  - apply control_preserved_refl.
Qed.

Lemma control_preserved_workers_finish (done : list nat) (s : State) :
  control_preserved s (workers_finish done s).
Proof.
  unfold workers_finish. revert s.
  induction done as [|i done IH]; intros s; cbn; [apply control_preserved_refl|].
  eapply control_preserved_trans; [apply control_preserved_worker_finish | apply IH].
Qed.

(** ** The three uid-change handlers *)

Ltac unfold_handlers :=
  unfold HandleGSUIDChange, HandlePSUIDChange, HandleVSUIDChange,
    gs_bytecode_cache_at, ps_bytecode_cache_at, vs_bytecode_cache_at,
    test_and_set, CompileShaderAsync, lock, unlock, when,
    exec, events, result, bind, modify, emit, gets, ret.

Lemma lookup_tested `{Countable K} (uid uid' : K) (cache : gmap K ByteCodeCacheEntry) :
  alter (set_m_initialized true) uid (subscript uid cache) !! uid' =
  if decide (uid = uid')
  then Some (set_m_initialized true (default ByteCodeCacheEntry_ctor (cache !! uid)))
  else cache !! uid'.
Proof.
  rewrite lookup_alter. case_decide as Huid.
  - subst. rewrite subscript_lookup. reflexivity.
  - apply subscript_lookup_ne, Huid.
Qed.

Lemma lookup_tested_fmap `{Countable K} {B : Type} (g : ByteCodeCacheEntry -> B)
    (uid uid' : K) (cache : gmap K ByteCodeCacheEntry) :
  (forall e, g (set_m_initialized true e) = g e) ->
  g (default ByteCodeCacheEntry_ctor
       (alter (set_m_initialized true) uid (subscript uid cache) !! uid')) =
  g (default ByteCodeCacheEntry_ctor (cache !! uid')).
Proof.
  intros Hg. rewrite lookup_tested. case_decide; [subst; cbn; apply Hg | reflexivity].
Qed.

Ltac handler_cases on_gpu_thread :=
  unfold_handlers; destruct on_gpu_thread; cbn;
  match goal with
  | |- context [m_initialized (default ByteCodeCacheEntry_ctor (subscript ?u ?m !! ?u))] =>
      destruct (m_initialized (default ByteCodeCacheEntry_ctor (subscript u m !! u))) eqn:?;
      cbn
  end.

Lemma HandleGSUIDChange_passthrough (gs_uid : GeometryShaderUid)
    (gs_primitive_type components : u32) (xfr : XFMemory) (on_gpu_thread : bool) (s : State) :
  IsPassthrough gs_uid = true ->
  HandleGSUIDChange gs_uid gs_primitive_type components xfr on_gpu_thread s =
  (tt, set_s_last_geometry_shader_bytecode (Some addr_s_pass_entry) s, []).
Proof. intros Hpass. unfold HandleGSUIDChange. rewrite Hpass. reflexivity. Qed.

Lemma HandleGSUIDChange_events (gs_uid : GeometryShaderUid)
    (gs_primitive_type components : u32) (xfr : XFMemory) (on_gpu_thread : bool) (s : State) :
  events (HandleGSUIDChange gs_uid gs_primitive_type components xfr on_gpu_thread) s =
  if IsPassthrough gs_uid then []
  else handler_events (addr_gs gs_uid) (initialized (addr_gs gs_uid) s).
Proof.
  destruct (IsPassthrough gs_uid) eqn:Hpass.
  - unfold events. rewrite HandleGSUIDChange_passthrough by assumption. reflexivity.
  - unfold HandleGSUIDChange. rewrite Hpass.
    unfold initialized, handler_events, load.
    handler_cases on_gpu_thread; rewrite subscript_lookup in *; cbn in *.
    all: match goal with E : m_initialized _ = _ |- _ => rewrite E end; reflexivity.
Qed.

Lemma HandlePSUIDChange_events (ps_uid : PixelShaderUid) (ps_dst_alpha_mode : DSTALPHA_MODE)
    (components : u32) (xfr : XFMemory) (bpm : BPMemory) (on_gpu_thread : bool) (s : State) :
  events (HandlePSUIDChange ps_uid ps_dst_alpha_mode components xfr bpm on_gpu_thread) s =
  handler_events (addr_ps ps_uid) (initialized (addr_ps ps_uid) s).
Proof.
  unfold initialized, handler_events, load.
  handler_cases on_gpu_thread; rewrite subscript_lookup in *; cbn in *.
  all: match goal with E : m_initialized _ = _ |- _ => rewrite E end; reflexivity.
Qed.

Lemma HandleVSUIDChange_events (vs_uid : VertexShaderUid) (components : u32)
    (xfr : XFMemory) (bpm : BPMemory) (on_gpu_thread : bool) (s : State) :
  events (HandleVSUIDChange vs_uid components xfr bpm on_gpu_thread) s =
  handler_events (addr_vs vs_uid) (initialized (addr_vs vs_uid) s).
Proof.
  unfold initialized, handler_events, load.
  handler_cases on_gpu_thread; rewrite subscript_lookup in *; cbn in *.
  all: match goal with E : m_initialized _ = _ |- _ => rewrite E end; reflexivity.
Qed.

(** After a handler call the one-shot flag of the entry it reached is set,
    and every other one-shot flag is as before. *)
Lemma initialized_after_step (c : Step) (q : EntryPtr) (s : State) :
  initialized q (exec (step c) s) =
  if decide (looked_up c = Some q) then true else initialized q s.
Proof.
  destruct c as [u a b x thr|u a b x y thr|u b x y thr| |i]; cbn [step looked_up].
  - destruct (IsPassthrough u) eqn:Hpass.
    + unfold exec. rewrite HandleGSUIDChange_passthrough by assumption.
      case_decide; [discriminate|]. destruct q; reflexivity.
    + unfold HandleGSUIDChange. rewrite Hpass. unfold initialized.
      handler_cases thr; destruct q; cbn; rewrite ?lookup_tested;
        repeat case_decide; simplify_eq; try reflexivity.
  - unfold initialized.
    handler_cases thr; destruct q; cbn; rewrite ?lookup_tested;
      repeat case_decide; simplify_eq; try reflexivity.
  - unfold initialized.
    handler_cases thr; destruct q; cbn; rewrite ?lookup_tested;
      repeat case_decide; simplify_eq; try reflexivity.
  - case_decide; [discriminate|].
    apply (quiet_ProcCompilationResults s).
  - case_decide; [discriminate|].
    apply (control_preserved_worker_finish i s).
Qed.

(** ** C2: the one-shot flag and the single dispatch *)

Lemma occurrences_app (e : Event) (t1 t2 : list Event) :
  occurrences e (t1 ++ t2) = occurrences e t1 + occurrences e t2.
Proof. unfold occurrences. rewrite filter_app, length_app. reflexivity. Qed.

Lemma occurrences_quiet (e : Event) (t : list Event) :
  Forall (fun e' => is_cache_work e' = false) t -> is_cache_work e = true ->
  occurrences e t = 0.
Proof.
  intros Ht He. unfold occurrences.
  induction Ht as [|e' t He' Ht IH]; [reflexivity|].
  rewrite filter_cons. case_decide; [congruence | exact IH].
Qed.

Lemma occurrences_nil (e : Event) : occurrences e [] = 0.
Proof. reflexivity. Qed.

Lemma occurrences_cons (e x : Event) (t : list Event) :
  occurrences e (x :: t) = (if decide (x = e) then 1 else 0) + occurrences e t.
Proof. unfold occurrences. rewrite filter_cons. case_decide; reflexivity. Qed.

Lemma occurrences_handler_events (p q : EntryPtr) (previous b : bool) :
  occurrences (EvTestAndSet q b) (handler_events p previous) =
    (if decide (p = q) then if decide (previous = b) then 1 else 0 else 0) /\
  occurrences (EvCompileShaderAsync q) (handler_events p previous) =
    (if decide (p = q) then if previous then 0 else 1 else 0).
Proof.
  unfold handler_events. rewrite !occurrences_app, !occurrences_cons, !occurrences_nil.
  rewrite !(decide_False (P := EvLock = _)) by discriminate.
  rewrite !(decide_False (P := EvLookup _ = _)) by discriminate.
  rewrite !(decide_False (P := EvUnlock = _)) by discriminate.
  rewrite !(decide_False (P := EvTestAndSet _ _ = EvCompileShaderAsync _)) by discriminate.
  split.
  - destruct previous; rewrite ?occurrences_cons, ?occurrences_nil;
      rewrite ?(decide_False (P := EvCompileShaderAsync _ = _)) by discriminate;
      repeat case_decide; simplify_eq; reflexivity.
  - destruct previous; rewrite ?occurrences_cons, ?occurrences_nil;
      repeat case_decide; simplify_eq; reflexivity.
Qed.

(** The events of one step, as far as the test of a one-shot flag and the
    dispatch of a compile are concerned. *)
Lemma events_step (c : Step) (s : State) :
  events (step c) s =
    match looked_up c with
    | Some p => handler_events p (initialized p s)
    | None => events (step c) s
    end /\
  (looked_up c = None -> Forall (fun e => is_cache_work e = false) (events (step c) s)).
Proof.
  destruct c as [u a b x thr|u a b x y thr|u b x y thr| |i]; cbn [step looked_up].
  - rewrite HandleGSUIDChange_events. destruct (IsPassthrough u); split; auto.
    discriminate.
  - rewrite HandlePSUIDChange_events. split; [reflexivity | discriminate].
  - rewrite HandleVSUIDChange_events. split; [reflexivity | discriminate].
  - split; [reflexivity|]. intros _. apply (quiet_ProcCompilationResults s).
  - split; [reflexivity|]. intros _. constructor.
Qed.

Lemma occurrences_step (c : Step) (q : EntryPtr) (b : bool) (s : State) :
  occurrences (EvTestAndSet q b) (events (step c) s) =
    (if decide (looked_up c = Some q)
     then if decide (initialized q s = b) then 1 else 0 else 0) /\
  occurrences (EvCompileShaderAsync q) (events (step c) s) =
    (if decide (looked_up c = Some q) then if initialized q s then 0 else 1 else 0).
Proof.
  destruct (events_step c s) as [Hev Hquiet].
  destruct (looked_up c) as [p|] eqn:Hp.
  - rewrite Hev.
    destruct (occurrences_handler_events p q (initialized p s) b) as [-> ->].
    repeat case_decide; simplify_eq; split; reflexivity.
  - rewrite !occurrences_quiet by auto. case_decide; [discriminate|]. split; reflexivity.
Qed.

Lemma exec_steps_cons (c : Step) (cs : list Step) (s : State) :
  exec (steps (c :: cs)) s = exec (steps cs) (exec (step c) s).
Proof. apply exec_for_each_cons. Qed.

Lemma events_steps_cons (c : Step) (cs : list Step) (s : State) :
  events (steps (c :: cs)) s = events (step c) s ++ events (steps cs) (exec (step c) s).
Proof. apply events_for_each_cons. Qed.

(** The one-shot flag is never cleared. *)
Lemma initialized_steps_mono (cs : list Step) (p : EntryPtr) (s : State) :
  initialized p s = true -> initialized p (exec (steps cs) s) = true.
Proof.
  revert s. induction cs as [|c cs IH]; intros s Hp; [exact Hp|].
  rewrite exec_steps_cons. apply IH.
  rewrite initialized_after_step. case_decide; auto.
Qed.

(** From a state on, the test of the flag of [p] returns false at most once,
    and never when the flag is set. *)
Lemma first_test_bound (cs : list Step) (p : EntryPtr) (s : State) :
  occurrences (EvTestAndSet p false) (events (steps cs) s) <=
  (if initialized p s then 0 else 1).
Proof.
  revert s. induction cs as [|c cs IH]; intros s.
  - cbn. destruct (initialized p s); lia.
  - rewrite events_steps_cons, occurrences_app.
    destruct (occurrences_step c p false s) as [-> _].
    specialize (IH (exec (step c) s)). rewrite initialized_after_step in IH.
    repeat case_decide; destruct (initialized p s); simplify_eq; lia.
Qed.

Lemma dispatches_are_first_tests (cs : list Step) (p : EntryPtr) (s : State) :
  occurrences (EvCompileShaderAsync p) (events (steps cs) s) =
  occurrences (EvTestAndSet p false) (events (steps cs) s).
Proof.
  revert s. induction cs as [|c cs IH]; intros s; [reflexivity|].
  rewrite events_steps_cons, !occurrences_app, IH. f_equal.
  destruct (occurrences_step c p false s) as [-> ->].
  repeat case_decide; destruct (initialized p s); simplify_eq; reflexivity.
Qed.

(** C2. Along any sequence of handler calls (drains and compiler threads may
    come between them), for every entry: the one-shot flag, once set, stays
    set, so it goes from false to true at most once; the test-and-set of a
    call returns the value the flag had before the call; a call submits a
    compile exactly when its test-and-set returned false; and at most one
    compile is submitted for the entry in the whole sequence. *)
Theorem one_shot_flag_single_dispatch (cs : list Step) (p : EntryPtr) (s : State) :
  (forall before after, cs = before ++ after ->
     initialized p (exec (steps before) s) = true ->
     initialized p (exec (steps cs) s) = true) /\
  occurrences (EvTestAndSet p false) (events (steps cs) s) <= 1 /\
  (forall c s0 previous,
     EvTestAndSet p previous ∈ events (step c) s0 -> previous = initialized p s0) /\
  (forall c s0,
     occurrences (EvCompileShaderAsync p) (events (step c) s0) =
     occurrences (EvTestAndSet p false) (events (step c) s0)) /\
  occurrences (EvCompileShaderAsync p) (events (steps cs) s) <= 1.
Proof.
  assert (Hbound := first_test_bound cs p s).
  repeat split.
  - intros before after -> Hset. unfold steps in *.
    rewrite exec_for_each_app. apply initialized_steps_mono, Hset.
  - destruct (initialized p s); lia.
  - intros c s0 previous Hin.
    destruct (occurrences_step c p previous s0) as [Hocc _].
    assert (occurrences (EvTestAndSet p previous) (events (step c) s0) <> 0) as Hpos.
    { unfold occurrences. intros Hzero. apply length_zero_iff_nil in Hzero.
      assert (EvTestAndSet p previous ∈
                filter (fun e' => e' = EvTestAndSet p previous) (events (step c) s0)) as Hf
        by (apply list_elem_of_filter; auto).
      rewrite Hzero in Hf. inversion Hf. }
    rewrite Hocc in Hpos. repeat case_decide; congruence.
  - intros c s0. destruct (occurrences_step c p false s0) as [-> ->].
    repeat case_decide; destruct (initialized p s0); simplify_eq; reflexivity.
  - rewrite dispatches_are_first_tests. destruct (initialized p s); lia.
Qed.

(** ** What the handlers leave alone *)

Lemma handler_preserved_refl (s : State) : handler_preserved s s.
Proof. unfold handler_preserved. repeat split. Qed.

Lemma handler_preserved_trans (s1 s2 s3 : State) :
  handler_preserved s1 s2 -> handler_preserved s2 s3 -> handler_preserved s1 s3.
Proof.
  unfold handler_preserved. intros H12 H23.
  repeat match goal with H : _ /\ _ |- _ => destruct H as [? ?] end.
  repeat split; try (etransitivity; eassumption).
  all: intros p; etransitivity; eauto.
Qed.

Ltac handler_preserved_cases thr :=
  unfold handler_preserved, compiled;
  handler_cases thr; repeat split; intros;
  match goal with
  | p : EntryPtr |- _ => destruct p; cbn; try reflexivity
  end;
  apply lookup_tested_fmap; reflexivity.

Lemma handler_preserved_step (c : Step) (s : State) :
  is_handler_call c = true -> handler_preserved s (exec (step c) s).
Proof.
  destruct c as [u a b x thr|u a b x y thr|u b x y thr| |i]; cbn [step is_handler_call];
    try discriminate; intros _.
  - destruct (IsPassthrough u) eqn:Hpass.
    + unfold exec. rewrite HandleGSUIDChange_passthrough by assumption. cbn.
      unfold handler_preserved, compiled. repeat split; intros p; destruct p; reflexivity.
    + unfold HandleGSUIDChange. rewrite Hpass. handler_preserved_cases thr.
  - handler_preserved_cases thr.
  - handler_preserved_cases thr.
Qed.

(** The active pointers after a handler call. *)
Lemma active_after_HandleGSUIDChange (gs_uid : GeometryShaderUid)
    (gs_primitive_type components : u32) (xfr : XFMemory) (on_gpu_thread : bool) (s : State) :
  let s' := exec (HandleGSUIDChange gs_uid gs_primitive_type components xfr on_gpu_thread) s in
  s_last_geometry_shader_bytecode s' =
    (if IsPassthrough gs_uid then Some addr_s_pass_entry
     else if on_gpu_thread then Some (addr_gs gs_uid)
     else s_last_geometry_shader_bytecode s) /\
  s_last_pixel_shader_bytecode s' = s_last_pixel_shader_bytecode s /\
  s_last_vertex_shader_bytecode s' = s_last_vertex_shader_bytecode s /\
  ps_bytecode_cache s' = ps_bytecode_cache s /\
  vs_bytecode_cache s' = vs_bytecode_cache s /\
  s_pass_entry s' = s_pass_entry s.
Proof.
  cbn zeta. destruct (IsPassthrough gs_uid) eqn:Hpass.
  - unfold exec. rewrite HandleGSUIDChange_passthrough by assumption. repeat split.
  - unfold HandleGSUIDChange. rewrite Hpass. handler_cases on_gpu_thread; repeat split.
Qed.

Lemma active_after_HandlePSUIDChange (ps_uid : PixelShaderUid) (ps_dst_alpha_mode : DSTALPHA_MODE)
    (components : u32) (xfr : XFMemory) (bpm : BPMemory) (on_gpu_thread : bool) (s : State) :
  let s' := exec (HandlePSUIDChange ps_uid ps_dst_alpha_mode components xfr bpm on_gpu_thread) s in
  s_last_pixel_shader_bytecode s' =
    (if on_gpu_thread then Some (addr_ps ps_uid) else s_last_pixel_shader_bytecode s) /\
  s_last_geometry_shader_bytecode s' = s_last_geometry_shader_bytecode s /\
  s_last_vertex_shader_bytecode s' = s_last_vertex_shader_bytecode s /\
  gs_bytecode_cache s' = gs_bytecode_cache s /\
  vs_bytecode_cache s' = vs_bytecode_cache s /\
  s_pass_entry s' = s_pass_entry s.
Proof. cbn zeta. handler_cases on_gpu_thread; repeat split. Qed.

Lemma active_after_HandleVSUIDChange (vs_uid : VertexShaderUid) (components : u32)
    (xfr : XFMemory) (bpm : BPMemory) (on_gpu_thread : bool) (s : State) :
  let s' := exec (HandleVSUIDChange vs_uid components xfr bpm on_gpu_thread) s in
  s_last_vertex_shader_bytecode s' =
    (if on_gpu_thread then Some (addr_vs vs_uid) else s_last_vertex_shader_bytecode s) /\
  s_last_geometry_shader_bytecode s' = s_last_geometry_shader_bytecode s /\
  s_last_pixel_shader_bytecode s' = s_last_pixel_shader_bytecode s /\
  gs_bytecode_cache s' = gs_bytecode_cache s /\
  ps_bytecode_cache s' = ps_bytecode_cache s /\
  s_pass_entry s' = s_pass_entry s.
Proof. cbn zeta. handler_cases on_gpu_thread; repeat split. Qed.

(** ** C4: the memoisation of [PrepareShaders] *)

Lemma events_SetCurrentPrimitiveTopology (gs_primitive_type : u32) (s : State) :
  events (SetCurrentPrimitiveTopology gs_primitive_type) s = [].
Proof.
  unfold SetCurrentPrimitiveTopology, PanicAlert. repeat case_bool_decide; reflexivity.
Qed.

(** The part of [PrepareShaders] that runs before the comparison of the
    uids: the topology is recorded and, on the submission context, the
    completions are drained. *)
Lemma PrepareShaders_memo_hit (ps_dst_alpha_mode : DSTALPHA_MODE)
    (gs_primitive_type components : u32) (xfr : XFMemory) (bpm : BPMemory)
    (on_gpu_thread : bool) (s : State) :
  memo_geometry on_gpu_thread s = GetGeometryShaderUid gs_primitive_type API_D3D11 xfr components ->
  memo_pixel on_gpu_thread s = GetPixelShaderUidD3D11 ps_dst_alpha_mode components xfr bpm ->
  memo_vertex on_gpu_thread s = GetVertexShaderUidD3D11 components xfr bpm ->
  PrepareShaders ps_dst_alpha_mode gs_primitive_type components xfr bpm on_gpu_thread s =
  bind (SetCurrentPrimitiveTopology gs_primitive_type)
       (fun _ => when on_gpu_thread ProcCompilationResults) s.
Proof.
  intros Hg Hp Hv. unfold PrepareShaders, bind.
  rewrite (run_eta (SetCurrentPrimitiveTopology gs_primitive_type) s).
  set (s0 := exec (SetCurrentPrimitiveTopology gs_primitive_type) s).
  assert (H0 : control_preserved s s0) by apply quiet_SetCurrentPrimitiveTopology.
  destruct on_gpu_thread; cbn [when memo_geometry memo_pixel memo_vertex] in *.
  - rewrite (run_eta ProcCompilationResults s0).
    set (s1 := exec ProcCompilationResults s0).
    assert (H1 : control_preserved s0 s1) by apply quiet_ProcCompilationResults.
    assert (H01 := control_preserved_trans _ _ _ H0 H1).
    unfold control_preserved in H01.
    repeat match goal with H : _ /\ _ |- _ => destruct H as [? ?] end.
    unfold gets.
    rewrite !bool_decide_eq_false_2 by (intros Hne; apply Hne; congruence).
    cbn. rewrite !app_nil_r. destruct (result ProcCompilationResults s0). reflexivity.
  - unfold control_preserved in H0.
    repeat match goal with H : _ /\ _ |- _ => destruct H as [? ?] end.
    unfold gets, ret.
    rewrite !bool_decide_eq_false_2 by (intros Hne; apply Hne; congruence).
    cbn. reflexivity.
Qed.

Lemma quiet_check_uids (gs_changed ps_changed vs_changed : bool) :
  quiet (check_uids gs_changed ps_changed vs_changed).
Proof. unfold check_uids. repeat quiet_step. Qed.

Lemma exec_check_uids (gs_changed ps_changed vs_changed : bool) (s : State) :
  exec (check_uids gs_changed ps_changed vs_changed) s = s.
Proof.
  unfold check_uids, exec, bind, gets, when, emit, ret; cbn.
  destruct (DEBUG_BUILD && _), gs_changed, ps_changed, vs_changed; reflexivity.
Qed.

Lemma exec_ret {A : Type} (a : A) (s : State) : exec (ret a) s = s.
Proof. reflexivity. Qed.

Lemma events_ret {A : Type} (a : A) (s : State) : events (ret a) s = [].
Proof. reflexivity. Qed.

Lemma unit_result (m : M unit) (s : State) : result m s = tt.
Proof. destruct (result m s). reflexivity. Qed.

(** [PrepareShaders] when some uid differs from the memo of the context:
    after the prologue the memo is updated and the handlers of the changed
    stages run, geometry first. *)
Lemma PrepareShaders_memo_miss (ps_dst_alpha_mode : DSTALPHA_MODE)
    (gs_primitive_type components : u32) (xfr : XFMemory) (bpm : BPMemory)
    (on_gpu_thread : bool) (s : State) :
  let gs_uid := GetGeometryShaderUid gs_primitive_type API_D3D11 xfr components in
  let ps_uid := GetPixelShaderUidD3D11 ps_dst_alpha_mode components xfr bpm in
  let vs_uid := GetVertexShaderUidD3D11 components xfr bpm in
  let gs_changed := bool_decide (gs_uid ≠ memo_geometry on_gpu_thread s) in
  let ps_changed := bool_decide (ps_uid ≠ memo_pixel on_gpu_thread s) in
  let vs_changed := bool_decide (vs_uid ≠ memo_vertex on_gpu_thread s) in
  let prologue := bind (SetCurrentPrimitiveTopology gs_primitive_type)
                       (fun _ => when on_gpu_thread ProcCompilationResults) in
  let s2 := remembered on_gpu_thread gs_changed ps_changed vs_changed gs_uid ps_uid vs_uid
              (exec prologue s) in
  let checks := when on_gpu_thread (check_uids gs_changed ps_changed vs_changed) in
  let GS := when gs_changed
              (HandleGSUIDChange gs_uid gs_primitive_type components xfr on_gpu_thread) in
  let PS := when ps_changed
              (HandlePSUIDChange ps_uid ps_dst_alpha_mode components xfr bpm on_gpu_thread) in
  let VS := when vs_changed (HandleVSUIDChange vs_uid components xfr bpm on_gpu_thread) in
  negb gs_changed && negb ps_changed && negb vs_changed = false ->
  PrepareShaders ps_dst_alpha_mode gs_primitive_type components xfr bpm on_gpu_thread s =
    (tt, exec VS (exec PS (exec GS s2)),
     events prologue s ++ events checks s2 ++
     events GS s2 ++ events PS (exec GS s2) ++ events VS (exec PS (exec GS s2))).
Proof.
  intros gs_uid ps_uid vs_uid gs_changed ps_changed vs_changed prologue s2 checks GS PS VS
    Hmiss.
  assert (Hpro : control_preserved s (exec prologue s)).
  { apply quiet_bind; [apply quiet_SetCurrentPrimitiveTopology|].
    intros _. apply quiet_when, quiet_ProcCompilationResults. }
  destruct Hpro as (_ & _ & _ & Hg & Hp & Hv & Hcg & Hcp & Hcv & _).
  pose proof exec_check_uids as Hchk.
  subst prologue s2 checks GS PS VS.
  unfold PrepareShaders. fold gs_uid ps_uid vs_uid.
  (* from here on the pieces of the function are arbitrary computations *)
  revert Hchk Hg Hp Hv Hcg Hcp Hcv.
  generalize (HandleGSUIDChange gs_uid gs_primitive_type components xfr on_gpu_thread).
  generalize (HandlePSUIDChange ps_uid ps_dst_alpha_mode components xfr bpm on_gpu_thread).
  generalize (HandleVSUIDChange vs_uid components xfr bpm on_gpu_thread).
  generalize check_uids.
  generalize ProcCompilationResults.
  generalize (SetCurrentPrimitiveTopology gs_primitive_type).
  intros topology drain checks VS PS GS Hchk Hg Hp Hv Hcg Hcp Hcv.
  unfold bind, exec, events in *.
  destruct (topology s) as [[[] s0] t0].
  destruct on_gpu_thread; cbn [when memo_geometry memo_pixel memo_vertex fst snd] in *.
  - destruct (drain s0) as [[[] s1] t1]. cbn [fst snd] in *.
    unfold gets.
    replace (bool_decide (gs_uid ≠ s_last_geometry_shader_uid s1)) with gs_changed
      by (subst gs_changed; rewrite Hg; reflexivity).
    replace (bool_decide (ps_uid ≠ s_last_pixel_shader_uid s1)) with ps_changed
      by (subst ps_changed; rewrite Hp; reflexivity).
    replace (bool_decide (vs_uid ≠ s_last_vertex_shader_uid s1)) with vs_changed
      by (subst vs_changed; rewrite Hv; reflexivity).
    rewrite Hmiss. clearbody gs_changed ps_changed vs_changed. clear Hmiss.
    unfold remembered.
    destruct gs_changed, ps_changed, vs_changed; cbn [when modify ret fst snd app];
      repeat match goal with
             | |- context [checks ?a ?b ?c ?x] =>
                 let E := fresh in
                 pose proof (Hchk a b c x) as E;
                 destruct (checks a b c x) as [[[] ?] ?]; cbn [ret fst snd app] in E;
                 rewrite E in *; clear E; cbn [ret fst snd app]
             | |- context [GS ?x] => destruct (GS x) as [[[] ?] ?]; cbn [ret fst snd app]
             | |- context [PS ?x] => destruct (PS x) as [[[] ?] ?]; cbn [ret fst snd app]
             | |- context [VS ?x] => destruct (VS x) as [[[] ?] ?]; cbn [ret fst snd app]
             end;
      cbn [fst snd app];
      rewrite ?app_nil_r, <- ?app_assoc; reflexivity.
  - cbn [ret fst snd] in *. unfold gets.
    replace (bool_decide (gs_uid ≠ s_last_cpu_geometry_shader_uid s0)) with gs_changed
      by (subst gs_changed; rewrite Hcg; reflexivity).
    replace (bool_decide (ps_uid ≠ s_last_cpu_pixel_shader_uid s0)) with ps_changed
      by (subst ps_changed; rewrite Hcp; reflexivity).
    replace (bool_decide (vs_uid ≠ s_last_cpu_vertex_shader_uid s0)) with vs_changed
      by (subst vs_changed; rewrite Hcv; reflexivity).
    rewrite Hmiss. clearbody gs_changed ps_changed vs_changed. clear Hmiss.
    unfold remembered.
    destruct gs_changed, ps_changed, vs_changed; cbn [when modify ret fst snd app];
      repeat match goal with
             | |- context [GS ?x] => destruct (GS x) as [[[] ?] ?]; cbn [ret fst snd app]
             | |- context [PS ?x] => destruct (PS x) as [[[] ?] ?]; cbn [ret fst snd app]
             | |- context [VS ?x] => destruct (VS x) as [[[] ?] ?]; cbn [ret fst snd app]
             end;
      cbn [fst snd app];
      rewrite ?app_nil_r, <- ?app_assoc; reflexivity.
Qed.

Lemma dispatches_app (t1 t2 : list Event) :
  dispatches (t1 ++ t2) = dispatches t1 ++ dispatches t2.
Proof. unfold dispatches. apply filter_app. Qed.

Lemma dispatches_quiet (t : list Event) :
  Forall (fun e => is_cache_work e = false) t -> dispatches t = [].
Proof.
  intros Ht. unfold dispatches. induction Ht as [|e t He Ht IH]; [reflexivity|].
  rewrite filter_cons. case_decide as Hd; [|exact IH].
  destruct e; discriminate.
Qed.

Lemma dispatches_handler_events (p : EntryPtr) (previous : bool) :
  dispatches (handler_events p previous) =
  if previous then [] else [EvCompileShaderAsync p].
Proof. destruct previous; reflexivity. Qed.

Lemma dispatches_when_step (changed : bool) (c : Step) (s : State) :
  dispatches (events (when changed (step c)) s) = dispatch_of changed c s.
Proof.
  unfold dispatch_of. destruct changed; cbn [when andb].
  - destruct (events_step c s) as [Hev Hquiet].
    destruct (looked_up c) as [p|].
    + rewrite Hev, dispatches_handler_events. destruct (initialized p s); reflexivity.
    + apply dispatches_quiet; auto.
  - destruct (looked_up c); reflexivity.
Qed.

Lemma initialized_when_step (changed : bool) (c : Step) (q : EntryPtr) (s : State) :
  initialized q (exec (when changed (step c)) s) =
  if decide (changed = true /\ looked_up c = Some q) then true else initialized q s.
Proof.
  destruct changed; cbn [when].
  - rewrite initialized_after_step. repeat case_decide; intuition congruence.
  - case_decide; [intuition congruence | reflexivity].
Qed.

Lemma handler_preserved_when_step (changed : bool) (c : Step) (s : State) :
  is_handler_call c = true -> handler_preserved s (exec (when changed (step c)) s).
Proof.
  destruct changed; cbn [when]; [apply handler_preserved_step|].
  intros _. apply handler_preserved_refl.
Qed.

Lemma initialized_remembered (thr gc pc vc : bool)
    (gs_uid : GeometryShaderUid) (ps_uid : PixelShaderUid) (vs_uid : VertexShaderUid)
    (q : EntryPtr) (s : State) :
  initialized q (remembered thr gc pc vc gs_uid ps_uid vs_uid s) = initialized q s.
Proof. unfold remembered. destruct thr, gc, pc, vc, q; reflexivity. Qed.

Lemma dispatch_of_ext (changed : bool) (c : Step) (s1 s2 : State) :
  (forall p, looked_up c = Some p -> initialized p s1 = initialized p s2) ->
  dispatch_of changed c s1 = dispatch_of changed c s2.
Proof.
  intros Hinit. unfold dispatch_of. destruct (looked_up c) as [p|]; [|reflexivity].
  rewrite (Hinit p eq_refl). reflexivity.
Qed.

Lemma active_after_when_GS (changed : bool) (gs_uid : GeometryShaderUid)
    (gs_primitive_type components : u32) (xfr : XFMemory) (on_gpu_thread : bool) (s : State) :
  let s' := exec (when changed (step (StepGS gs_uid gs_primitive_type components xfr
                                        on_gpu_thread))) s in
  s_last_geometry_shader_bytecode s' =
    (if changed then
       if IsPassthrough gs_uid then Some addr_s_pass_entry
       else if on_gpu_thread then Some (addr_gs gs_uid)
       else s_last_geometry_shader_bytecode s
     else s_last_geometry_shader_bytecode s) /\
  s_last_pixel_shader_bytecode s' = s_last_pixel_shader_bytecode s /\
  s_last_vertex_shader_bytecode s' = s_last_vertex_shader_bytecode s /\
  (changed = false -> gs_bytecode_cache s' = gs_bytecode_cache s) /\
  ps_bytecode_cache s' = ps_bytecode_cache s /\
  vs_bytecode_cache s' = vs_bytecode_cache s /\
  s_pass_entry s' = s_pass_entry s.
Proof.
  destruct changed; cbn [when step]; [|repeat split].
  destruct (active_after_HandleGSUIDChange gs_uid gs_primitive_type components xfr
              on_gpu_thread s) as (? & ? & ? & ? & ? & ?).
  repeat split; try assumption. discriminate.
Qed.

Lemma active_after_when_PS (changed : bool) (ps_uid : PixelShaderUid)
    (ps_dst_alpha_mode : DSTALPHA_MODE) (components : u32) (xfr : XFMemory) (bpm : BPMemory)
    (on_gpu_thread : bool) (s : State) :
  let s' := exec (when changed (step (StepPS ps_uid ps_dst_alpha_mode components xfr bpm
                                        on_gpu_thread))) s in
  s_last_pixel_shader_bytecode s' =
    (if changed && on_gpu_thread then Some (addr_ps ps_uid)
     else s_last_pixel_shader_bytecode s) /\
  s_last_geometry_shader_bytecode s' = s_last_geometry_shader_bytecode s /\
  s_last_vertex_shader_bytecode s' = s_last_vertex_shader_bytecode s /\
  gs_bytecode_cache s' = gs_bytecode_cache s /\
  (changed = false -> ps_bytecode_cache s' = ps_bytecode_cache s) /\
  vs_bytecode_cache s' = vs_bytecode_cache s /\
  s_pass_entry s' = s_pass_entry s.
Proof.
  destruct changed; cbn [when step andb]; [|repeat split].
  destruct (active_after_HandlePSUIDChange ps_uid ps_dst_alpha_mode components xfr bpm
              on_gpu_thread s) as (? & ? & ? & ? & ? & ?).
  repeat split; try assumption. discriminate.
Qed.

Lemma active_after_when_VS (changed : bool) (vs_uid : VertexShaderUid) (components : u32)
    (xfr : XFMemory) (bpm : BPMemory) (on_gpu_thread : bool) (s : State) :
  let s' := exec (when changed (step (StepVS vs_uid components xfr bpm on_gpu_thread))) s in
  s_last_vertex_shader_bytecode s' =
    (if changed && on_gpu_thread then Some (addr_vs vs_uid)
     else s_last_vertex_shader_bytecode s) /\
  s_last_geometry_shader_bytecode s' = s_last_geometry_shader_bytecode s /\
  s_last_pixel_shader_bytecode s' = s_last_pixel_shader_bytecode s /\
  gs_bytecode_cache s' = gs_bytecode_cache s /\
  ps_bytecode_cache s' = ps_bytecode_cache s /\
  (changed = false -> vs_bytecode_cache s' = vs_bytecode_cache s) /\
  s_pass_entry s' = s_pass_entry s.
Proof.
  destruct changed; cbn [when step andb]; [|repeat split].
  destruct (active_after_HandleVSUIDChange vs_uid components xfr bpm on_gpu_thread s)
    as (? & ? & ? & ? & ? & ?).
  repeat split; try assumption. discriminate.
Qed.

Lemma remembered_fields (thr gc pc vc : bool)
    (gs_uid : GeometryShaderUid) (ps_uid : PixelShaderUid) (vs_uid : VertexShaderUid)
    (s : State) :
  let s' := remembered thr gc pc vc gs_uid ps_uid vs_uid s in
  memo_geometry thr s' = (if gc then gs_uid else memo_geometry thr s) /\
  memo_pixel thr s' = (if pc then ps_uid else memo_pixel thr s) /\
  memo_vertex thr s' = (if vc then vs_uid else memo_vertex thr s) /\
  memo_geometry (negb thr) s' = memo_geometry (negb thr) s /\
  memo_pixel (negb thr) s' = memo_pixel (negb thr) s /\
  memo_vertex (negb thr) s' = memo_vertex (negb thr) s /\
  m_dirty_pso s' = (if thr then true else m_dirty_pso s) /\
  s_last_geometry_shader_bytecode s' = s_last_geometry_shader_bytecode s /\
  s_last_pixel_shader_bytecode s' = s_last_pixel_shader_bytecode s /\
  s_last_vertex_shader_bytecode s' = s_last_vertex_shader_bytecode s /\
  gs_bytecode_cache s' = gs_bytecode_cache s /\
  ps_bytecode_cache s' = ps_bytecode_cache s /\
  vs_bytecode_cache s' = vs_bytecode_cache s /\
  s_pass_entry s' = s_pass_entry s.
Proof. unfold remembered. destruct thr, gc, pc, vc; repeat split. Qed.

Lemma memo_of_preserved (thr : bool) (s s' : State) :
  s_last_geometry_shader_uid s' = s_last_geometry_shader_uid s ->
  s_last_pixel_shader_uid s' = s_last_pixel_shader_uid s ->
  s_last_vertex_shader_uid s' = s_last_vertex_shader_uid s ->
  s_last_cpu_geometry_shader_uid s' = s_last_cpu_geometry_shader_uid s ->
  s_last_cpu_pixel_shader_uid s' = s_last_cpu_pixel_shader_uid s ->
  s_last_cpu_vertex_shader_uid s' = s_last_cpu_vertex_shader_uid s ->
  memo_geometry thr s' = memo_geometry thr s /\
  memo_pixel thr s' = memo_pixel thr s /\
  memo_vertex thr s' = memo_vertex thr s.
Proof. destruct thr; cbn; auto. Qed.

Lemma unchanged_uid `{EqDecision A} (x y : A) : bool_decide (x ≠ y) = false -> y = x.
Proof.
  intros Hb. apply bool_decide_eq_false in Hb.
  destruct (decide (x = y)); [congruence | contradiction].
Qed.

(** The effect of [PrepareShaders] on the state and its compile dispatches,
    for any state and either context. [gs_changed], [ps_changed] and
    [vs_changed] compare the derived uids with the memo of the context. *)
Lemma PrepareShaders_effect (ps_dst_alpha_mode : DSTALPHA_MODE)
    (gs_primitive_type components : u32) (xfr : XFMemory) (bpm : BPMemory)
    (on_gpu_thread : bool) (s : State) :
  let gs_uid := GetGeometryShaderUid gs_primitive_type API_D3D11 xfr components in
  let ps_uid := GetPixelShaderUidD3D11 ps_dst_alpha_mode components xfr bpm in
  let vs_uid := GetVertexShaderUidD3D11 components xfr bpm in
  let gs_changed := bool_decide (gs_uid ≠ memo_geometry on_gpu_thread s) in
  let ps_changed := bool_decide (ps_uid ≠ memo_pixel on_gpu_thread s) in
  let vs_changed := bool_decide (vs_uid ≠ memo_vertex on_gpu_thread s) in
  let call := PrepareShaders ps_dst_alpha_mode gs_primitive_type components xfr bpm
                on_gpu_thread in
  let prologue := bind (SetCurrentPrimitiveTopology gs_primitive_type)
                       (fun _ => when on_gpu_thread ProcCompilationResults) in
  let s' := exec call s in
  (* the memo slots *)
  (memo_geometry on_gpu_thread s' = gs_uid /\
   memo_pixel on_gpu_thread s' = ps_uid /\
   memo_vertex on_gpu_thread s' = vs_uid) /\
  (memo_geometry (negb on_gpu_thread) s' = memo_geometry (negb on_gpu_thread) s /\
   memo_pixel (negb on_gpu_thread) s' = memo_pixel (negb on_gpu_thread) s /\
   memo_vertex (negb on_gpu_thread) s' = memo_vertex (negb on_gpu_thread) s) /\
  (* the dirty flag *)
  m_dirty_pso s' =
    (if on_gpu_thread && (gs_changed || ps_changed || vs_changed) then true
     else m_dirty_pso s) /\
  (* the active pointers *)
  s_last_geometry_shader_bytecode s' =
    (if gs_changed then
       if IsPassthrough gs_uid then Some addr_s_pass_entry
       else if on_gpu_thread then Some (addr_gs gs_uid)
       else s_last_geometry_shader_bytecode s
     else s_last_geometry_shader_bytecode s) /\
  s_last_pixel_shader_bytecode s' =
    (if ps_changed && on_gpu_thread then Some (addr_ps ps_uid)
     else s_last_pixel_shader_bytecode s) /\
  s_last_vertex_shader_bytecode s' =
    (if vs_changed && on_gpu_thread then Some (addr_vs vs_uid)
     else s_last_vertex_shader_bytecode s) /\
  (* the caches of the unchanged stages are as the prologue left them *)
  (gs_changed = false -> gs_bytecode_cache s' = gs_bytecode_cache (exec prologue s)) /\
  (ps_changed = false -> ps_bytecode_cache s' = ps_bytecode_cache (exec prologue s)) /\
  (vs_changed = false -> vs_bytecode_cache s' = vs_bytecode_cache (exec prologue s)) /\
  s_pass_entry s' = s_pass_entry (exec prologue s) /\
  (* the compile dispatches *)
  dispatches (events call s) =
    dispatch_of gs_changed
      (StepGS gs_uid gs_primitive_type components xfr on_gpu_thread) s ++
    dispatch_of ps_changed
      (StepPS ps_uid ps_dst_alpha_mode components xfr bpm on_gpu_thread) s ++
    dispatch_of vs_changed
      (StepVS vs_uid components xfr bpm on_gpu_thread) s.
Proof.
  intros gs_uid ps_uid vs_uid gs_changed ps_changed vs_changed call prologue s'.
  assert (Hquiet : quiet prologue).
  { apply quiet_bind; [apply quiet_SetCurrentPrimitiveTopology|].
    intros _. apply quiet_when, quiet_ProcCompilationResults. }
  destruct (Hquiet s) as (Hpro & Hproev & _).
  destruct Hpro as (Hbg & Hbp & Hbv & Hg & Hp & Hv & Hcg & Hcp & Hcv & Hdirty & _ & _ &
                    _ & _ & _ & Hinit).
  destruct (negb gs_changed && negb ps_changed && negb vs_changed) eqn:Hmiss.
  - (* nothing changed *)
    apply andb_prop in Hmiss as [Hmiss Hvc]. apply andb_prop in Hmiss as [Hgc Hpc].
    apply negb_true_iff in Hgc, Hpc, Hvc.
    assert (Heg : memo_geometry on_gpu_thread s = gs_uid).
    { subst gs_changed. apply bool_decide_eq_false in Hgc. symmetry.
      destruct (decide (gs_uid = memo_geometry on_gpu_thread s)); [assumption|contradiction]. }
    assert (Hep : memo_pixel on_gpu_thread s = ps_uid).
    { subst ps_changed. apply bool_decide_eq_false in Hpc. symmetry.
      destruct (decide (ps_uid = memo_pixel on_gpu_thread s)); [assumption|contradiction]. }
    assert (Hev : memo_vertex on_gpu_thread s = vs_uid).
    { subst vs_changed. apply bool_decide_eq_false in Hvc. symmetry.
      destruct (decide (vs_uid = memo_vertex on_gpu_thread s)); [assumption|contradiction]. }
    assert (Hcall : call s = prologue s) by (apply PrepareShaders_memo_hit; assumption).
    assert (Hexec : exec call s = exec prologue s) by (unfold exec; rewrite Hcall; reflexivity).
    assert (Hevents : events call s = events prologue s)
      by (unfold events; rewrite Hcall; reflexivity).
    subst s'. rewrite Hexec, Hevents, Hgc, Hpc, Hvc, andb_false_r.
    clearbody gs_changed ps_changed vs_changed call prologue.
    cbn [andb orb]. rewrite (dispatches_quiet _ Hproev).
    unfold dispatch_of. cbn [looked_up andb]. destruct (IsPassthrough gs_uid).
    all: destruct on_gpu_thread; cbn [memo_geometry memo_pixel memo_vertex negb] in *.
    all: repeat split; congruence.
  - (* some uid changed *)
    pose proof (PrepareShaders_memo_miss ps_dst_alpha_mode gs_primitive_type components
                  xfr bpm on_gpu_thread s Hmiss) as Hcall.
    cbn zeta in Hcall. fold gs_uid ps_uid vs_uid gs_changed ps_changed vs_changed in Hcall.
    fold prologue call in Hcall.
    set (cG := StepGS gs_uid gs_primitive_type components xfr on_gpu_thread).
    set (cP := StepPS ps_uid ps_dst_alpha_mode components xfr bpm on_gpu_thread).
    set (cV := StepVS vs_uid components xfr bpm on_gpu_thread).
    change (HandleGSUIDChange gs_uid gs_primitive_type components xfr on_gpu_thread)
      with (step cG) in Hcall.
    change (HandlePSUIDChange ps_uid ps_dst_alpha_mode components xfr bpm on_gpu_thread)
      with (step cP) in Hcall.
    change (HandleVSUIDChange vs_uid components xfr bpm on_gpu_thread)
      with (step cV) in Hcall.
    set (s2 := remembered on_gpu_thread gs_changed ps_changed vs_changed gs_uid ps_uid vs_uid
                 (exec prologue s)) in *.
    set (sG := exec (when gs_changed (step cG)) s2) in *.
    set (sP := exec (when ps_changed (step cP)) sG) in *.
    set (sV := exec (when vs_changed (step cV)) sP) in *.
    assert (Hexec : exec call s = sV) by (unfold exec at 1; rewrite Hcall; reflexivity).
    assert (Hevents : events call s = _) by (unfold events at 1; rewrite Hcall; reflexivity).
    cbn [snd] in Hevents.
    subst s'. rewrite Hexec, Hevents. clear Hcall Hexec Hevents.
    (* the state *)
    pose proof (handler_preserved_when_step gs_changed cG s2 eq_refl) as HG.
    pose proof (handler_preserved_when_step ps_changed cP sG eq_refl) as HP.
    pose proof (handler_preserved_when_step vs_changed cV sP eq_refl) as HV.
    fold sG in HG. fold sP in HP. fold sV in HV.
    pose proof (handler_preserved_trans _ _ _ (handler_preserved_trans _ _ _ HG HP) HV)
      as (Kg & Kp & Kv & Kcg & Kcp & Kcv & Kdirty & _).
    clear HG HP HV.
    destruct (memo_of_preserved on_gpu_thread _ _ Kg Kp Kv Kcg Kcp Kcv) as (Mg & Mp & Mv).
    destruct (memo_of_preserved (negb on_gpu_thread) _ _ Kg Kp Kv Kcg Kcp Kcv)
      as (Ng & Np & Nv).
    destruct (memo_of_preserved on_gpu_thread _ _ Hg Hp Hv Hcg Hcp Hcv) as (Pg & Pp & Pv).
    destruct (memo_of_preserved (negb on_gpu_thread) _ _ Hg Hp Hv Hcg Hcp Hcv)
      as (Qg & Qp & Qv).
    destruct (remembered_fields on_gpu_thread gs_changed ps_changed vs_changed
                gs_uid ps_uid vs_uid (exec prologue s))
      as (Rg & Rp & Rv & Rng & Rnp & Rnv & Rdirty & Rbg & Rbp & Rbv & Rcg & Rcp & Rcv & Rpass).
    fold s2 in Rg, Rp, Rv, Rng, Rnp, Rnv, Rdirty, Rbg, Rbp, Rbv, Rcg, Rcp, Rcv, Rpass.
    destruct (active_after_when_GS gs_changed gs_uid gs_primitive_type components xfr
                on_gpu_thread s2) as (Gg & Gp & Gv & Gcg & Gcp & Gcv & Gpass).
    destruct (active_after_when_PS ps_changed ps_uid ps_dst_alpha_mode components xfr bpm
                on_gpu_thread sG) as (Ap & Ag & Av & Acg & Acp & Acv & Apass).
    destruct (active_after_when_VS vs_changed vs_uid components xfr bpm
                on_gpu_thread sP) as (Vv & Vg & Vp & Vcg & Vcp & Vcv & Vpass).
    fold cG sG in Gg, Gp, Gv, Gcg, Gcp, Gcv, Gpass.
    fold cP sP in Ap, Ag, Av, Acg, Acp, Acv, Apass.
    fold cV sV in Vv, Vg, Vp, Vcg, Vcp, Vcv, Vpass.
    assert (Ug : gs_changed = false -> memo_geometry on_gpu_thread s = gs_uid)
      by apply unchanged_uid.
    assert (Up : ps_changed = false -> memo_pixel on_gpu_thread s = ps_uid)
      by apply unchanged_uid.
    assert (Uv : vs_changed = false -> memo_vertex on_gpu_thread s = vs_uid)
      by apply unchanged_uid.
    (* the dispatches *)
    assert (Hdisp :
      dispatches (events prologue s ++
                  events (when on_gpu_thread (check_uids gs_changed ps_changed vs_changed)) s2 ++
                  events (when gs_changed (step cG)) s2 ++
                  events (when ps_changed (step cP)) sG ++
                  events (when vs_changed (step cV)) sP) =
      dispatch_of gs_changed cG s ++ dispatch_of ps_changed cP s ++
      dispatch_of vs_changed cV s).
    { rewrite !dispatches_app, (dispatches_quiet _ Hproev), !dispatches_when_step.
      rewrite (dispatches_quiet (events (when on_gpu_thread _) s2))
        by (apply quiet_when, quiet_check_uids).
      cbn [app]. f_equal; [|f_equal].
      - apply dispatch_of_ext. intros p _. unfold s2.
        rewrite initialized_remembered. apply Hinit.
      - apply dispatch_of_ext. intros p Hp'. unfold sG.
        rewrite initialized_when_step. case_decide as Hc.
        + destruct Hc as [_ Hc]. subst cP cG. cbn in Hp', Hc.
          destruct (IsPassthrough gs_uid); congruence.
        + unfold s2. rewrite initialized_remembered. apply Hinit.
      - apply dispatch_of_ext. intros p Hp'. unfold sP.
        rewrite initialized_when_step. case_decide as Hc.
        { destruct Hc as [_ Hc]. subst cP cV. cbn in Hp', Hc. congruence. }
        unfold sG. rewrite initialized_when_step. case_decide as Hc'.
        { destruct Hc' as [_ Hc']. subst cV cG. cbn in Hp', Hc'.
          destruct (IsPassthrough gs_uid); congruence. }
        unfold s2. rewrite initialized_remembered. apply Hinit. }
    rewrite Hdisp. clear Hdisp Hinit Hproev.
    clearbody sV sP sG s2 cG cP cV prologue call.
    clearbody gs_changed ps_changed vs_changed.
    destruct (IsPassthrough gs_uid);
    destruct on_gpu_thread, gs_changed, ps_changed, vs_changed; try discriminate Hmiss;
      cbn [andb orb negb] in *;
      repeat match goal with
             | K : false = false -> _ |- _ => specialize (K eq_refl)
             | K : true = false -> _ |- _ => clear K
             end;
      repeat split; intros; try discriminate; congruence.
Qed.

Lemma quiet_prologue (gs_primitive_type : u32) (on_gpu_thread : bool) :
  quiet (bind (SetCurrentPrimitiveTopology gs_primitive_type)
              (fun _ => when on_gpu_thread ProcCompilationResults)).
Proof.
  apply quiet_bind; [apply quiet_SetCurrentPrimitiveTopology|].
  intros _. apply quiet_when, quiet_ProcCompilationResults.
Qed.

(** C4. After a call of [PrepareShaders], a second call with the same
    arguments from the same context finds the three uids in the memo slots of
    the context and returns right after the comparison: it is the prologue of
    the function and nothing more (the topology is recorded and, on the
    submission context, the completions are drained). It takes no lock,
    looks up no cache, tests no one-shot flag and dispatches no compile; the
    keys of the three caches and the units in flight are as before. The same
    holds in any state whose memo slots hold the uids. *)
Theorem PrepareShaders_twice_returns_after_comparison (ps_dst_alpha_mode : DSTALPHA_MODE)
    (gs_primitive_type components : u32) (xfr : XFMemory) (bpm : BPMemory)
    (on_gpu_thread : bool) (s : State) :
  let gs_uid := GetGeometryShaderUid gs_primitive_type API_D3D11 xfr components in
  let ps_uid := GetPixelShaderUidD3D11 ps_dst_alpha_mode components xfr bpm in
  let vs_uid := GetVertexShaderUidD3D11 components xfr bpm in
  let call := PrepareShaders ps_dst_alpha_mode gs_primitive_type components xfr bpm
                on_gpu_thread in
  let prologue := bind (SetCurrentPrimitiveTopology gs_primitive_type)
                       (fun _ => when on_gpu_thread ProcCompilationResults) in
  let s1 := exec call s in
  (forall s0,
     memo_geometry on_gpu_thread s0 = gs_uid ->
     memo_pixel on_gpu_thread s0 = ps_uid ->
     memo_vertex on_gpu_thread s0 = vs_uid ->
     call s0 = prologue s0) /\
  (memo_geometry on_gpu_thread s1 = gs_uid /\
   memo_pixel on_gpu_thread s1 = ps_uid /\
   memo_vertex on_gpu_thread s1 = vs_uid) /\
  call s1 = prologue s1 /\
  Forall (fun e => is_cache_work e = false) (events call s1) /\
  dom (gs_bytecode_cache (exec call s1)) = dom (gs_bytecode_cache s1) /\
  dom (ps_bytecode_cache (exec call s1)) = dom (ps_bytecode_cache s1) /\
  dom (vs_bytecode_cache (exec call s1)) = dom (vs_bytecode_cache s1) /\
  in_flight (s_compiler (exec call s1)) = in_flight (s_compiler s1).
Proof.
  intros gs_uid ps_uid vs_uid call prologue s1.
  assert (Hhit : forall s0,
            memo_geometry on_gpu_thread s0 = gs_uid ->
            memo_pixel on_gpu_thread s0 = ps_uid ->
            memo_vertex on_gpu_thread s0 = vs_uid ->
            call s0 = prologue s0).
  { intros s0 Hg Hp Hv. apply PrepareShaders_memo_hit; assumption. }
  destruct (PrepareShaders_effect ps_dst_alpha_mode gs_primitive_type components xfr bpm
              on_gpu_thread s) as ((Hg & Hp & Hv) & _).
  fold call s1 in Hg, Hp, Hv.
  specialize (Hhit s1 Hg Hp Hv) as Hcall.
  destruct (quiet_prologue gs_primitive_type on_gpu_thread s1) as (Hctl & Hev & Hfl).
  fold prologue in Hctl, Hev, Hfl.
  destruct Hctl as (_ & _ & _ & _ & _ & _ & _ & _ & _ & _ & _ & _ & Hdg & Hdp & Hdv & _).
  unfold exec, events in *. rewrite Hcall.
  repeat split; assumption.
Qed.

(** C7. A call of [PrepareShaders] on the submission context.
    When some uid differs from the active one, the dirty flag is set. For a
    stage whose uid changed, the active uid is the new uid and the active
    bytecode pointer is the entry of the new uid (the passthrough entry for a
    passthrough geometry uid); for a stage whose uid did not change, both are
    as before. When no uid changed, the dirty flag is as before and nothing
    is dispatched. When only the pixel uid changed, the only dispatch is the
    one for the entry of the new pixel uid (made when its one-shot flag was
    clear), and the active geometry and vertex pointers, the geometry and
    vertex caches and the passthrough entry are as the drain at the start of
    the call left them. *)
Theorem PrepareShaders_on_submission_context (ps_dst_alpha_mode : DSTALPHA_MODE)
    (gs_primitive_type components : u32) (xfr : XFMemory) (bpm : BPMemory) (s : State) :
  let gs_uid := GetGeometryShaderUid gs_primitive_type API_D3D11 xfr components in
  let ps_uid := GetPixelShaderUidD3D11 ps_dst_alpha_mode components xfr bpm in
  let vs_uid := GetVertexShaderUidD3D11 components xfr bpm in
  let gs_changed := bool_decide (gs_uid ≠ GetActiveGeometryShaderUid s) in
  let ps_changed := bool_decide (ps_uid ≠ GetActivePixelShaderUid s) in
  let vs_changed := bool_decide (vs_uid ≠ GetActiveVertexShaderUid s) in
  let call := PrepareShaders ps_dst_alpha_mode gs_primitive_type components xfr bpm true in
  let drained := exec ProcCompilationResults
                   (exec (SetCurrentPrimitiveTopology gs_primitive_type) s) in
  let s' := exec call s in
  (gs_changed || ps_changed || vs_changed = true -> m_dirty_pso s' = true) /\
  (gs_changed = true ->
     GetActiveGeometryShaderUid s' = gs_uid /\
     s_last_geometry_shader_bytecode s' =
       Some (if IsPassthrough gs_uid then addr_s_pass_entry else addr_gs gs_uid)) /\
  (ps_changed = true ->
     GetActivePixelShaderUid s' = ps_uid /\
     s_last_pixel_shader_bytecode s' = Some (addr_ps ps_uid)) /\
  (vs_changed = true ->
     GetActiveVertexShaderUid s' = vs_uid /\
     s_last_vertex_shader_bytecode s' = Some (addr_vs vs_uid)) /\
  (gs_changed = false ->
     GetActiveGeometryShaderUid s' = GetActiveGeometryShaderUid s /\
     s_last_geometry_shader_bytecode s' = s_last_geometry_shader_bytecode s) /\
  (ps_changed = false ->
     GetActivePixelShaderUid s' = GetActivePixelShaderUid s /\
     s_last_pixel_shader_bytecode s' = s_last_pixel_shader_bytecode s) /\
  (vs_changed = false ->
     GetActiveVertexShaderUid s' = GetActiveVertexShaderUid s /\
     s_last_vertex_shader_bytecode s' = s_last_vertex_shader_bytecode s) /\
  (gs_changed || ps_changed || vs_changed = false ->
     m_dirty_pso s' = m_dirty_pso s /\ dispatches (events call s) = []) /\
  (gs_changed = false -> ps_changed = true -> vs_changed = false ->
     dispatches (events call s) =
       (if initialized (addr_ps ps_uid) s then [] else [EvCompileShaderAsync (addr_ps ps_uid)]) /\
     s_last_geometry_shader_bytecode s' = s_last_geometry_shader_bytecode s /\
     s_last_vertex_shader_bytecode s' = s_last_vertex_shader_bytecode s /\
     gs_bytecode_cache s' = gs_bytecode_cache drained /\
     vs_bytecode_cache s' = vs_bytecode_cache drained /\
     s_pass_entry s' = s_pass_entry drained).
Proof.
  intros gs_uid ps_uid vs_uid gs_changed ps_changed vs_changed call drained s'.
  destruct (PrepareShaders_effect ps_dst_alpha_mode gs_primitive_type components xfr bpm
              true s)
    as ((Hg & Hp & Hv) & _ & Hdirty & Hbg & Hbp & Hbv & Hcg & Hcp & Hcv & Hpass & Hdisp).
  cbn zeta in *. cbn [memo_geometry memo_pixel memo_vertex andb] in *.
  fold gs_uid ps_uid vs_uid in Hg, Hp, Hv, Hdirty, Hbg, Hbp, Hbv, Hcg, Hcp, Hcv, Hdisp.
  unfold GetActiveGeometryShaderUid, GetActivePixelShaderUid, GetActiveVertexShaderUid in *.
  fold gs_changed ps_changed vs_changed in Hdirty, Hbg, Hbp, Hbv, Hcg, Hcp, Hcv, Hdisp.
  fold call s' in Hg, Hp, Hv, Hdirty, Hbg, Hbp, Hbv, Hcg, Hcp, Hcv, Hpass, Hdisp.
  rewrite exec_bind in Hcg, Hcp, Hcv, Hpass. cbn [when] in Hcg, Hcp, Hcv, Hpass.
  fold drained in Hcg, Hcp, Hcv, Hpass.
  rewrite andb_true_r in Hbp, Hbv.
  assert (Ug : gs_changed = false -> s_last_geometry_shader_uid s = gs_uid)
    by apply unchanged_uid.
  assert (Up : ps_changed = false -> s_last_pixel_shader_uid s = ps_uid)
    by apply unchanged_uid.
  assert (Uv : vs_changed = false -> s_last_vertex_shader_uid s = vs_uid)
    by apply unchanged_uid.
  unfold dispatch_of in Hdisp. cbn [looked_up] in Hdisp.
  clearbody s' drained call gs_changed ps_changed vs_changed.
  repeat split; intros; subst; cbn [andb orb negb app] in *;
    repeat match goal with
           | K : false = false -> _ |- _ => specialize (K eq_refl)
           | K : true = false -> _ |- _ => clear K
           | K : _ || _ = false |- _ => apply orb_false_elim in K as [? ?]; subst
           end;
    cbn [andb orb negb app] in *;
    try congruence.
  - destruct (gs_changed || ps_changed || vs_changed); [assumption | discriminate].
  - destruct (IsPassthrough gs_uid); assumption.
  - rewrite Hdisp. destruct (IsPassthrough gs_uid); reflexivity.
  - rewrite Hdisp. destruct (IsPassthrough gs_uid), (initialized (addr_ps ps_uid) s);
      reflexivity.
Qed.

(** ** C6: the replay of the disk caches *)

Lemma exec_modify (f : State -> State) (s : State) : exec (modify f) s = f s.
Proof. reflexivity. Qed.

Lemma exec_gets {A : Type} (f : State -> A) (s : State) : exec (gets f) s = s.
Proof. reflexivity. Qed.

Lemma result_gets {A : Type} (f : State -> A) (s : State) : result (gets f) s = f s.
Proof. reflexivity. Qed.

Lemma exec_emit (e : Event) (s : State) : exec (emit e) s = s.
Proof. reflexivity. Qed.

Lemma exec_test_and_set (p : EntryPtr) (s : State) :
  exec (test_and_set p) s = store p (set_m_initialized true) s.
Proof. reflexivity. Qed.

Lemma dispatches_nothing_ret {A : Type} (a : A) : dispatches_nothing (ret a).
Proof. intros s. split; reflexivity. Qed.

Lemma dispatches_nothing_gets {A : Type} (f : State -> A) : dispatches_nothing (gets f).
Proof. intros s. split; reflexivity. Qed.

Lemma dispatches_nothing_emit (e : Event) :
  is_dispatch e = false -> dispatches_nothing (emit e).
Proof.
  intros He s. split; [|reflexivity].
  unfold dispatches. change (events (emit e) s) with [e].
  rewrite filter_cons, decide_False by congruence. reflexivity.
Qed.

Lemma dispatches_nothing_modify (f : State -> State) :
  (forall s, in_flight (s_compiler (f s)) = in_flight (s_compiler s)) ->
  dispatches_nothing (modify f).
Proof. intros Hf s. split; [reflexivity | apply Hf]. Qed.

Lemma dispatches_nothing_bind {A B : Type} (m : M A) (k : A -> M B) :
  dispatches_nothing m -> (forall a, dispatches_nothing (k a)) ->
  dispatches_nothing (bind m k).
Proof.
  intros Hm Hk s. rewrite exec_bind, events_bind, dispatches_app.
  destruct (Hm s) as [-> Hm2]. destruct (Hk (result m s) (exec m s)) as [-> Hk2].
  split; [reflexivity | congruence].
Qed.

Lemma dispatches_nothing_when (b : bool) (m : M unit) :
  dispatches_nothing m -> dispatches_nothing (when b m).
Proof. destruct b; [auto | intros _; apply dispatches_nothing_ret]. Qed.

Lemma dispatches_nothing_for_each {A : Type} (l : list A) (body : A -> M unit) :
  (forall x, dispatches_nothing (body x)) -> dispatches_nothing (for_each l body).
Proof.
  intros Hbody. induction l as [|x l IH]; cbn [for_each]; [apply dispatches_nothing_ret|].
  apply dispatches_nothing_bind; auto.
Qed.

Ltac dispatches_nothing_step :=
  lazymatch goal with
  | |- dispatches_nothing (bind _ _) => apply dispatches_nothing_bind; [|intros ?]
  | |- dispatches_nothing (ret _) => apply dispatches_nothing_ret
  | |- dispatches_nothing (gets _) => apply dispatches_nothing_gets
  | |- dispatches_nothing (emit _) => apply dispatches_nothing_emit; reflexivity
  | |- dispatches_nothing (when _ _) => apply dispatches_nothing_when
  | |- dispatches_nothing (for_each _ _) => apply dispatches_nothing_for_each; intros ?
  | |- dispatches_nothing (modify (store ?p _)) =>
      apply dispatches_nothing_modify; intros ?; destruct p; reflexivity
  | |- dispatches_nothing (modify _) =>
      apply dispatches_nothing_modify; intros ?; reflexivity
  end.

Lemma dispatches_nothing_test_and_set (p : EntryPtr) : dispatches_nothing (test_and_set p).
Proof. unfold test_and_set. repeat dispatches_nothing_step. Qed.

Lemma dispatches_nothing_InsertByteCode {UidType : Type}
    (shader_cache_at : UidType -> M EntryPtr) (uid : UidType) (bytecode_blob : D3DBlob) :
  (forall u, dispatches_nothing (shader_cache_at u)) ->
  dispatches_nothing (InsertByteCode shader_cache_at uid bytecode_blob).
Proof.
  intros Hat. unfold InsertByteCode, lock, unlock.
  repeat lazymatch goal with
         | |- dispatches_nothing (shader_cache_at _) => apply Hat
         | |- dispatches_nothing (test_and_set _) => apply dispatches_nothing_test_and_set
         | |- _ => dispatches_nothing_step
         end.
Qed.

Lemma dispatches_nothing_cache_at :
  (forall u, dispatches_nothing (gs_bytecode_cache_at u)) /\
  (forall u, dispatches_nothing (ps_bytecode_cache_at u)) /\
  (forall u, dispatches_nothing (vs_bytecode_cache_at u)).
Proof.
  repeat split; intros u;
    unfold gs_bytecode_cache_at, ps_bytecode_cache_at, vs_bytecode_cache_at;
    repeat dispatches_nothing_step.
Qed.

Lemma dispatches_nothing_OpenAndRead {UidType : Type}
    (file : State -> list (UidType * D3DBlob)) (cache_at : UidType -> M EntryPtr) :
  (forall u, dispatches_nothing (cache_at u)) ->
  dispatches_nothing (OpenAndRead file (ShaderCacheInserter_Read cache_at)).
Proof.
  intros Hat. unfold OpenAndRead, ShaderCacheInserter_Read.
  repeat lazymatch goal with
         | |- dispatches_nothing (InsertByteCode _ _ _) =>
             apply dispatches_nothing_InsertByteCode, Hat
         | |- _ => dispatches_nothing_step
         end.
Qed.

Lemma dispatches_nothing_Init : dispatches_nothing Init.
Proof.
  destruct dispatches_nothing_cache_at as (Hgs & Hps & Hvs).
  unfold Init, Clear, unlock.
  repeat lazymatch goal with
         | |- dispatches_nothing (OpenAndRead _ _) =>
             first [ apply dispatches_nothing_OpenAndRead, Hgs
                   | apply dispatches_nothing_OpenAndRead, Hps
                   | apply dispatches_nothing_OpenAndRead, Hvs ]
         | |- dispatches_nothing (test_and_set _) => apply dispatches_nothing_test_and_set
         | |- _ => dispatches_nothing_step
         end.
Qed.

(** The cache after a replay, key by key. *)
Lemma lookup_replayed `{Countable K} (file : list (K * D3DBlob))
    (cache : gmap K ByteCodeCacheEntry) (uid : K) :
  replayed file cache !! uid =
  match persisted uid file with
  | Some blob => Some (inserted blob (cache !! uid))
  | None => cache !! uid
  end.
Proof.
  unfold replayed, persisted.
  induction file as [|[u b] file IH] using rev_ind; [reflexivity|].
  rewrite foldl_app, filter_app. cbn [foldl fst snd].
  rewrite filter_cons, filter_nil. cbn [fst].
  destruct (decide (u = uid)) as [->|Hne].
  - rewrite lookup_insert_eq, last_snoc. cbn. unfold inserted at 1. f_equal.
    rewrite IH. destruct (last (filter _ file)) as [[u' b']|]; reflexivity.
  - rewrite lookup_insert_ne by assumption. rewrite app_nil_r. apply IH.
Qed.

Lemma persisted_of_record `{EqDecision K} (uid : K) (blob : D3DBlob)
    (file : list (K * D3DBlob)) :
  (uid, blob) ∈ file -> exists last_blob, persisted uid file = Some last_blob /\
                                          (uid, last_blob) ∈ file.
Proof.
  intros Hin. unfold persisted.
  assert ((uid, blob) ∈ filter (fun r => fst r = uid) file) as Hf
    by (apply list_elem_of_filter; auto).
  destruct (last (filter (fun r => fst r = uid) file)) as [[u b]|] eqn:Hlast.
  - apply last_Some in Hlast as [l' Hl'].
    assert ((u, b) ∈ filter (fun r => fst r = uid) file) as Hub
      by (rewrite Hl'; apply elem_of_app; right; constructor).
    apply list_elem_of_filter in Hub as [Hu Hub]. cbn in Hu. subst u.
    exists b. split; [reflexivity | assumption].
  - apply last_None in Hlast. rewrite Hlast in Hf. inversion Hf.
Qed.

Lemma alter_inserted `{Countable K} (uid : K) (blob : D3DBlob)
    (cache : gmap K ByteCodeCacheEntry) :
  alter (set_m_initialized true) uid
    (alter (set_m_compiled true) uid
       (alter (set_BytecodeLength (Size blob)) uid
          (alter (set_pShaderBytecode (Some (Data blob))) uid (subscript uid cache)))) =
  <[uid := inserted blob (cache !! uid)]> cache.
Proof.
  apply map_eq. intros uid'. destruct (decide (uid = uid')) as [<-|Huid].
  - rewrite lookup_insert_eq, !lookup_alter_eq, subscript_lookup. reflexivity.
  - rewrite lookup_insert_ne, !lookup_alter_ne by assumption.
    apply subscript_lookup_ne, Huid.
Qed.

(** Normalises projections of updated states. *)
Ltac state_simpl :=
  cbn [s_current_primitive_topology s_pass_entry gs_bytecode_cache ps_bytecode_cache
       vs_bytecode_cache s_shader_blob_list s_gs_disk_cache s_ps_disk_cache s_vs_disk_cache
       s_last_geometry_shader_bytecode s_last_pixel_shader_bytecode
       s_last_vertex_shader_bytecode s_last_geometry_shader_uid s_last_pixel_shader_uid
       s_last_vertex_shader_uid s_last_cpu_geometry_shader_uid s_last_cpu_pixel_shader_uid
       s_last_cpu_vertex_shader_uid s_compiler m_dirty_pso stats gs_num_failures
       ps_num_failures vs_num_failures dump_files alerts g_Config g_ActiveConfig
       set_s_current_primitive_topology set_s_pass_entry set_gs_bytecode_cache
       set_ps_bytecode_cache set_vs_bytecode_cache set_s_shader_blob_list set_s_gs_disk_cache
       set_s_ps_disk_cache set_s_vs_disk_cache set_s_last_geometry_shader_bytecode
       set_s_last_pixel_shader_bytecode set_s_last_vertex_shader_bytecode
       set_s_last_geometry_shader_uid set_s_last_pixel_shader_uid set_s_last_vertex_shader_uid
       set_s_last_cpu_geometry_shader_uid set_s_last_cpu_pixel_shader_uid
       set_s_last_cpu_vertex_shader_uid set_s_compiler set_m_dirty_pso set_stats
       set_gs_num_failures set_ps_num_failures set_vs_num_failures set_dump_files set_alerts
       set_g_Config set_g_ActiveConfig fst snd store].

Ltac read_run :=
  unfold ShaderCacheInserter_Read, InsertByteCode, gs_bytecode_cache_at, ps_bytecode_cache_at,
    vs_bytecode_cache_at, test_and_set, lock, unlock, exec, bind, modify, emit, gets, ret;
  state_simpl; rewrite take_ge by reflexivity;
  rewrite alter_inserted; reflexivity.

Lemma exec_Read_gs (uid : GeometryShaderUid) (value : list u8) (s : State) :
  exec (ShaderCacheInserter_Read gs_bytecode_cache_at uid value (length value)) s =
  set_gs_bytecode_cache (<[uid := inserted value (gs_bytecode_cache s !! uid)]>
                           (gs_bytecode_cache s))
    (set_s_shader_blob_list (s_shader_blob_list s ++ [value]) s).
Proof. read_run. Qed.

Lemma exec_Read_ps (uid : PixelShaderUid) (value : list u8) (s : State) :
  exec (ShaderCacheInserter_Read ps_bytecode_cache_at uid value (length value)) s =
  set_ps_bytecode_cache (<[uid := inserted value (ps_bytecode_cache s !! uid)]>
                           (ps_bytecode_cache s))
    (set_s_shader_blob_list (s_shader_blob_list s ++ [value]) s).
Proof. read_run. Qed.

Lemma exec_Read_vs (uid : VertexShaderUid) (value : list u8) (s : State) :
  exec (ShaderCacheInserter_Read vs_bytecode_cache_at uid value (length value)) s =
  set_vs_bytecode_cache (<[uid := inserted value (vs_bytecode_cache s !! uid)]>
                           (vs_bytecode_cache s))
    (set_s_shader_blob_list (s_shader_blob_list s ++ [value]) s).
Proof. read_run. Qed.

Ltac replay_run exec_Read :=
  let s := fresh "s" in
  let file := fresh "file" in
  intros file;
  induction file as [|[?u ?b] file IH]; intros s;
  [ destruct s; unfold exec, replayed; cbn [for_each ret fst snd foldl map];
    state_simpl; rewrite app_nil_r; reflexivity
  | rewrite exec_for_each_cons; cbn [fst snd]; rewrite exec_Read, IH;
    unfold replayed; cbn [foldl map fst snd]; state_simpl;
    rewrite <- app_assoc; reflexivity ].

Lemma exec_replay_gs :
  forall (file : list (GeometryShaderUid * D3DBlob)) (s : State),
  exec (for_each file (fun r => ShaderCacheInserter_Read gs_bytecode_cache_at
                                  (fst r) (snd r) (length (snd r)))) s =
  set_gs_bytecode_cache (replayed file (gs_bytecode_cache s))
    (set_s_shader_blob_list (s_shader_blob_list s ++ map snd file) s).
Proof. replay_run exec_Read_gs. Qed.

Lemma exec_replay_ps :
  forall (file : list (PixelShaderUid * D3DBlob)) (s : State),
  exec (for_each file (fun r => ShaderCacheInserter_Read ps_bytecode_cache_at
                                  (fst r) (snd r) (length (snd r)))) s =
  set_ps_bytecode_cache (replayed file (ps_bytecode_cache s))
    (set_s_shader_blob_list (s_shader_blob_list s ++ map snd file) s).
Proof. replay_run exec_Read_ps. Qed.

Lemma exec_replay_vs :
  forall (file : list (VertexShaderUid * D3DBlob)) (s : State),
  exec (for_each file (fun r => ShaderCacheInserter_Read vs_bytecode_cache_at
                                  (fst r) (snd r) (length (snd r)))) s =
  set_vs_bytecode_cache (replayed file (vs_bytecode_cache s))
    (set_s_shader_blob_list (s_shader_blob_list s ++ map snd file) s).
Proof. replay_run exec_Read_vs. Qed.

Lemma exec_OpenAndRead {UidType : Type} (file : State -> list (UidType * D3DBlob))
    (reader_Read : UidType -> list u8 -> nat -> M unit) (s : State) :
  exec (OpenAndRead file reader_Read) s =
  exec (for_each (file s) (fun r => reader_Read (fst r) (snd r) (length (snd r)))) s.
Proof. unfold OpenAndRead. rewrite exec_bind. reflexivity. Qed.

(** The state [Init] leaves: the passthrough entry is marked compiled and
    initialized, no entry is active, the memo slots hold the null uids, and
    each cache holds the replay of its file. Setting [bEnableShaderDebugging]
    changes nothing of this: [Clear] does nothing. *)
Lemma Init_state (s : State) :
  let s' := exec Init s in
  gs_bytecode_cache s' = replayed (s_gs_disk_cache s) (gs_bytecode_cache s) /\
  ps_bytecode_cache s' = replayed (s_ps_disk_cache s) (ps_bytecode_cache s) /\
  vs_bytecode_cache s' = replayed (s_vs_disk_cache s) (vs_bytecode_cache s) /\
  m_compiled (s_pass_entry s') = true /\
  m_initialized (s_pass_entry s') = true /\
  s_last_geometry_shader_bytecode s' = None /\
  s_last_pixel_shader_bytecode s' = None /\
  s_last_vertex_shader_bytecode s' = None /\
  s_gs_disk_cache s' = s_gs_disk_cache s /\
  s_ps_disk_cache s' = s_ps_disk_cache s /\
  s_vs_disk_cache s' = s_vs_disk_cache s.
Proof.
  cbn zeta. unfold Init, Clear, unlock.
  rewrite !exec_bind, !exec_OpenAndRead, exec_replay_vs, exec_replay_ps, exec_replay_gs.
  cbn [exec result modify emit gets ret bind test_and_set when fst snd].
  repeat match goal with
         | |- context [when ?b _] => destruct b; cbn [exec when ret fst snd]
         end.
  all: state_simpl; repeat split; reflexivity.
Qed.

Lemma replayed_record `{Countable K} (file : list (K * D3DBlob))
    (cache : gmap K ByteCodeCacheEntry) (uid : K) (blob : D3DBlob) :
  (uid, blob) ∈ file ->
  exists last_blob,
    persisted uid file = Some last_blob /\ (uid, last_blob) ∈ file /\
    replayed file cache !! uid = Some (inserted last_blob (cache !! uid)).
Proof.
  intros Hin. destruct (persisted_of_record uid blob file Hin) as (last_blob & Hlast & Hin').
  exists last_blob. rewrite lookup_replayed, Hlast. auto.
Qed.

Lemma no_dispatch_once_initialized (cs : list Step) (p : EntryPtr) (s : State) :
  initialized p s = true ->
  occurrences (EvCompileShaderAsync p) (events (steps cs) s) = 0.
Proof.
  intros Hp. rewrite dispatches_are_first_tests.
  pose proof (first_test_bound cs p s) as Hbound. rewrite Hp in Hbound. lia.
Qed.

Lemma handler_preserved_steps (cs : list Step) (s : State) :
  Forall (fun c => is_handler_call c = true) cs -> handler_preserved s (exec (steps cs) s).
Proof.
  intros Hcs. revert s. induction Hcs as [|c cs Hc Hcs IH]; intros s.
  - apply handler_preserved_refl.
  - rewrite exec_steps_cons. eapply handler_preserved_trans; [|apply IH].
    apply handler_preserved_step, Hc.
Qed.

Lemma recovered_intro (p : EntryPtr) (blob : D3DBlob) (old : option ByteCodeCacheEntry)
    (s : State) :
  load p s = inserted blob old -> recovered p blob s.
Proof.
  intros Hload. unfold recovered, compiled, initialized. rewrite Hload.
  split; [reflexivity | split; [reflexivity | split; [reflexivity | split]]].
  - intros cs Hcs. split.
    + destruct (handler_preserved_steps cs s Hcs)
        as (_ & _ & _ & _ & _ & _ & _ & _ & _ & _ & _ & _ & _ & Hb).
      rewrite Hb, Hload. reflexivity.
    + destruct (handler_preserved_steps cs s Hcs)
        as (_ & _ & _ & _ & _ & _ & _ & _ & _ & _ & _ & _ & Hc & _).
      unfold compiled in Hc. rewrite Hc, Hload. reflexivity.
  - intros cs. apply no_dispatch_once_initialized.
    unfold initialized. rewrite Hload. reflexivity.
Qed.

(** C6. Every record that [Init] replays from the cache file of a stage is
    inserted into the cache of that stage with its bytes published, the
    compiled flag set and the one-shot flag set. After [Init], the entry of
    every uid that has a record in the file is compiled and initialized and
    holds the bytes last persisted for the uid; the by-uid accessor returns
    them; handler calls leave them in place; and no later sequence of steps
    dispatches a compile for that uid. [Init] itself dispatches nothing. *)
Theorem replayed_records_are_compiled_and_never_dispatched (s : State) :
  let s' := exec Init s in
  (forall uid value s0,
     gs_bytecode_cache
       (exec (ShaderCacheInserter_Read gs_bytecode_cache_at uid value (length value)) s0)
       !! uid = Some (inserted value (gs_bytecode_cache s0 !! uid))) /\
  (forall uid value s0,
     ps_bytecode_cache
       (exec (ShaderCacheInserter_Read ps_bytecode_cache_at uid value (length value)) s0)
       !! uid = Some (inserted value (ps_bytecode_cache s0 !! uid))) /\
  (forall uid value s0,
     vs_bytecode_cache
       (exec (ShaderCacheInserter_Read vs_bytecode_cache_at uid value (length value)) s0)
       !! uid = Some (inserted value (vs_bytecode_cache s0 !! uid))) /\
  (forall uid blob, (uid, blob) ∈ s_gs_disk_cache s ->
     exists last_blob,
       persisted uid (s_gs_disk_cache s) = Some last_blob /\
       (uid, last_blob) ∈ s_gs_disk_cache s /\
       is_Some (gs_bytecode_cache s' !! uid) /\
       recovered (addr_gs uid) last_blob s' /\
       result (GetGeometryShaderFromUid uid) s' = published last_blob) /\
  (forall uid blob, (uid, blob) ∈ s_ps_disk_cache s ->
     exists last_blob,
       persisted uid (s_ps_disk_cache s) = Some last_blob /\
       (uid, last_blob) ∈ s_ps_disk_cache s /\
       is_Some (ps_bytecode_cache s' !! uid) /\
       recovered (addr_ps uid) last_blob s' /\
       result (GetPixelShaderFromUid uid) s' = published last_blob) /\
  (forall uid blob, (uid, blob) ∈ s_vs_disk_cache s ->
     exists last_blob,
       persisted uid (s_vs_disk_cache s) = Some last_blob /\
       (uid, last_blob) ∈ s_vs_disk_cache s /\
       is_Some (vs_bytecode_cache s' !! uid) /\
       recovered (addr_vs uid) last_blob s' /\
       result (GetVertexShaderFromUid uid) s' = published last_blob) /\
  dispatches (events Init s) = [] /\
  in_flight (s_compiler s') = in_flight (s_compiler s).
Proof.
  intros s'.
  destruct (Init_state s) as (Hgs & Hps & Hvs & _). fold s' in Hgs, Hps, Hvs.
  destruct (dispatches_nothing_Init s) as (Hdisp & Hfl).
  split; [|split; [|split; [|split; [|split; [|split; [|split; assumption]]]]]].
  - intros uid value s0. rewrite exec_Read_gs. state_simpl. apply lookup_insert_eq.
  - intros uid value s0. rewrite exec_Read_ps. state_simpl. apply lookup_insert_eq.
  - intros uid value s0. rewrite exec_Read_vs. state_simpl. apply lookup_insert_eq.
  - intros uid blob Hin.
    destruct (replayed_record _ (gs_bytecode_cache s) uid blob Hin) as (b & Hb & Hin' & Hl).
    rewrite <- Hgs in Hl. exists b.
    assert (Hload : load (addr_gs uid) s' = inserted b (gs_bytecode_cache s !! uid))
      by (cbn [load]; rewrite Hl; reflexivity).
    split; [assumption | split; [assumption | split; [eauto | split;
      [eapply recovered_intro, Hload |]]]].
    unfold GetGeometryShaderFromUid, gs_bytecode_cache_at, result, bind, modify, emit,
      gets, ret; state_simpl; cbn [load]; state_simpl.
    rewrite subscript_lookup, Hl. reflexivity.
  - intros uid blob Hin.
    destruct (replayed_record _ (ps_bytecode_cache s) uid blob Hin) as (b & Hb & Hin' & Hl).
    rewrite <- Hps in Hl. exists b.
    assert (Hload : load (addr_ps uid) s' = inserted b (ps_bytecode_cache s !! uid))
      by (cbn [load]; rewrite Hl; reflexivity).
    split; [assumption | split; [assumption | split; [eauto | split;
      [eapply recovered_intro, Hload |]]]].
    unfold GetPixelShaderFromUid, ps_bytecode_cache_at, result, bind, modify, emit,
      gets, ret; state_simpl; cbn [load]; state_simpl.
    rewrite subscript_lookup, Hl. reflexivity.
  - intros uid blob Hin.
    destruct (replayed_record _ (vs_bytecode_cache s) uid blob Hin) as (b & Hb & Hin' & Hl).
    rewrite <- Hvs in Hl. exists b.
    assert (Hload : load (addr_vs uid) s' = inserted b (vs_bytecode_cache s !! uid))
      by (cbn [load]; rewrite Hl; reflexivity).
    split; [assumption | split; [assumption | split; [eauto | split;
      [eapply recovered_intro, Hload |]]]].
    unfold GetVertexShaderFromUid, vs_bytecode_cache_at, result, bind, modify, emit,
      gets, ret; state_simpl; cbn [load]; state_simpl.
    rewrite subscript_lookup, Hl. reflexivity.
Qed.

(** ** C8: [TestShaders] *)

Lemma emits_ret {A : Type} (P : Event -> Prop) (a : A) : emits P (ret a).
Proof. intros s. constructor. Qed.

Lemma emits_gets {A : Type} (P : Event -> Prop) (f : State -> A) : emits P (gets f).
Proof. intros s. constructor. Qed.

Lemma emits_modify (P : Event -> Prop) (f : State -> State) : emits P (modify f).
Proof. intros s. constructor. Qed.

Lemma emits_emit (P : Event -> Prop) (e : Event) : P e -> emits P (emit e).
Proof. intros He s. constructor; [assumption | constructor]. Qed.

Lemma emits_bind {A B : Type} (P : Event -> Prop) (m : M A) (k : A -> M B) :
  emits P m -> (forall a, emits P (k a)) -> emits P (bind m k).
Proof. intros Hm Hk s. rewrite events_bind. apply Forall_app. split; [apply Hm | apply Hk]. Qed.

Lemma emits_when (P : Event -> Prop) (b : bool) (m : M unit) : emits P m -> emits P (when b m).
Proof. destruct b; [auto | intros _; apply emits_ret]. Qed.

Lemma emits_for_each {A : Type} (P : Event -> Prop) (l : list A) (body : A -> M unit) :
  (forall x, emits P (body x)) -> emits P (for_each l body).
Proof.
  intros Hbody. induction l as [|x l IH]; cbn [for_each]; [apply emits_ret|].
  apply emits_bind; auto.
Qed.

Ltac emits_step :=
  lazymatch goal with
  | |- emits _ (bind _ _) => apply emits_bind; [|intros ?]
  | |- emits _ (ret _) => apply emits_ret
  | |- emits _ (gets _) => apply emits_gets
  | |- emits _ (modify _) => apply emits_modify
  | |- emits _ (when _ _) => apply emits_when
  | |- emits _ (for_each _ _) => apply emits_for_each; intros ?
  | |- emits is_append (emit (EvDiskCacheAppend ?p)) => apply emits_emit; exists p; reflexivity
  end.

(** A completion handler emits nothing but appends to a cache file. *)
Lemma emits_call_ResultHandler (done : ShaderCompilerWorkUnit * CompileOutput) :
  emits is_append (call_ResultHandler done).
Proof.
  destruct done as [wunit out]. unfold call_ResultHandler.
  destruct (ResultHandler wunit) as [[uid entry|uid entry|uid entry]|]; [| | |apply emits_ret].
  all: unfold HandleGSUIDChange_ResultHandler, HandlePSUIDChange_ResultHandler,
         HandleVSUIDChange_ResultHandler, s_gs_disk_cache_Append, s_ps_disk_cache_Append,
         s_vs_disk_cache_Append, PushByteCode, write_file, PanicAlert; destruct out.
  all: repeat emits_step.
Qed.

(** A drain is one [ProcCompilationResults] event followed by the appends of
    the completion handlers. *)
Lemma events_ProcCompilationResults (s : State) :
  exists appends,
    events ProcCompilationResults s = EvProcCompilationResults :: appends /\
    Forall is_append appends.
Proof.
  unfold ProcCompilationResults. rewrite events_bind, events_bind, events_bind.
  eexists. split; [reflexivity|]. cbn [app].
  apply (emits_for_each is_append), emits_call_ResultHandler.
Qed.

Lemma drains_appends (t : list Event) : Forall is_append t -> drains t = 0 /\ yields t = 0.
Proof.
  intros Ht. unfold drains, occurrences, yields.
  induction Ht as [|e t [p ->] Ht [IH1 IH2]]; [split; reflexivity|].
  rewrite !filter_cons, !decide_False by (cbn; congruence). auto.
Qed.

Lemma drains_ProcCompilationResults (s : State) :
  drains (events ProcCompilationResults s) = 1 /\
  yields (events ProcCompilationResults s) = 0.
Proof.
  destruct (events_ProcCompilationResults s) as (appends & -> & Happ).
  destruct (drains_appends appends Happ) as [Hd Hy].
  unfold drains, occurrences, yields in *.
  rewrite !filter_cons, decide_True, decide_False by (cbn; congruence).
  cbn [length]. rewrite Hd, Hy. auto.
Qed.

Lemma drains_app (t1 t2 : list Event) : drains (t1 ++ t2) = drains t1 + drains t2.
Proof. apply occurrences_app. Qed.

Lemma yields_app (t1 t2 : list Event) : yields (t1 ++ t2) = yields t1 + yields t2.
Proof. unfold yields. rewrite filter_app, length_app. reflexivity. Qed.

(** One iteration of the loop of [TestShaders]: the compiler threads finish
    some units, then the completions are drained. *)
Lemma control_preserved_iteration (done : list nat) (s : State) :
  control_preserved s (exec ProcCompilationResults (workers_finish done s)).
Proof.
  eapply control_preserved_trans; [apply control_preserved_workers_finish|].
  apply quiet_ProcCompilationResults.
Qed.





Lemma all_active_preserved (s s' : State) :
  control_preserved s s' -> all_active_bound s' = all_active_bound s.
Proof.
  intros (Hg & Hp & Hv & _). unfold all_active_bound. rewrite Hg, Hp, Hv. reflexivity.
Qed.

Lemma TestShaders_unbound (fuel : nat) (finished : nat -> list nat) (s : State) :
  all_active_bound s = false ->
  TestShaders fuel finished s = Some (false, s, []) /\ all_active_compiled s = false.
Proof.
  unfold TestShaders, all_active_bound, all_active_compiled.
  destruct (s_last_geometry_shader_bytecode s), (s_last_pixel_shader_bytecode s),
    (s_last_vertex_shader_bytecode s); try discriminate; auto.
Qed.

Lemma TestShaders_bound (s : State) :
  all_active_bound s = true ->
  exists g p v,
    s_last_geometry_shader_bytecode s = Some g /\
    s_last_pixel_shader_bytecode s = Some p /\
    s_last_vertex_shader_bytecode s = Some v /\
    all_active_compiled s = active_compiled g p v s /\
    forall fuel finished,
      TestShaders fuel finished s = TestShaders_loop fuel finished 0 g p v s.
Proof.
  unfold TestShaders, all_active_bound, all_active_compiled.
  destruct (s_last_geometry_shader_bytecode s) as [g|],
    (s_last_pixel_shader_bytecode s) as [p|],
    (s_last_vertex_shader_bytecode s) as [v|]; try discriminate.
  intros _. exists g, p, v. auto.
Qed.


(** ** C3 and C5: what holds in general *)

(** A passthrough geometry uid: the handler binds the passthrough entry and
    does nothing else, whatever the context of the call. No cache is looked
    up, nothing is dispatched, nothing is appended to a cache file. *)
Lemma passthrough_binds_the_passthrough_entry (gs_uid : GeometryShaderUid)
    (gs_primitive_type components : u32) (xfr : XFMemory) (on_gpu_thread : bool) (s : State) :
  IsPassthrough gs_uid = true ->
  let call := HandleGSUIDChange gs_uid gs_primitive_type components xfr on_gpu_thread in
  events call s = [] /\
  s_last_geometry_shader_bytecode (exec call s) = Some addr_s_pass_entry /\
  gs_bytecode_cache (exec call s) = gs_bytecode_cache s /\
  s_gs_disk_cache (exec call s) = s_gs_disk_cache s /\
  s_compiler (exec call s) = s_compiler s.
Proof.
  intros Hpass call. unfold exec, events. subst call.
  rewrite HandleGSUIDChange_passthrough by assumption. repeat split.
Qed.





(* ===================================================================== *)
(** * Publication, persistence and restart                                *)
(* ===================================================================== *)

(** ** Entries behind pointers *)

Lemma load_store (p : EntryPtr) (f : ByteCodeCacheEntry -> ByteCodeCacheEntry) (s : State) :
  present p s -> load p (store p f s) = f (load p s).
Proof.
  destruct p; cbn; intros Hp; try reflexivity.
  all: rewrite lookup_alter_eq; destruct Hp as [e ->]; reflexivity.
Qed.

Lemma load_store_ne (p q : EntryPtr) (f : ByteCodeCacheEntry -> ByteCodeCacheEntry)
    (s : State) :
  p <> q -> load q (store p f s) = load q s.
Proof.
  intros Hne. destruct p, q; cbn; try reflexivity; try congruence.
  all: rewrite lookup_alter_ne; [reflexivity | congruence].
Qed.

Lemma present_store (p q : EntryPtr) (f : ByteCodeCacheEntry -> ByteCodeCacheEntry)
    (s : State) :
  present q (store p f s) <-> present q s.
Proof.
  destruct p, q; cbn; try tauto.
  all: rewrite <- !elem_of_dom, dom_alter_L; tauto.
Qed.

Lemma persisted_snoc `{EqDecision K} (uid uid' : K) (blob : D3DBlob)
    (file : list (K * D3DBlob)) :
  persisted uid' (file ++ [(uid, blob)]) =
  if decide (uid = uid') then Some blob else persisted uid' file.
Proof.
  unfold persisted. rewrite filter_app, filter_cons, filter_nil. cbn [fst].
  destruct (decide (uid = uid')) as [->|Hne].
  - rewrite last_snoc. reflexivity.
  - rewrite app_nil_r. reflexivity.
Qed.

Ltac map_cases :=
  repeat match goal with
         | |- context [alter _ ?u _ !! ?u] => rewrite lookup_alter_eq
         | |- context [alter _ ?u _ !! ?u'] =>
             destruct (decide (u = u')) as [->|?];
               [rewrite !lookup_alter_eq | rewrite !lookup_alter_ne by assumption]
         end.

Lemma succeeded_completion (wunit : ShaderCompilerWorkUnit)
    (shaderbytecode : D3DBlob) (record entry : EntryPtr) (s : State) :
  handler_of wunit = Some (record, entry) ->
  present entry s ->
  let done := call_ResultHandler (wunit, CompileSucceeded shaderbytecode) in
  let s' := exec done s in
  m_shader_bytecode (load entry s') = published shaderbytecode /\
  compiled entry s' = true /\
  persisted_at record s' = Some shaderbytecode /\
  events done s = [EvDiskCacheAppend record] /\
  s_shader_blob_list s' = s_shader_blob_list s ++ [shaderbytecode] /\
  (forall q, initialized q s' = initialized q s) /\
  (forall q, q <> entry -> load q s' = load q s) /\
  (forall q, q <> record -> persisted_at q s' = persisted_at q s) /\
  (forall q, present q s' <-> present q s) /\
  dump_files s' = dump_files s /\
  alerts s' = alerts s.
Proof.
  intros Hh Hp done s'. subst done s'.
  unfold handler_of in Hh. unfold call_ResultHandler.
  destruct (ResultHandler wunit) as [[gs_uid e|ps_uid e|vs_uid e]|]; [| | |discriminate];
    injection Hh as <- <-.
  all: unfold HandleGSUIDChange_ResultHandler, HandlePSUIDChange_ResultHandler,
         HandleVSUIDChange_ResultHandler, s_gs_disk_cache_Append, s_ps_disk_cache_Append,
         s_vs_disk_cache_Append, PushByteCode, compiled, initialized,
         exec, events, bind, modify, emit, gets, ret;
       cbn [fst snd app];
       destruct DEBUG_BUILD, (bEnableShaderDebugging _); cbn [andb when ret modify fst snd app].
  all: destruct e; state_simpl; cbn [load persisted_at present] in *; state_simpl.
  all: repeat match goal with |- _ /\ _ => split end; try reflexivity.
  all: try (rewrite persisted_snoc, decide_True by reflexivity; reflexivity).
  all: try (intros q; destruct q; try intros Hq; cbn [load present persisted_at]; state_simpl;
            try tauto; try reflexivity;
            try (rewrite <- !elem_of_dom, !dom_alter_L; tauto);
            try (rewrite persisted_snoc, decide_False by congruence; reflexivity)).
  all: map_cases; try congruence.
  all: try (destruct Hp as [x ->]); try reflexivity.
  all: try match goal with
           | |- context [default _ (_ <$> ?o)] => destruct o; reflexivity
           end.
Qed.

(** A completion that succeeded: the handler appends one record with the
    bytes the compiler produced to the cache file of its stage, publishes
    the same bytes to its entry and marks the entry compiled. It touches no
    other entry, no one-shot flag and no other record; it writes no dump
    file and raises no alert. *)
Theorem successful_compile_publishes_and_persists (wunit : ShaderCompilerWorkUnit)
    (shaderbytecode : D3DBlob) (record entry : EntryPtr) (s : State) :
  handler_of wunit = Some (record, entry) ->
  present entry s ->
  let done := call_ResultHandler (wunit, CompileSucceeded shaderbytecode) in
  let s' := exec done s in
  m_shader_bytecode (load entry s') = published shaderbytecode /\
  compiled entry s' = true /\
  persisted_at record s' = Some shaderbytecode /\
  events done s = [EvDiskCacheAppend record] /\
  s_shader_blob_list s' = s_shader_blob_list s ++ [shaderbytecode] /\
  (forall q, initialized q s' = initialized q s) /\
  (forall q, q <> entry -> load q s' = load q s) /\
  (forall q, q <> record -> persisted_at q s' = persisted_at q s) /\
  (forall q, present q s' <-> present q s) /\
  dump_files s' = dump_files s /\
  alerts s' = alerts s.
Proof. exact (succeeded_completion wunit shaderbytecode record entry s). Qed.

(** ** Statistics *)

Lemma statistics_track_refl (s : State) : statistics_track s s.
Proof.
  repeat split. exists []. rewrite app_nil_r. split; [reflexivity|]. cbn. lia.
Qed.

Lemma statistics_track_trans (s1 s2 s3 : State) :
  statistics_track s1 s2 -> statistics_track s2 s3 -> statistics_track s1 s3.
Proof.
  intros (Ha & Hb & Hc & Hd & l1 & Hl1 & Hn1) (Ha' & Hb' & Hc' & Hd' & l2 & Hl2 & Hn2).
  repeat split; try congruence.
  exists (l1 ++ l2). rewrite Hl2, Hl1, <- app_assoc. split; [reflexivity|].
  rewrite Hn2, Hn1, length_app. lia.
Qed.

Lemma statistics_track_same (s s' : State) :
  stats s' = stats s -> s_gs_disk_cache s' = s_gs_disk_cache s -> statistics_track s s'.
Proof.
  intros Hs Hf. unfold statistics_track. rewrite Hs, Hf. apply statistics_track_refl.
Qed.

Lemma tracks_ret {A : Type} (a : A) : tracks_statistics (ret a).
Proof. intros s. apply statistics_track_refl. Qed.

Lemma tracks_gets {A : Type} (f : State -> A) : tracks_statistics (gets f).
Proof. intros s. apply statistics_track_refl. Qed.

Lemma tracks_emit (e : Event) : tracks_statistics (emit e).
Proof. intros s. apply statistics_track_refl. Qed.

Lemma tracks_modify (f : State -> State) :
  (forall s, stats (f s) = stats s) ->
  (forall s, s_gs_disk_cache (f s) = s_gs_disk_cache s) ->
  tracks_statistics (modify f).
Proof. intros Hs Hf s. apply statistics_track_same; [apply Hs | apply Hf]. Qed.

Lemma tracks_bind {A B : Type} (m : M A) (k : A -> M B) :
  tracks_statistics m -> (forall a, tracks_statistics (k a)) -> tracks_statistics (bind m k).
Proof.
  intros Hm Hk s. rewrite exec_bind.
  eapply statistics_track_trans; [apply Hm | apply Hk].
Qed.

Lemma tracks_when (b : bool) (m : M unit) : tracks_statistics m -> tracks_statistics (when b m).
Proof. destruct b; [trivial | intros _; apply tracks_ret]. Qed.

Lemma tracks_for_each {A : Type} (l : list A) (body : A -> M unit) :
  (forall x, tracks_statistics (body x)) -> tracks_statistics (for_each l body).
Proof.
  intros Hbody. induction l as [|x l IH]; [apply tracks_ret|].
  cbn [for_each]. apply tracks_bind; [apply Hbody | intros _; exact IH].
Qed.

Ltac tracks_step :=
  lazymatch goal with
  | |- tracks_statistics (bind _ _) => apply tracks_bind; [|intros ?]
  | |- tracks_statistics (ret _) => apply tracks_ret
  | |- tracks_statistics (gets _) => apply tracks_gets
  | |- tracks_statistics (emit _) => apply tracks_emit
  | |- tracks_statistics (when _ _) => apply tracks_when
  | |- tracks_statistics (for_each _ _) => apply tracks_for_each; intros ?
  | |- tracks_statistics (modify (store ?p _)) =>
      apply tracks_modify; intros ?; destruct p; reflexivity
  | |- tracks_statistics (modify _) => apply tracks_modify; intros ?; reflexivity
  end.

Lemma tracks_PushByteCode (entry : EntryPtr) (shaderBuffer : D3DBlob) :
  tracks_statistics (PushByteCode entry shaderBuffer).
Proof. unfold PushByteCode. repeat tracks_step. Qed.

Lemma tracks_write_file (filename contents : string) :
  tracks_statistics (write_file filename contents).
Proof. unfold write_file. repeat tracks_step. Qed.

Lemma tracks_PanicAlert (format : string) (args : list VarArg) :
  tracks_statistics (PanicAlert format args).
Proof. unfold PanicAlert. repeat tracks_step. Qed.

Lemma tracks_call_ResultHandler (done : ShaderCompilerWorkUnit * CompileOutput) :
  tracks_statistics (call_ResultHandler done).
Proof.
  destruct done as [wunit out]. unfold call_ResultHandler.
  destruct (ResultHandler wunit) as [[gs_uid e|ps_uid e|vs_uid e]|]; [| | |apply tracks_ret].
  - unfold HandleGSUIDChange_ResultHandler. destruct out as [b|error].
    + intros s.
      unfold s_gs_disk_cache_Append, PushByteCode, exec, bind, modify, emit, gets, ret.
      cbn [fst snd app].
      destruct DEBUG_BUILD, (bEnableShaderDebugging _); cbn [andb when ret modify fst snd].
      all: destruct e; state_simpl; unfold statistics_track; state_simpl.
      all: repeat match goal with |- _ /\ _ => split end; try reflexivity.
      all: exists [(gs_uid, b)]; split; reflexivity.
    + repeat tracks_step; [apply tracks_write_file | apply tracks_PanicAlert].
  - unfold HandlePSUIDChange_ResultHandler, s_ps_disk_cache_Append. destruct out as [b|error].
    + repeat tracks_step. apply tracks_PushByteCode.
    + repeat tracks_step; [apply tracks_write_file | apply tracks_PanicAlert].
  - unfold HandleVSUIDChange_ResultHandler, s_vs_disk_cache_Append. destruct out as [b|error].
    + repeat tracks_step. apply tracks_PushByteCode.
    + repeat tracks_step; [apply tracks_write_file | apply tracks_PanicAlert].
Qed.

Lemma tracks_ProcCompilationResults : tracks_statistics ProcCompilationResults.
Proof. unfold ProcCompilationResults. repeat tracks_step. apply tracks_call_ResultHandler. Qed.

Lemma stats_worker_finish (i : nat) (s : State) :
  stats (worker_finish i s) = stats s /\
  s_gs_disk_cache (worker_finish i s) = s_gs_disk_cache s.
Proof. unfold worker_finish. destruct (in_flight (s_compiler s) !! i); split; reflexivity. Qed.

Ltac tracks_handler :=
  unfold gs_bytecode_cache_at, ps_bytecode_cache_at, vs_bytecode_cache_at, test_and_set,
    lock, unlock, CompileShaderAsync;
  repeat first
    [ tracks_step
    | match goal with
      | |- tracks_statistics (if ?b then _ else _) => destruct b
      end
    | progress cbn zeta ].

Lemma tracks_step_handler (c : Step) : tracks_statistics (step c).
Proof.
  destruct c as [u a b x thr|u a b x y thr|u b x y thr| |i]; cbn [step].
  - unfold HandleGSUIDChange. tracks_handler.
  - unfold HandlePSUIDChange. tracks_handler.
  - unfold HandleVSUIDChange. tracks_handler.
  - apply tracks_ProcCompilationResults.
  - intros s. rewrite exec_modify.
    apply statistics_track_same; apply stats_worker_finish.
Qed.

Lemma tracks_steps (cs : list Step) : tracks_statistics (steps cs).
Proof. unfold steps. apply tracks_for_each. apply tracks_step_handler. Qed.

(** The statistics of a run. The counters of the pixel and of the vertex
    stage are never written after [Init]: no run of handler calls, drains and
    compiler threads changes them, however many shaders it compiles.
    [numGeometryShadersCreated] counts the records appended to the geometry
    cache file. A geometry completion that succeeds sets
    [numGeometryShadersAlive] to the number of entries of the pixel cache. *)
Theorem statistics_count_geometry_completions_only (cs : list Step) (s : State) :
  let s' := exec (steps cs) s in
  numPixelShadersAlive (stats s') = numPixelShadersAlive (stats s) /\
  numPixelShadersCreated (stats s') = numPixelShadersCreated (stats s) /\
  numVertexShadersAlive (stats s') = numVertexShadersAlive (stats s) /\
  numVertexShadersCreated (stats s') = numVertexShadersCreated (stats s) /\
  (exists appended,
     s_gs_disk_cache s' = s_gs_disk_cache s ++ appended /\
     numGeometryShadersCreated (stats s') =
       (numGeometryShadersCreated (stats s) + Z.of_nat (length appended))%Z) /\
  (forall gs_uid entry wunit shaderbytecode s0,
     ResultHandler wunit = Some (GSResultHandler gs_uid entry) ->
     let s1 := exec (call_ResultHandler (wunit, CompileSucceeded shaderbytecode)) s0 in
     numGeometryShadersAlive (stats s1) = Z.of_nat (size (ps_bytecode_cache s1)) /\
     numGeometryShadersCreated (stats s1) = (numGeometryShadersCreated (stats s0) + 1)%Z).
Proof.
  cbn zeta. pose proof (tracks_steps cs s) as (Ha & Hb & Hc & Hd & He).
  repeat match goal with |- _ /\ _ => split end; try assumption.
  intros gs_uid entry wunit b s0 Hh.
  unfold call_ResultHandler. rewrite Hh.
  unfold HandleGSUIDChange_ResultHandler, s_gs_disk_cache_Append, PushByteCode,
    exec, bind, modify, emit, gets, ret.
  cbn [fst snd app].
  destruct DEBUG_BUILD, (bEnableShaderDebugging _); cbn [andb when ret modify fst snd].
  all: destruct entry; state_simpl; split; try reflexivity.
  all: rewrite <- !size_dom, !dom_alter_L; reflexivity.
Qed.

(** ** Shutdown and restart *)

Lemma worker_finish_compiler (i : nat) (s : State) :
  worker_finish i s = set_s_compiler (s_compiler (worker_finish i s)) s.
Proof.
  unfold worker_finish. destruct (in_flight (s_compiler s) !! i); [reflexivity|].
  destruct s; reflexivity.
Qed.

Lemma workers_finish_compiler (done : list nat) (s : State) :
  workers_finish done s = set_s_compiler (s_compiler (workers_finish done s)) s.
Proof.
  revert s. induction done as [|i done IH]; intros s.
  - destruct s; reflexivity.
  - unfold workers_finish in *. cbn [foldl].
    etransitivity; [apply IH|].
    generalize (s_compiler (foldl (fun s i => worker_finish i s) (worker_finish i s) done)).
    intros X. rewrite (worker_finish_compiler i s). destruct s; reflexivity.
Qed.

Lemma in_flight_workers_finish (n : nat) (s : State) :
  n = length (in_flight (s_compiler s)) ->
  in_flight (s_compiler (workers_finish (replicate n 0) s)) = [].
Proof.
  revert s. induction n as [|n IH]; intros s Hn.
  - cbn. destruct (in_flight (s_compiler s)); [reflexivity | discriminate].
  - unfold workers_finish in *. cbn [replicate foldl]. apply IH.
    unfold worker_finish. destruct (in_flight (s_compiler s)) as [|w l] eqn:Hl; [discriminate|].
    cbn. injection Hn as ->. reflexivity.
Qed.

Lemma exec_Shutdown (s : State) :
  exec Shutdown s =
  set_vs_bytecode_cache ∅
    (set_ps_bytecode_cache ∅
       (set_gs_bytecode_cache ∅
          (set_s_shader_blob_list []
             (workers_finish (replicate (length (in_flight (s_compiler s))) 0) s)))).
Proof. reflexivity. Qed.

Lemma events_Shutdown (s : State) : events Shutdown s = [].
Proof. reflexivity. Qed.

(** What [Init] leaves besides the caches: the memo slots hold the
    value-initialised uids, the blob list has one more blob per record of the
    three files, and the statistics count the entries of the caches. *)
Lemma Init_memo (s : State) :
  let s' := exec Init s in
  s_last_geometry_shader_uid s' = GeometryShaderUid_zero /\
  s_last_pixel_shader_uid s' = PixelShaderUid_zero /\
  s_last_vertex_shader_uid s' = VertexShaderUid_zero /\
  s_last_cpu_geometry_shader_uid s' = GeometryShaderUid_zero /\
  s_last_cpu_pixel_shader_uid s' = PixelShaderUid_zero /\
  s_last_cpu_vertex_shader_uid s' = VertexShaderUid_zero /\
  s_shader_blob_list s' =
    s_shader_blob_list s ++ map snd (s_gs_disk_cache s) ++ map snd (s_ps_disk_cache s) ++
    map snd (s_vs_disk_cache s) /\
  stats s' =
    {| numGeometryShadersAlive := Z.of_nat (size (gs_bytecode_cache s'));
       numGeometryShadersCreated := 0;
       numPixelShadersAlive := Z.of_nat (size (ps_bytecode_cache s'));
       numPixelShadersCreated := 0;
       numVertexShadersAlive := Z.of_nat (size (vs_bytecode_cache s'));
       numVertexShadersCreated := 0 |} /\
  s_compiler s' = s_compiler s /\
  s_current_primitive_topology s' = s_current_primitive_topology s /\
  m_dirty_pso s' = m_dirty_pso s /\
  g_Config s' = g_Config s /\
  g_ActiveConfig s' = g_ActiveConfig s.
Proof.
  cbn zeta. unfold Init, Clear, unlock.
  rewrite !exec_bind, !exec_OpenAndRead, exec_replay_vs, exec_replay_ps, exec_replay_gs.
  cbn [exec result modify emit gets ret bind test_and_set when fst snd].
  repeat match goal with
         | |- context [when ?b _] => destruct b; cbn [exec when ret fst snd]
         end.
  all: state_simpl; rewrite <- !app_assoc; repeat split; reflexivity.
Qed.

Lemma replayed_empty `{Countable K} (file : list (K * D3DBlob)) (uid : K) :
  replayed file ∅ !! uid = (fun blob => inserted blob None) <$> persisted uid file.
Proof.
  rewrite lookup_replayed, lookup_empty. destruct (persisted uid file); reflexivity.
Qed.


Lemma initialized_subscript_gs (u : GeometryShaderUid) (s : State) :
  m_initialized (default ByteCodeCacheEntry_ctor (subscript u (gs_bytecode_cache s) !! u)) =
  initialized (addr_gs u) s.
Proof. rewrite subscript_lookup. reflexivity. Qed.

Lemma initialized_subscript_ps (u : PixelShaderUid) (s : State) :
  m_initialized (default ByteCodeCacheEntry_ctor (subscript u (ps_bytecode_cache s) !! u)) =
  initialized (addr_ps u) s.
Proof. rewrite subscript_lookup. reflexivity. Qed.

Lemma initialized_subscript_vs (u : VertexShaderUid) (s : State) :
  m_initialized (default ByteCodeCacheEntry_ctor (subscript u (vs_bytecode_cache s) !! u)) =
  initialized (addr_vs u) s.
Proof. rewrite subscript_lookup. reflexivity. Qed.



Lemma present_control_preserved (p : EntryPtr) (s s' : State) :
  control_preserved s s' -> (present p s' <-> present p s).
Proof.
  intros Hc. destruct Hc as (_ & _ & _ & _ & _ & _ & _ & _ & _ & _ & _ & _ & Hg & Hp & Hv & _).
  destruct p; cbn; [tauto| | |]; rewrite <- !elem_of_dom; [rewrite Hg|rewrite Hp|rewrite Hv]; tauto.
Qed.



Lemma load_after_restart (p : EntryPtr) (s : State) :
  p <> addr_s_pass_entry ->
  load p (exec Init (exec Shutdown s)) =
  match persisted_at p (exec Shutdown s) with
  | Some blob => inserted blob None
  | None => ByteCodeCacheEntry_ctor
  end.
Proof.
  intros Hp. destruct (Init_state (exec Shutdown s)) as (Hg & Hps & Hv & _).
  destruct p as [|u|u|u]; [congruence| | |]; cbn [load persisted_at].
  - rewrite Hg, exec_Shutdown. state_simpl. rewrite replayed_empty.
    destruct (persisted u _); reflexivity.
  - rewrite Hps, exec_Shutdown. state_simpl. rewrite replayed_empty.
    destruct (persisted u _); reflexivity.
  - rewrite Hv, exec_Shutdown. state_simpl. rewrite replayed_empty.
    destruct (persisted u _); reflexivity.
Qed.


(** [Shutdown] empties the three caches and the blob list and waits for
    the compiler; it resets neither the active pointers nor the memo slots.
    A pointer that was bound to an element of a cache is still bound
    afterwards, to an element that no longer exists. *)
Theorem Shutdown_empties_the_caches_and_keeps_the_bindings (s : State) :
  let s' := exec Shutdown s in
  (gs_bytecode_cache s' = ∅ /\ ps_bytecode_cache s' = ∅ /\ vs_bytecode_cache s' = ∅) /\
  s_shader_blob_list s' = [] /\
  in_flight (s_compiler s') = [] /\
  (s_last_geometry_shader_bytecode s' = s_last_geometry_shader_bytecode s /\
   s_last_pixel_shader_bytecode s' = s_last_pixel_shader_bytecode s /\
   s_last_vertex_shader_bytecode s' = s_last_vertex_shader_bytecode s) /\
  (s_last_geometry_shader_uid s' = s_last_geometry_shader_uid s /\
   s_last_pixel_shader_uid s' = s_last_pixel_shader_uid s /\
   s_last_vertex_shader_uid s' = s_last_vertex_shader_uid s) /\
  (s_last_cpu_geometry_shader_uid s' = s_last_cpu_geometry_shader_uid s /\
   s_last_cpu_pixel_shader_uid s' = s_last_cpu_pixel_shader_uid s /\
   s_last_cpu_vertex_shader_uid s' = s_last_cpu_vertex_shader_uid s) /\
  s_pass_entry s' = s_pass_entry s /\
  (forall p, p <> addr_s_pass_entry -> ~ present p s') /\
  (forall p, p <> addr_s_pass_entry ->
     s_last_geometry_shader_bytecode s = Some p \/
     s_last_pixel_shader_bytecode s = Some p \/
     s_last_vertex_shader_bytecode s = Some p ->
     (s_last_geometry_shader_bytecode s' = Some p \/
      s_last_pixel_shader_bytecode s' = Some p \/
      s_last_vertex_shader_bytecode s' = Some p) /\ ~ present p s') /\
  events Shutdown s = [].
Proof.
  cbn zeta. rewrite exec_Shutdown.
  assert (Hnone : forall p, p <> addr_s_pass_entry ->
            ~ present p
                (set_vs_bytecode_cache ∅
                   (set_ps_bytecode_cache ∅
                      (set_gs_bytecode_cache ∅
                         (set_s_shader_blob_list []
                            (workers_finish
                               (replicate (length (in_flight (s_compiler s))) 0) s)))))).
  { intros p Hp. destruct p; [congruence| | |]; cbn [present]; state_simpl;
      rewrite lookup_empty; intros [e He]; discriminate. }
  state_simpl.
  repeat match goal with |- _ /\ _ => split end; try reflexivity;
    try (rewrite workers_finish_compiler; reflexivity).
  - apply in_flight_workers_finish. reflexivity.
  - exact Hnone.
  - intros p Hp Hb. split; [|apply Hnone; exact Hp].
    rewrite workers_finish_compiler. exact Hb.
Qed.


Lemma dispatches_step_lookup (c : Step) (p : EntryPtr) (s : State) :
  looked_up c = Some p ->
  dispatches (events (step c) s) = if initialized p s then [] else [EvCompileShaderAsync p].
Proof.
  intros Hc. destruct (events_step c s) as (Hev & _). rewrite Hc in Hev.
  rewrite Hev. apply dispatches_handler_events.
Qed.

Lemma looked_up_not_pass (c : Step) (p : EntryPtr) :
  looked_up c = Some p -> p <> addr_s_pass_entry.
Proof.
  destruct c; cbn [looked_up]; try discriminate; try (intros [= <-]; discriminate).
  destruct (IsPassthrough gs_uid); [discriminate | intros [= <-]; discriminate].
Qed.

(** A restart: [Init] after [Shutdown] finds empty caches and replays the
    three files into them. Each cache then holds exactly the uids that have
    a record, each compiled with the bytes of its last record; entries that
    were pending, or whose compilation had failed, are gone. Nothing is
    bound, the memo slots hold the value-initialised uids, and a handler
    call dispatches a compile exactly when its uid has no record. *)
Theorem Init_after_Shutdown_rebuilds_the_caches_from_the_files (s : State) :
  let down := exec Shutdown s in
  let s' := exec Init down in
  (forall uid, gs_bytecode_cache s' !! uid =
     (fun blob => inserted blob None) <$> persisted uid (s_gs_disk_cache down)) /\
  (forall uid, ps_bytecode_cache s' !! uid =
     (fun blob => inserted blob None) <$> persisted uid (s_ps_disk_cache down)) /\
  (forall uid, vs_bytecode_cache s' !! uid =
     (fun blob => inserted blob None) <$> persisted uid (s_vs_disk_cache down)) /\
  s_shader_blob_list s' =
    map snd (s_gs_disk_cache down) ++ map snd (s_ps_disk_cache down) ++
    map snd (s_vs_disk_cache down) /\
  (s_last_geometry_shader_bytecode s' = None /\
   s_last_pixel_shader_bytecode s' = None /\
   s_last_vertex_shader_bytecode s' = None) /\
  (s_last_geometry_shader_uid s' = GeometryShaderUid_zero /\
   s_last_pixel_shader_uid s' = PixelShaderUid_zero /\
   s_last_vertex_shader_uid s' = VertexShaderUid_zero /\
   s_last_cpu_geometry_shader_uid s' = GeometryShaderUid_zero /\
   s_last_cpu_pixel_shader_uid s' = PixelShaderUid_zero /\
   s_last_cpu_vertex_shader_uid s' = VertexShaderUid_zero) /\
  in_flight (s_compiler s') = [] /\
  (forall c p, looked_up c = Some p ->
     dispatches (events (step c) s') =
       match persisted_at p down with
       | Some _ => []
       | None => [EvCompileShaderAsync p]
       end).
Proof.
  cbn zeta.
  destruct (Init_state (exec Shutdown s)) as (Hg & Hp & Hv & _ & _ & Hbg & Hbp & Hbv & _).
  destruct (Init_memo (exec Shutdown s))
    as (Hug & Hup & Huv & Hcg & Hcp & Hcv & Hblobs & _ & Hcomp & _).
  repeat match goal with |- _ /\ _ => split end; try assumption.
  - intros uid. rewrite Hg, exec_Shutdown. state_simpl. apply replayed_empty.
  - intros uid. rewrite Hp, exec_Shutdown. state_simpl. apply replayed_empty.
  - intros uid. rewrite Hv, exec_Shutdown. state_simpl. apply replayed_empty.
  - rewrite Hcomp, exec_Shutdown. state_simpl. apply in_flight_workers_finish. reflexivity.
  - intros c p Hc. rewrite (dispatches_step_lookup c p) by exact Hc.
    unfold initialized. rewrite load_after_restart by (eapply looked_up_not_pass; exact Hc).
    destruct (persisted_at p (exec Shutdown s)); reflexivity.
Qed.


(* ===================================================================== *)
(** * Readiness, the first draw and the topology                          *)
(* ===================================================================== *)

(** ** Observations a computation preserves *)

Lemma preserves_ret {A B : Type} (f : State -> B) (a : A) : preserves f (ret a).
Proof. intros s. reflexivity. Qed.

Lemma preserves_gets {A B : Type} (f : State -> B) (g : State -> A) : preserves f (gets g).
Proof. intros s. reflexivity. Qed.

Lemma preserves_emit {B : Type} (f : State -> B) (e : Event) : preserves f (emit e).
Proof. intros s. reflexivity. Qed.

Lemma preserves_modify {B : Type} (f : State -> B) (g : State -> State) :
  (forall s, f (g s) = f s) -> preserves f (modify g).
Proof. intros Hg s. apply Hg. Qed.

Lemma preserves_bind {A A' B : Type} (f : State -> B) (m : M A) (k : A -> M A') :
  preserves f m -> (forall a, preserves f (k a)) -> preserves f (bind m k).
Proof. intros Hm Hk s. rewrite exec_bind, Hk, Hm. reflexivity. Qed.

Lemma preserves_when {B : Type} (f : State -> B) (b : bool) (m : M unit) :
  preserves f m -> preserves f (when b m).
Proof. destruct b; [trivial | intros _; apply preserves_ret]. Qed.

Lemma preserves_for_each {A B : Type} (f : State -> B) (l : list A) (body : A -> M unit) :
  (forall x, preserves f (body x)) -> preserves f (for_each l body).
Proof.
  intros Hbody. induction l as [|x l IH]; [apply preserves_ret|].
  cbn [for_each]. apply preserves_bind; [apply Hbody | intros _; exact IH].
Qed.

Ltac preserves_step :=
  lazymatch goal with
  | |- preserves _ (bind _ _) => apply preserves_bind; [|intros ?]
  | |- preserves _ (ret _) => apply preserves_ret
  | |- preserves _ (gets _) => apply preserves_gets
  | |- preserves _ (emit _) => apply preserves_emit
  | |- preserves _ (when _ _) => apply preserves_when
  | |- preserves _ (for_each _ _) => apply preserves_for_each; intros ?
  | |- preserves _ (modify (store ?p _)) =>
      apply preserves_modify; intros ?; destruct p; reflexivity
  | |- preserves _ (modify _) => apply preserves_modify; intros ?; reflexivity
  | |- preserves _ (if ?b then _ else _) => destruct b
  | |- preserves _ (match ?o with CompileSucceeded _ => _ | CompileFailed _ => _ end) =>
      destruct o
  | |- preserves _ (let _ := _ in _) => cbn zeta
  end.

(** Everything a call does to the state is made of the primitives above;
    an observation that none of a call's writes touches is preserved. *)
Ltac preserves_auto :=
  unfold HandleGSUIDChange, HandlePSUIDChange, HandleVSUIDChange, ProcCompilationResults,
    call_ResultHandler, HandleGSUIDChange_ResultHandler, HandlePSUIDChange_ResultHandler,
    HandleVSUIDChange_ResultHandler, s_gs_disk_cache_Append, s_ps_disk_cache_Append,
    s_vs_disk_cache_Append, PushByteCode, PanicAlert, write_file, check_uids,
    CompileShaderAsync, gs_bytecode_cache_at, ps_bytecode_cache_at, vs_bytecode_cache_at,
    test_and_set, lock, unlock;
  repeat first
    [ preserves_step
    | match goal with
      | |- preserves _ (let (_, _) := ?d in _) => destruct d
      | |- preserves _ (match ResultHandler ?w with _ => _ end) =>
          destruct (ResultHandler w) as [[? ?|? ?|? ?]|]
      end ].

Lemma topology_ProcCompilationResults :
  preserves s_current_primitive_topology ProcCompilationResults.
Proof. preserves_auto. Qed.

Lemma topology_step (c : Step) : preserves s_current_primitive_topology (step c).
Proof.
  destruct c; cbn [step]; [preserves_auto..|].
  intros s. rewrite exec_modify, worker_finish_compiler. reflexivity.
Qed.

Lemma topology_remembered (thr gc pc vc : bool)
    (gs_uid : GeometryShaderUid) (ps_uid : PixelShaderUid) (vs_uid : VertexShaderUid)
    (s : State) :
  s_current_primitive_topology (remembered thr gc pc vc gs_uid ps_uid vs_uid s) =
  s_current_primitive_topology s.
Proof. unfold remembered. destruct thr, gc, pc, vc; reflexivity. Qed.

Lemma topology_SetCurrentPrimitiveTopology (gs_primitive_type : u32) (s : State) :
  s_current_primitive_topology (exec (SetCurrentPrimitiveTopology gs_primitive_type) s) =
  default (s_current_primitive_topology s) (topology_of gs_primitive_type).
Proof.
  unfold SetCurrentPrimitiveTopology, topology_of.
  repeat case_bool_decide; reflexivity.
Qed.


Lemma topology_prologue (gs_primitive_type : u32) (on_gpu_thread : bool) (s : State) :
  s_current_primitive_topology
    (exec (bind (SetCurrentPrimitiveTopology gs_primitive_type)
                (fun _ => when on_gpu_thread ProcCompilationResults)) s) =
  default (s_current_primitive_topology s) (topology_of gs_primitive_type).
Proof.
  rewrite exec_bind.
  rewrite (preserves_when s_current_primitive_topology on_gpu_thread ProcCompilationResults
             topology_ProcCompilationResults).
  apply topology_SetCurrentPrimitiveTopology.
Qed.

Lemma topology_when_GS (changed : bool) (gs_uid : GeometryShaderUid)
    (gs_primitive_type components : u32) (xfr : XFMemory) (on_gpu_thread : bool) :
  preserves s_current_primitive_topology
    (when changed (HandleGSUIDChange gs_uid gs_primitive_type components xfr on_gpu_thread)).
Proof.
  apply preserves_when.
  exact (topology_step (StepGS gs_uid gs_primitive_type components xfr on_gpu_thread)).
Qed.

Lemma topology_when_PS (changed : bool) (ps_uid : PixelShaderUid)
    (ps_dst_alpha_mode : DSTALPHA_MODE) (components : u32) (xfr : XFMemory) (bpm : BPMemory)
    (on_gpu_thread : bool) :
  preserves s_current_primitive_topology
    (when changed
       (HandlePSUIDChange ps_uid ps_dst_alpha_mode components xfr bpm on_gpu_thread)).
Proof.
  apply preserves_when.
  exact (topology_step (StepPS ps_uid ps_dst_alpha_mode components xfr bpm on_gpu_thread)).
Qed.

Lemma topology_when_VS (changed : bool) (vs_uid : VertexShaderUid) (components : u32)
    (xfr : XFMemory) (bpm : BPMemory) (on_gpu_thread : bool) :
  preserves s_current_primitive_topology
    (when changed (HandleVSUIDChange vs_uid components xfr bpm on_gpu_thread)).
Proof.
  apply preserves_when.
  exact (topology_step (StepVS vs_uid components xfr bpm on_gpu_thread)).
Qed.

(** [PrepareShaders] records the topology of its primitive type before it
    compares any uid, and for whichever context calls it: the topology
    [GetCurrentPrimitiveTopology] returns afterwards is the one of the call,
    also when the three uids are the remembered ones and also when the call
    comes from an auxiliary context. A primitive type that is none of the
    three known ones leaves the recorded topology as it was. *)
Theorem PrepareShaders_records_the_topology_of_every_call (ps_dst_alpha_mode : DSTALPHA_MODE)
    (gs_primitive_type components : u32) (xfr : XFMemory) (bpm : BPMemory)
    (on_gpu_thread : bool) (s : State) :
  let s' := exec (PrepareShaders ps_dst_alpha_mode gs_primitive_type components xfr bpm
                    on_gpu_thread) s in
  GetCurrentPrimitiveTopology s' =
    match topology_of gs_primitive_type with
    | Some topology => topology
    | None => GetCurrentPrimitiveTopology s
    end.
Proof.
  cbn zeta. unfold GetCurrentPrimitiveTopology.
  transitivity (default (s_current_primitive_topology s) (topology_of gs_primitive_type));
    [|destruct (topology_of gs_primitive_type); reflexivity].
  pose proof (PrepareShaders_memo_miss ps_dst_alpha_mode gs_primitive_type components xfr bpm
                on_gpu_thread s) as Hmiss.
  cbn zeta in Hmiss.
  destruct (negb (bool_decide (GetGeometryShaderUid gs_primitive_type API_D3D11 xfr components
                                 ≠ memo_geometry on_gpu_thread s)) &&
            negb (bool_decide (GetPixelShaderUidD3D11 ps_dst_alpha_mode components xfr bpm
                                 ≠ memo_pixel on_gpu_thread s)) &&
            negb (bool_decide (GetVertexShaderUidD3D11 components xfr bpm
                                 ≠ memo_vertex on_gpu_thread s))) eqn:Hall.
  - apply andb_prop in Hall as [Hall Hv]. apply andb_prop in Hall as [Hg Hp].
    apply negb_true_iff in Hg, Hp, Hv.
    apply unchanged_uid in Hg, Hp, Hv.
    unfold exec at 1. rewrite PrepareShaders_memo_hit by assumption.
    apply topology_prologue.
  - specialize (Hmiss eq_refl). unfold exec at 1. rewrite Hmiss. cbn [fst snd].
    rewrite topology_when_VS, topology_when_PS, topology_when_GS.
    rewrite topology_remembered. apply topology_prologue.
Qed.


(** ** Readiness that never comes *)

Lemma workers_finish_idle (done : list nat) (s : State) :
  in_flight (s_compiler s) = [] -> workers_finish done s = s.
Proof.
  intros Hidle. unfold workers_finish. induction done as [|i done IH]; [reflexivity|].
  cbn [foldl]. unfold worker_finish at 2. rewrite Hidle, lookup_nil. exact IH.
Qed.

Lemma ProcCompilationResults_idle (s : State) :
  in_flight (s_compiler s) = [] -> completed (s_compiler s) = [] ->
  ProcCompilationResults s = (tt, s, [EvProcCompilationResults]).
Proof.
  intros Hin Hdone. unfold ProcCompilationResults, bind, emit, gets, modify.
  rewrite Hin, Hdone. cbn [for_each ret app].
  destruct s as [? ? ? ? ? ? ? ? ? ? ? ? ? ? ? ? ? ? [l1 l2] ? ? ? ? ? ? ? ? ?].
  cbn in Hin, Hdone. subst. reflexivity.
Qed.

Lemma TestShaders_loop_idle (fuel : nat) (finished : nat -> list nat) (count : nat)
    (g p v : EntryPtr) (s : State) :
  bFullAsyncShaderCompilation (g_ActiveConfig s) = false ->
  in_flight (s_compiler s) = [] -> completed (s_compiler s) = [] ->
  active_compiled g p v s = false ->
  TestShaders_loop fuel finished count g p v s = None.
Proof.
  intros Hwait Hin Hdone Hno. revert count.
  induction fuel as [|fuel IH]; intros count; cbn [TestShaders_loop]; rewrite Hno; [reflexivity|].
  rewrite workers_finish_idle, ProcCompilationResults_idle by assumption.
  rewrite Hwait, IH. reflexivity.
Qed.

(** Under the wait policy [TestShaders] returns only when the three active
    entries are compiled. When one of them is not and the compiler has
    nothing left to do for it (no unit in flight, no completion to drain),
    which is the state a failed compilation leaves, the loop never ends:
    no number of iterations is enough, whatever the compiler threads do. *)
Theorem TestShaders_never_returns_once_the_compiler_is_idle (s : State) :
  bFullAsyncShaderCompilation (g_ActiveConfig s) = false ->
  in_flight (s_compiler s) = [] -> completed (s_compiler s) = [] ->
  all_active_bound s = true -> all_active_compiled s = false ->
  forall fuel finished, TestShaders fuel finished s = None.
Proof.
  intros Hwait Hin Hdone Hbound Hno fuel finished.
  destruct (TestShaders_bound s Hbound) as (g & p & v & _ & _ & _ & Hall & Hloop).
  rewrite Hloop. apply TestShaders_loop_idle; try assumption.
  rewrite <- Hall. exact Hno.
Qed.

(* ===================================================================== *)
(** * Concurrent callers                                                  *)
(* ===================================================================== *)

Lemma flags_kept_refl (s : State) : flags_kept s s.
Proof. split; auto. Qed.

Lemma flags_kept_control_preserved (s s' : State) :
  control_preserved s s' -> flags_kept s s'.
Proof.
  intros Hc. split.
  - destruct Hc as (_ & _ & _ & _ & _ & _ & _ & _ & _ & _ & _ & _ & _ & _ & _ & Hi). exact Hi.
  - intros q. apply (present_control_preserved q s s' Hc).
Qed.

Lemma flags_kept_subscript_gs (u : GeometryShaderUid) (s : State) :
  flags_kept s (set_gs_bytecode_cache (subscript u (gs_bytecode_cache s)) s) /\
  present (addr_gs u) (set_gs_bytecode_cache (subscript u (gs_bytecode_cache s)) s).
Proof.
  split; [split|].
  - intros q. destruct q as [|u'|u'|u']; unfold initialized; cbn [load]; state_simpl;
      try reflexivity.
    destruct (decide (u = u')) as [<-|Hne].
    + rewrite subscript_lookup. reflexivity.
    + rewrite subscript_lookup_ne by exact Hne. reflexivity.
  - intros q. destruct q as [|u'|u'|u']; cbn [present]; state_simpl; try tauto.
    destruct (decide (u = u')) as [<-|Hne].
    + rewrite subscript_lookup. eauto.
    + rewrite subscript_lookup_ne by exact Hne. tauto.
  - cbn [present]. state_simpl. rewrite subscript_lookup. eauto.
Qed.

Lemma flags_kept_subscript_ps (u : PixelShaderUid) (s : State) :
  flags_kept s (set_ps_bytecode_cache (subscript u (ps_bytecode_cache s)) s) /\
  present (addr_ps u) (set_ps_bytecode_cache (subscript u (ps_bytecode_cache s)) s).
Proof.
  split; [split|].
  - intros q. destruct q as [|u'|u'|u']; unfold initialized; cbn [load]; state_simpl;
      try reflexivity.
    destruct (decide (u = u')) as [<-|Hne].
    + rewrite subscript_lookup. reflexivity.
    + rewrite subscript_lookup_ne by exact Hne. reflexivity.
  - intros q. destruct q as [|u'|u'|u']; cbn [present]; state_simpl; try tauto.
    destruct (decide (u = u')) as [<-|Hne].
    + rewrite subscript_lookup. eauto.
    + rewrite subscript_lookup_ne by exact Hne. tauto.
  - cbn [present]. state_simpl. rewrite subscript_lookup. eauto.
Qed.

Lemma flags_kept_subscript_vs (u : VertexShaderUid) (s : State) :
  flags_kept s (set_vs_bytecode_cache (subscript u (vs_bytecode_cache s)) s) /\
  present (addr_vs u) (set_vs_bytecode_cache (subscript u (vs_bytecode_cache s)) s).
Proof.
  split; [split|].
  - intros q. destruct q as [|u'|u'|u']; unfold initialized; cbn [load]; state_simpl;
      try reflexivity.
    destruct (decide (u = u')) as [<-|Hne].
    + rewrite subscript_lookup. reflexivity.
    + rewrite subscript_lookup_ne by exact Hne. reflexivity.
  - intros q. destruct q as [|u'|u'|u']; cbn [present]; state_simpl; try tauto.
    destruct (decide (u = u')) as [<-|Hne].
    + rewrite subscript_lookup. eauto.
    + rewrite subscript_lookup_ne by exact Hne. tauto.
  - cbn [present]. state_simpl. rewrite subscript_lookup. eauto.
Qed.

Lemma flags_kept_fields (s s' : State) :
  s_pass_entry s' = s_pass_entry s ->
  gs_bytecode_cache s' = gs_bytecode_cache s ->
  ps_bytecode_cache s' = ps_bytecode_cache s ->
  vs_bytecode_cache s' = vs_bytecode_cache s ->
  flags_kept s s'.
Proof.
  intros Hpass Hg Hp Hv.
  split; intros q; destruct q; unfold initialized; cbn [load present]; congruence.
Qed.

Ltac shape_handler held Hsub :=
  lazymatch goal with
  | |- context [match ?pc with at_entry => _ | _ => _ end] =>
      destruct pc as [| |e|e|e|e|]; unfold acquire, release, atomically, stuck;
      try discriminate
  end;
  [ (* at_entry *)
    try (destruct (IsPassthrough _) eqn:?Hpass;
         [ cbn; intros [= <- <- <- <-];
           apply shape_passthrough;
           [cbn; rewrite Hpass; reflexivity | reflexivity
           | apply flags_kept_fields; reflexivity]
         | ]);
    (destruct held; [discriminate|]; intros [= <- <- <- <-];
     apply shape_lock; cbn [looked_up];
     try match goal with Hp : IsPassthrough _ = false |- _ => rewrite Hp end; eauto)
  | (* at_subscript *)
    cbn; intros [= <- <- <- <-];
    specialize (Hsub eq_refl); cbn [looked_up] in Hsub |- *;
    try (destruct (IsPassthrough _) eqn:?Hpass; [destruct Hsub; discriminate|]);
    apply shape_subscript;
    [ cbn [looked_up];
      try match goal with Hp : IsPassthrough _ = false |- _ => rewrite Hp end; reflexivity
    | first [apply flags_kept_subscript_gs | apply flags_kept_subscript_ps
            | apply flags_kept_subscript_vs]
    | first [apply flags_kept_subscript_gs | apply flags_kept_subscript_ps
            | apply flags_kept_subscript_vs] ]
  | (* at_unlock *)
    intros [= <- <- <- <-]; apply shape_unlock; reflexivity
  | (* at_assign *)
    lazymatch goal with
    | |- context [when ?thr _] => destruct thr
    end; cbn; intros [= <- <- <- <-];
    (apply shape_assign; [reflexivity | apply flags_kept_fields; reflexivity])
  | (* at_test_and_set *)
    cbn; intros [= <- <- <- <-]; apply shape_test_and_set; reflexivity
  | (* at_submit *)
    cbn; intros [= <- <- <- <-];
    (apply shape_submit; [reflexivity | apply flags_kept_fields; reflexivity]) ].

Lemma shape_of_environment (c : Step) (held : bool) (s : State) :
  is_handler_call c = false ->
  control_preserved s (exec (step c) s) ->
  Forall (fun e => is_cache_work e = false) (events (step c) s) ->
  forall pc pc' held' s' t,
    match pc with
    | at_entry => atomically (step c) (fun _ => returned)
    | _ => stuck
    end held s = Some (pc', held', s', t) ->
    step_shape c pc held s pc' held' s' t.
Proof.
  intros Hc Hctl Hev pc pc' held' s' t.
  destruct pc; unfold atomically, stuck; try discriminate.
  unfold exec, events in Hctl, Hev.
  destruct (step c s) as [[a s1] t1]. cbn [fst snd] in Hctl, Hev.
  intros [= <- <- <- <-].
  apply shape_environment; [exact Hc | apply flags_kept_control_preserved; exact Hctl | exact Hev].
Qed.

(** Every step a caller makes has one of the shapes. *)
Lemma step_from_shape (c : Step) (pc pc' : ProgramPoint) (held held' : bool)
    (s s' : State) (t : list Event) :
  (pc = at_subscript -> is_Some (looked_up c)) ->
  step_from c pc held s = Some (pc', held', s', t) ->
  step_shape c pc held s pc' held' s' t.
Proof.
  intros Hsub.
  destruct c as [u a b x thr|u a b x y thr|u b x y thr| |i]; cbn [step_from].
  - unfold HandleGSUIDChange_from. shape_handler held Hsub.
  - unfold HandlePSUIDChange_from. shape_handler held Hsub.
  - unfold HandleVSUIDChange_from. shape_handler held Hsub.
  - apply shape_of_environment; [reflexivity | apply quiet_ProcCompilationResults..].
  - apply shape_of_environment; [reflexivity | |constructor].
    cbn [step]. rewrite exec_modify. apply control_preserved_worker_finish.
Qed.


(** ** The pool *)

Lemma pool_step_cases (i : nat) (P : Pool) :
  pool_step i P = P \/
  exists c pc pc' held' s' t,
    callers P !! i = Some (c, pc) /\
    step_from c pc (lock_held P) (globals P) = Some (pc', held', s', t) /\
    pool_step i P = mkPool held' s' (<[i := (c, pc')]> (callers P)) (history P ++ t).
Proof.
  unfold pool_step. destruct (callers P !! i) as [[c pc]|] eqn:Hi; [|left; reflexivity].
  destruct (step_from c pc (lock_held P) (globals P)) as [[[[pc' held'] s'] t]|] eqn:Hs;
    [|left; reflexivity].
  right. exists c, pc, pc', held', s', t. split; [reflexivity|]. split; [exact Hs|reflexivity].
Qed.

Lemma pool_run_invariant (Inv : Pool -> Prop) (schedule : list nat) (P : Pool) :
  Inv P -> (forall P i, Inv P -> Inv (pool_step i P)) -> Inv (pool_run schedule P).
Proof.
  intros HP Hstep. revert P HP. unfold pool_run.
  induction schedule as [|i schedule IH]; intros P HP; [exact HP|].
  cbn [foldl]. apply IH. apply Hstep. exact HP.
Qed.

Lemma lookup_moved {A : Type} (l : list A) (i j : nat) (x y : A) :
  <[i := x]> l !! j = Some y -> (j = i /\ y = x) \/ (j <> i /\ l !! j = Some y).
Proof.
  rewrite list_lookup_insert_Some. intros [(-> & -> & _)|(Hne & Hl)]; [left|right]; auto.
Qed.

(** ** Well-formed pools *)

Lemma shape_monotone (c : Step) (pc pc' : ProgramPoint) (held held' : bool)
    (s s' : State) (t : list Event) :
  step_shape c pc held s pc' held' s' t ->
  (forall q, initialized q s = true -> initialized q s' = true) /\
  (forall q, present q s -> present q s').
Proof.
  assert (Hkept : forall s s', flags_kept s s' ->
            (forall q, initialized q s = true -> initialized q s' = true) /\
            (forall q, present q s -> present q s')).
  { intros s1 s2 (Hi & Hp). split; [intros q; rewrite Hi; trivial | exact Hp]. }
  destruct 1; try (apply Hkept; assumption); try (apply Hkept; apply flags_kept_refl).
  split.
  - intros q Hq. unfold initialized in *.
    destruct (decide (entry = q)) as [<-|Hne].
    + destruct entry; cbn [load store] in *; state_simpl; try reflexivity.
      all: rewrite lookup_alter_eq; destruct (_ !! uid); [reflexivity | exact Hq].
    + rewrite load_store_ne by exact Hne. exact Hq.
  - intros q. apply present_store.
Qed.

Lemma well_formed_start (cs : list Step) (s : State) : well_formed (pool_start cs s).
Proof.
  intros i c pc. cbn [pool_start callers]. rewrite list_lookup_fmap.
  destruct (cs !! i); cbn; [|discriminate]. intros [= <- <-].
  repeat split; try discriminate. auto.
Qed.

Lemma looked_up_handler (c : Step) (entry : EntryPtr) :
  looked_up c = Some entry -> is_handler_call c = true.
Proof. destruct c; cbn; congruence. Qed.

Lemma well_formed_step (i : nat) (P : Pool) : well_formed P -> well_formed (pool_step i P).
Proof.
  intros Hwf. destruct (pool_step_cases i P) as [->|(c & pc & pc' & held' & s' & t & Hi & Hs & ->)];
    [exact Hwf|].
  destruct (Hwf i c pc Hi) as (Henv & Hentry & Hsub).
  apply step_from_shape in Hs; [|exact Hsub].
  destruct (shape_monotone _ _ _ _ _ _ _ _ Hs) as (_ & Hpres).
  intros j cj pcj. cbn [callers globals]. intros Hj.
  apply lookup_moved in Hj as [(-> & [= -> ->])|(Hne & Hj)].
  - assert (Hkeep : forall entry, entry_at pc = Some entry ->
              looked_up c = Some entry /\ present entry s').
    { intros entry He. destruct (Hentry entry He) as (Hl & Hp). split; [exact Hl|].
      apply Hpres. exact Hp. }
    clear Hpres Hentry.
    inversion Hs; subst; cbn [entry_at] in *.
    + (* lock *)
      match goal with K : is_Some (looked_up c) |- _ => pose proof K as [e He] end.
      apply looked_up_handler in He.
      split; [congruence|]. split; [discriminate | intros _; assumption].
    + (* passthrough *)
      split; [auto|]. split; discriminate.
    + (* subscript *)
      match goal with K : looked_up c = Some _ |- _ => pose proof (looked_up_handler _ _ K) end.
      split; [congruence|].
      split; [intros e [= <-]; split; assumption | discriminate].
    + (* unlock *)
      split; [congruence|]. split; [intros e [= <-]; apply Hkeep; reflexivity | discriminate].
    + (* assign *)
      split; [congruence|]. split; [intros e [= <-]; apply Hkeep; reflexivity | discriminate].
    + (* test and set *)
      split; [congruence|].
      destruct (initialized entry (globals P)); cbn [entry_at];
        (split; [|discriminate]); [discriminate|].
      intros e [= <-]. apply Hkeep. reflexivity.
    + (* submit *)
      split; [auto|]. split; discriminate.
    + (* a drain, a compiler thread *)
      split; [auto|]. split; discriminate.
  - destruct (Hwf j cj pcj Hj) as (Henvj & Hentryj & Hsubj).
    split; [exact Henvj|]. split; [|exact Hsubj].
    intros e He. destruct (Hentryj e He) as (Hl & Hp). split; [exact Hl | apply Hpres; exact Hp].
Qed.

Lemma well_formed_run (schedule : list nat) (cs : list Step) (s : State) :
  well_formed (pool_run schedule (pool_start cs s)).
Proof.
  apply pool_run_invariant; [apply well_formed_start|].
  intros P i. apply well_formed_step.
Qed.


(** ** The lock *)

Lemma shape_lock_change (c : Step) (pc pc' : ProgramPoint) (held held' : bool)
    (s s' : State) (t : list Event) :
  step_shape c pc held s pc' held' s' t ->
  (in_critical_section pc = false /\ in_critical_section pc' = true /\
   held = false /\ held' = true) \/
  (in_critical_section pc = true /\ in_critical_section pc' = false /\ held' = false) \/
  (in_critical_section pc' = in_critical_section pc /\ held' = held).
Proof.
  destruct 1; cbn [in_critical_section]; auto 10.
  destruct (initialized entry s); cbn [in_critical_section]; auto 10.
Qed.

Lemma lock_discipline_start (cs : list Step) (s : State) : lock_discipline (pool_start cs s).
Proof.
  assert (Hentry : forall i c pc,
            callers (pool_start cs s) !! i = Some (c, pc) -> in_critical_section pc = false).
  { intros i c pc. cbn [pool_start callers]. rewrite list_lookup_fmap.
    destruct (cs !! i); cbn; [|discriminate]. intros [= <- <-]. reflexivity. }
  split; [|split].
  - intros i c pc Hi Hc. rewrite (Hentry i c pc Hi) in Hc. discriminate.
  - cbn. discriminate.
  - intros i j ci pci cj pcj Hi _ Hc. rewrite (Hentry i ci pci Hi) in Hc. discriminate.
Qed.

Lemma lock_discipline_step (i : nat) (P : Pool) :
  well_formed P -> lock_discipline P -> lock_discipline (pool_step i P).
Proof.
  intros Hwf (Hheld & Hholder & Hone).
  destruct (pool_step_cases i P) as [->|(c & pc & pc' & held' & s' & t & Hi & Hs & ->)];
    [repeat split; assumption|].
  apply step_from_shape in Hs; [|apply (Hwf i c pc Hi)].
  apply shape_lock_change in Hs.
  pose proof (lookup_lt_Some _ _ _ Hi) as Hlt.
  unfold lock_discipline. cbn [callers lock_held].
  destruct Hs as [(Hpc & Hpc' & Hfree & ->)|[(Hpc & Hpc' & ->)|(Hpc' & ->)]].
  - (* the caller takes the lock *)
    assert (Hnone : forall j cj pcj, callers P !! j = Some (cj, pcj) ->
              in_critical_section pcj = false).
    { intros j cj pcj Hj. destruct (in_critical_section pcj) eqn:Hc; [|reflexivity].
      rewrite (Hheld j cj pcj Hj Hc) in Hfree. discriminate. }
    split; [reflexivity|]. split.
    + intros _. exists i, c, pc'. split; [apply list_lookup_insert_eq; exact Hlt | exact Hpc'].
    + intros j k cj pcj ck pck Hj Hk Hcj Hck.
      apply lookup_moved in Hj as [(-> & [= -> ->])|(_ & Hj)];
        apply lookup_moved in Hk as [(-> & [= -> ->])|(_ & Hk)]; try reflexivity.
      * rewrite (Hnone _ _ _ Hk) in Hck. discriminate.
      * rewrite (Hnone _ _ _ Hj) in Hcj. discriminate.
      * rewrite (Hnone _ _ _ Hj) in Hcj. discriminate.
  - (* the caller releases the lock *)
    assert (Hnone : forall j cj pcj, <[i := (c, pc')]> (callers P) !! j = Some (cj, pcj) ->
              in_critical_section pcj = false).
    { intros j cj pcj Hj. apply lookup_moved in Hj as [(-> & [= -> ->])|(Hne & Hj)];
        [exact Hpc'|].
      destruct (in_critical_section pcj) eqn:Hc; [|reflexivity].
      destruct Hne. exact (Hone j i cj pcj c pc Hj Hi Hc Hpc). }
    split; [|split].
    + intros j cj pcj Hj Hc. rewrite (Hnone _ _ _ Hj) in Hc. discriminate.
    + discriminate.
    + intros j k cj pcj ck pck Hj _ Hc. rewrite (Hnone _ _ _ Hj) in Hc. discriminate.
  - (* the lock is as before *)
    split; [|split].
    + intros j cj pcj Hj Hc. apply lookup_moved in Hj as [(-> & [= -> ->])|(_ & Hj)].
      * rewrite Hpc' in Hc. exact (Hheld i c pc Hi Hc).
      * exact (Hheld j cj pcj Hj Hc).
    + intros Hl. destruct (Hholder Hl) as (k & ck & pck & Hk & Hc).
      destruct (decide (k = i)) as [->|Hne].
      * rewrite Hi in Hk. injection Hk as <- <-.
        exists i, c, pc'. split; [apply list_lookup_insert_eq; exact Hlt | congruence].
      * exists k, ck, pck. split; [|exact Hc].
        rewrite list_lookup_insert_ne by congruence. exact Hk.
    + intros j k cj pcj ck pck Hj Hk Hcj Hck.
      apply lookup_moved in Hj as [(-> & [= -> ->])|(_ & Hj)];
        apply lookup_moved in Hk as [(-> & [= -> ->])|(_ & Hk)]; try reflexivity.
      * rewrite Hpc' in Hcj. exact (Hone i k c pc ck pck Hi Hk Hcj Hck).
      * rewrite Hpc' in Hck. exact (Hone j i cj pcj c pc Hj Hi Hcj Hck).
      * exact (Hone j k cj pcj ck pck Hj Hk Hcj Hck).
Qed.

Lemma lock_discipline_run (schedule : list nat) (cs : list Step) (s : State) :
  lock_discipline (pool_run schedule (pool_start cs s)).
Proof.
  apply (pool_run_invariant (fun P => well_formed P /\ lock_discipline P)).
  - split; [apply well_formed_start | apply lock_discipline_start].
  - intros P i (Hwf & Hl). split; [apply well_formed_step | apply lock_discipline_step];
      assumption.
Qed.

Lemma atomically_moves {A : Type} (m : M A) (next : A -> ProgramPoint) (held : bool)
    (s : State) :
  is_Some (atomically m next held s).
Proof. unfold atomically. destruct (m s) as [[a s'] t]. eauto. Qed.

(** A caller that has not returned can move, unless it is about to take a
    lock that is held. *)
Lemma caller_moves (c : Step) (pc : ProgramPoint) (held : bool) (s : State) :
  (is_handler_call c = false -> pc = at_entry \/ pc = returned) ->
  pc <> returned -> (pc = at_entry -> held = false) ->
  is_Some (step_from c pc held s).
Proof.
  intros Henv Hpc Hfree.
  destruct c as [u a b x thr|u a b x y thr|u b x y thr| |i]; cbn [step_from].
  - destruct pc; cbn [HandleGSUIDChange_from]; try apply atomically_moves;
      try (unfold release; eauto); [|congruence].
    destruct (IsPassthrough u); [apply atomically_moves|].
    unfold acquire. rewrite Hfree by reflexivity. eauto.
  - destruct pc; cbn [HandlePSUIDChange_from]; try apply atomically_moves;
      try (unfold release; eauto); [|congruence].
    unfold acquire. rewrite Hfree by reflexivity. eauto.
  - destruct pc; cbn [HandleVSUIDChange_from]; try apply atomically_moves;
      try (unfold release; eauto); [|congruence].
    unfold acquire. rewrite Hfree by reflexivity. eauto.
  - destruct (Henv eq_refl) as [->| ->]; [apply atomically_moves | congruence].
  - destruct (Henv eq_refl) as [->| ->]; [apply atomically_moves | congruence].
Qed.

(** Mutual exclusion and progress. However the callers are scheduled, at
    most one of them is between [lock()] and [unlock()], where the cache is
    subscripted, and the lock is held exactly while one is. Every path that
    takes the lock releases it: once all callers have returned the lock is
    free. And the callers never block each other for good: as long as one
    of them has not returned, one of them can move. *)
Theorem the_lock_guards_the_subscript_and_is_released (cs : list Step) (s : State)
    (schedule : list nat) :
  let P := pool_run schedule (pool_start cs s) in
  (forall i j ci pci cj pcj,
     callers P !! i = Some (ci, pci) -> callers P !! j = Some (cj, pcj) ->
     in_critical_section pci = true -> in_critical_section pcj = true -> i = j) /\
  (lock_held P = true <->
     exists i c pc, callers P !! i = Some (c, pc) /\ in_critical_section pc = true) /\
  (all_returned P -> lock_held P = false) /\
  (~ all_returned P ->
     exists i c pc, callers P !! i = Some (c, pc) /\
                    is_Some (step_from c pc (lock_held P) (globals P))).
Proof.
  intros P.
  pose proof (well_formed_run schedule cs s) as Hwf.
  pose proof (lock_discipline_run schedule cs s) as (Hheld & Hholder & Hone).
  fold P in Hwf, Hheld, Hholder, Hone. clearbody P.
  split; [exact Hone|]. split; [|split].
  - split; [exact Hholder|]. intros (i & c & pc & Hi & Hc). exact (Hheld i c pc Hi Hc).
  - intros Hall. destruct (lock_held P) eqn:Hl; [|reflexivity].
    destruct (Hholder eq_refl) as (i & c & pc & Hi & Hc).
    unfold all_returned in Hall. rewrite Forall_lookup in Hall.
    specialize (Hall i (c, pc) Hi). cbn in Hall. subst pc. discriminate.
  - intros Hnot. unfold all_returned in Hnot.
    apply not_Forall_Exists in Hnot; [|intros x; apply _].
    apply Exists_exists in Hnot as ([c pc] & Hin & Hpc). cbn in Hpc.
    apply list_elem_of_lookup in Hin as (i & Hi).
    destruct (lock_held P) eqn:Hl.
    + destruct (Hholder eq_refl) as (k & ck & pck & Hk & Hc).
      exists k, ck, pck. split; [exact Hk|].
      apply caller_moves; [apply (Hwf k ck pck Hk) | |]; intros ->; discriminate.
    + exists i, c, pc. split; [exact Hi|].
      apply caller_moves; [apply (Hwf i c pc Hi) | exact Hpc | reflexivity].
Qed.


(** ** One dispatch *)

Ltac splits := repeat match goal with |- _ /\ _ => split end.

Lemma shape_dispatch_effect (p : EntryPtr) (c : Step) (pc pc' : ProgramPoint)
    (held held' : bool) (s s' : State) (t : list Event) :
  step_shape c pc held s pc' held' s' t ->
  (forall e, entry_at pc = Some e -> present e s) ->
  (pc = at_test_and_set p /\ initialized p s = false /\ pc' = at_submit p /\
   initialized p s' = true /\ occurrences (EvCompileShaderAsync p) t = 0) \/
  (pc = at_submit p /\ pc' = returned /\ occurrences (EvCompileShaderAsync p) t = 1 /\
   initialized p s' = initialized p s) \/
  (pc <> at_submit p /\ pc' <> at_submit p /\ occurrences (EvCompileShaderAsync p) t = 0 /\
   initialized p s' = initialized p s).
Proof.
  intros Hs Hpres.
  destruct Hs as [s Hl|held s s' Hl Hc Hk|held s s' e Hl Hk Hp|held s e Hc|held s s' e Hc Hk
                 |held s e Hc|held s s' e Hc Hk|held s s' t Hc Hk Ht].
  - right; right. splits; try discriminate; reflexivity.
  - right; right. destruct Hk as (Hi & _). splits; try discriminate; [reflexivity | apply Hi].
  - right; right. destruct Hk as (Hi & _). splits; try discriminate; [reflexivity | apply Hi].
  - right; right. splits; try discriminate; reflexivity.
  - right; right. destruct Hk as (Hi & _). splits; try discriminate; [reflexivity | apply Hi].
  - destruct (decide (e = p)) as [->|Hne].
    + assert (Hset : initialized p (store p (set_m_initialized true) s) = true).
      { unfold initialized. rewrite load_store by (apply Hpres; reflexivity). reflexivity. }
      destruct (initialized p s) eqn:Hinit.
      * right; right. splits; try discriminate; [reflexivity | exact Hset].
      * left. splits; try reflexivity. exact Hset.
    + right; right.
      split; [discriminate|]. split; [destruct (initialized e s); congruence|].
      split; [reflexivity|]. unfold initialized. rewrite load_store_ne by exact Hne. reflexivity.
  - destruct Hk as (Hi & _). destruct (decide (e = p)) as [->|Hne].
    + right; left. splits; try reflexivity; [|apply Hi].
      rewrite occurrences_cons, decide_True by reflexivity. reflexivity.
    + right; right. splits; try discriminate; try apply Hi; try congruence.
      rewrite occurrences_cons, decide_False by congruence. reflexivity.
  - right; right. destruct Hk as (Hi & _). splits; try discriminate; [|apply Hi].
    apply occurrences_quiet; [exact Ht | reflexivity].
Qed.

Lemma shape_returns (p : EntryPtr) (c : Step) (pc pc' : ProgramPoint)
    (held held' : bool) (s s' : State) (t : list Event) :
  step_shape c pc held s pc' held' s' t ->
  (forall e, entry_at pc = Some e -> looked_up c = Some e) ->
  pc' = returned -> looked_up c = Some p ->
  initialized p s' = true \/ pc = at_submit p.
Proof.
  intros Hs Hwf Hret Hp.
  pose proof (shape_monotone _ _ _ _ _ _ _ _ Hs) as (Hmono & _).
  destruct Hs as [s Hl|held s s' Hl Hc Hk|held s s' e Hl Hk Hpe|held s e Hc|held s s' e Hc Hk
                 |held s e Hc|held s s' e Hc Hk|held s s' t Hc Hk Ht]; try discriminate.
  - congruence.
  - destruct (initialized e s) eqn:Hinit; [|discriminate].
    left. specialize (Hwf e eq_refl). assert (e = p) as -> by congruence.
    apply Hmono. exact Hinit.
  - right. specialize (Hwf e eq_refl). congruence.
  - destruct c; cbn in Hc, Hp; congruence.
Qed.

Lemma submitting_moved (p : EntryPtr) (held : bool) (s : State) (h : list Event)
    (i j : nat) (c : Step) (pc pc' : ProgramPoint) (P : Pool) :
  callers P !! i = Some (c, pc) ->
  (submitting p (mkPool held s (<[i := (c, pc')]> (callers P)) h) j <->
   (j = i /\ pc' = at_submit p) \/ (j <> i /\ submitting p P j)).
Proof.
  intros Hi. pose proof (lookup_lt_Some _ _ _ Hi) as Hlt.
  unfold submitting. cbn [callers]. split.
  - intros (cj & Hj). apply lookup_moved in Hj as [(-> & [= -> ->])|(Hne & Hj)]; eauto.
  - intros [(-> & ->)|(Hne & cj & Hj)].
    + exists c. apply list_lookup_insert_eq. exact Hlt.
    + exists cj. rewrite list_lookup_insert_ne by congruence. exact Hj.
Qed.

Lemma dispatch_phase_start (p : EntryPtr) (cs : list Step) (s : State) :
  dispatch_phase p s (pool_start cs s) /\ returned_callers_tested p (pool_start cs s).
Proof.
  assert (Hentry : forall i c pc,
            callers (pool_start cs s) !! i = Some (c, pc) -> pc = at_entry).
  { intros i c pc. cbn [pool_start callers]. rewrite list_lookup_fmap.
    destruct (cs !! i); cbn; [|discriminate]. intros [= <- <-]. reflexivity. }
  assert (Hnone : forall i, ~ submitting p (pool_start cs s) i).
  { intros i (c & Hi). apply Hentry in Hi. discriminate. }
  split.
  - unfold dispatch_phase. cbn [pool_start history globals].
    destruct (initialized p s); [left | right; left]; repeat split; assumption.
  - intros i c Hi. apply Hentry in Hi. discriminate.
Qed.

Lemma dispatch_phase_step (p : EntryPtr) (s0 : State) (i : nat) (P : Pool) :
  well_formed P ->
  dispatch_phase p s0 P /\ returned_callers_tested p P ->
  dispatch_phase p s0 (pool_step i P) /\ returned_callers_tested p (pool_step i P).
Proof.
  intros Hwf (Hphase & Htested).
  destruct (pool_step_cases i P) as [->|(c & pc & pc' & held' & s' & t & Hi & Hs & ->)];
    [split; assumption|].
  destruct (Hwf i c pc Hi) as (_ & Hentry & Hsub).
  apply step_from_shape in Hs; [|exact Hsub].
  pose proof (shape_monotone _ _ _ _ _ _ _ _ Hs) as (Hmono & _).
  pose proof (shape_dispatch_effect p _ _ _ _ _ _ _ _ Hs
                (fun e He => proj2 (Hentry e He))) as Heffect.
  pose proof (shape_returns p _ _ _ _ _ _ _ _ Hs (fun e He => proj1 (Hentry e He)))
    as Hreturns.
  pose proof (submitting_moved p held' s' (history P ++ t) i) as Hmoved.
  assert (Hself : submitting p P i <-> pc = at_submit p).
  { unfold submitting. rewrite Hi. split; [intros (c' & [= _ ->]); reflexivity|].
    intros ->. eauto. }
  clear Hs Hentry Hsub.
  split.
  - unfold dispatch_phase in *. cbn [history globals] in *. rewrite occurrences_app.
    destruct Heffect as [(-> & Hclear & -> & Hset & ->)
                        |[(-> & -> & -> & Hsame)|(Hpc & Hpc' & -> & Hsame)]].
    + (* the caller finds the flag clear *)
      destruct Hphase as [(_ & Hg & _)|[(H0 & _ & Hocc & Hnone)|[(_ & Hg & _)|(_ & Hg & _)]]];
        try congruence.
      right; right; left. rewrite Hocc. repeat split; try assumption.
      exists i. split.
      * apply (Hmoved i c _ _ P Hi). left. auto.
      * intros j Hj. apply (Hmoved j c _ _ P Hi) in Hj as [(-> & _)|(_ & Hj)]; [reflexivity|].
        destruct (Hnone j Hj).
    + (* the caller submits the unit *)
      assert (Hi_sub : submitting p P i) by (apply Hself; reflexivity).
      destruct Hphase as [(_ & _ & _ & Hnone)|[(_ & _ & _ & Hnone)
                         |[(H0 & Hg & Hocc & k & Hk & Honly)|(_ & _ & _ & Hnone)]]];
        try (destruct (Hnone i Hi_sub)).
      right; right; right. rewrite Hocc, Hsame. repeat split; try assumption.
      intros j Hj. apply (Hmoved j c _ _ P Hi) in Hj as [(_ & Hbad)|(Hne & Hj)];
        [discriminate|].
      apply Hne. rewrite (Honly j Hj), (Honly i Hi_sub). reflexivity.
    + (* any other step *)
      assert (Hsubm : forall j,
                submitting p (mkPool held' s' (<[i := (c, pc')]> (callers P)) (history P ++ t)) j
                <-> submitting p P j).
      { intros j. rewrite (Hmoved j c pc pc' P Hi). split.
        - intros [(_ & Hbad)|(_ & Hj)]; [congruence | exact Hj].
        - intros Hj. destruct (decide (j = i)) as [->|Hne]; [|auto].
          apply Hself in Hj. congruence. }
      rewrite Nat.add_0_r, Hsame.
      destruct Hphase as [(H0 & Hg & Hocc & Hnone)|[(H0 & Hg & Hocc & Hnone)
                         |[(H0 & Hg & Hocc & k & Hk & Honly)|(H0 & Hg & Hocc & Hnone)]]].
      * left. repeat split; try assumption. intros j Hj. apply Hsubm in Hj. exact (Hnone j Hj).
      * right; left. repeat split; try assumption.
        intros j Hj. apply Hsubm in Hj. exact (Hnone j Hj).
      * right; right; left. repeat split; try assumption.
        exists k. split; [apply Hsubm; exact Hk|].
        intros j Hj. apply Hsubm in Hj. exact (Honly j Hj).
      * right; right; right. repeat split; try assumption.
        intros j Hj. apply Hsubm in Hj. exact (Hnone j Hj).
  - intros j cj. cbn [callers globals]. intros Hj Hp.
    apply lookup_moved in Hj as [(-> & [= -> <-])|(Hne & Hj)].
    + destruct (Hreturns eq_refl Hp) as [Hdone| ->]; [exact Hdone|].
      destruct Heffect as [(Hbad & _)|[(_ & _ & _ & Hsame)|(Hbad & _)]]; try congruence.
      rewrite Hsame.
      assert (Hi_sub : submitting p P i) by (apply Hself; reflexivity).
      unfold dispatch_phase in Hphase.
      destruct Hphase as [(_ & _ & _ & Hnone)|[(_ & _ & _ & Hnone)
                         |[(_ & Hg & _)|(_ & _ & _ & Hnone)]]];
        try (destruct (Hnone i Hi_sub)). exact Hg.
    + apply Hmono. exact (Htested j cj Hj Hp).
Qed.

Lemma callers_of_step (i : nat) (P : Pool) :
  fst <$> callers (pool_step i P) = fst <$> callers P.
Proof.
  destruct (pool_step_cases i P) as [->|(c & pc & pc' & held' & s' & t & Hi & _ & ->)];
    [reflexivity|].
  cbn [callers]. rewrite list_fmap_insert. cbn [fst]. apply list_insert_id.
  rewrite list_lookup_fmap, Hi. reflexivity.
Qed.

Lemma callers_of_run (schedule : list nat) (cs : list Step) (s : State) :
  fst <$> callers (pool_run schedule (pool_start cs s)) = cs.
Proof.
  apply (pool_run_invariant (fun P => fst <$> callers P = cs)).
  - cbn [pool_start callers]. rewrite <- list_fmap_compose.
    induction cs as [|c cs IH]; [reflexivity|]. cbn. f_equal. exact IH.
  - intros P i <-. apply callers_of_step.
Qed.

(** The single-dispatch guarantee under concurrency. Whatever calls of the
    uid-change handlers run at the same time, from the submission context
    and from auxiliary ones, with drains and compiler threads in between, and
    however their steps interleave: for every entry at most one caller finds
    the one-shot flag clear, at most one compile is dispatched, and none if
    the flag was set before. Once the callers have returned, an entry that
    had its flag clear and that some caller asked for has been dispatched
    exactly once. *)
Theorem concurrent_callers_dispatch_each_entry_once (cs : list Step) (s : State)
    (schedule : list nat) (p : EntryPtr) :
  let P := pool_run schedule (pool_start cs s) in
  let dispatched := occurrences (EvCompileShaderAsync p) (history P) in
  dispatched <= 1 /\
  (initialized p s = true -> dispatched = 0) /\
  (forall i j, submitting p P i -> submitting p P j -> i = j) /\
  (forall i, submitting p P i -> dispatched = 0) /\
  (all_returned P -> initialized p s = false ->
   (exists c, c ∈ cs /\ looked_up c = Some p) -> dispatched = 1).
Proof.
  intros P dispatched.
  assert (Hinv : well_formed P /\ dispatch_phase p s P /\ returned_callers_tested p P).
  { apply (pool_run_invariant
             (fun P => well_formed P /\ dispatch_phase p s P /\ returned_callers_tested p P)).
    - split; [apply well_formed_start | apply dispatch_phase_start].
    - intros Q i (Hwf & Hd). split; [apply well_formed_step; exact Hwf|].
      apply dispatch_phase_step; assumption. }
  pose proof (callers_of_run schedule cs s) as Hcs. fold P in Hcs.
  destruct Hinv as (_ & Hphase & Htested). unfold dispatch_phase in Hphase.
  fold dispatched in Hphase. cbn zeta in Hphase. clearbody dispatched P.
  split; [|split; [|split; [|split]]].
  - destruct Hphase as [(_ & _ & -> & _)|[(_ & _ & -> & _)|[(_ & _ & -> & _)|(_ & _ & -> & _)]]];
      lia.
  - intros Hset.
    destruct Hphase as [(_ & _ & -> & _)|[(H0 & _)|[(H0 & _)|(H0 & _)]]]; congruence.
  - intros i j Hi Hj.
    destruct Hphase as [(_ & _ & _ & Hnone)|[(_ & _ & _ & Hnone)
                       |[(_ & _ & _ & k & _ & Honly)|(_ & _ & _ & Hnone)]]];
      try (destruct (Hnone i Hi)).
    rewrite (Honly i Hi), (Honly j Hj). reflexivity.
  - intros i Hi.
    destruct Hphase as [(_ & _ & -> & _)|[(_ & _ & -> & _)|[(_ & _ & -> & _)
                       |(_ & _ & _ & Hnone)]]]; try reflexivity.
    destruct (Hnone i Hi).
  - intros Hall Hclear (c & Hc & Hp).
    assert (Hcaller : exists i, callers P !! i = Some (c, returned)).
    { rewrite <- Hcs in Hc. apply list_elem_of_fmap in Hc as ([c' pc] & -> & Hin).
      apply list_elem_of_lookup in Hin as (i & Hi). exists i.
      unfold all_returned in Hall. rewrite Forall_lookup in Hall.
      specialize (Hall i _ Hi). cbn in Hall. subst pc. exact Hi. }
    destruct Hcaller as (i & Hi). pose proof (Htested i c Hi Hp) as Hset.
    destruct Hphase as [(H0 & _)|[(_ & Hg & _)|[(_ & _ & _ & k & (ck & Hk) & _)|(_ & _ & Hocc & _)]]];
      try congruence.
    unfold all_returned in Hall. rewrite Forall_lookup in Hall.
    specialize (Hall k _ Hk). discriminate.
Qed.


(** ** Callers that do not overlap *)

Ltac solo_handler thr :=
  unfold solo, step_from, HandleGSUIDChange_from, HandlePSUIDChange_from,
    HandleVSUIDChange_from, acquire, release, atomically, stuck, step,
    geometry_unit, pixel_unit, vertex_unit;
  unfold_handlers; destruct thr; cbn;
  match goal with
  | |- context [m_initialized (default ByteCodeCacheEntry_ctor (subscript ?u ?m !! ?u))] =>
      destruct (m_initialized (default ByteCodeCacheEntry_ctor (subscript u m !! u)));
      cbn; reflexivity
  end.

(** A caller that runs alone, with the lock free, makes at most six steps
    and does what the call does in the sequential embedding. *)
Lemma solo_is_the_call (c : Step) (s : State) :
  solo 6 c at_entry false s = (returned, false, exec (step c) s, events (step c) s).
Proof.
  destruct c as [u a b x thr|u a b x y thr|u b x y thr| |i].
  - destruct (IsPassthrough u) eqn:Hpass.
    + unfold solo, step_from, HandleGSUIDChange_from, step, HandleGSUIDChange.
      rewrite Hpass. reflexivity.
    + unfold solo, step_from, HandleGSUIDChange_from, step, HandleGSUIDChange.
      rewrite Hpass. solo_handler thr.
  - solo_handler thr.
  - solo_handler thr.
  - unfold solo, step_from, atomically, stuck, exec, events.
    destruct (step StepDrain s) as [[a s1] t1]. cbn. rewrite app_nil_r. reflexivity.
  - unfold solo, step_from, atomically, stuck, exec, events.
    destruct (step (StepWorker i) s) as [[a s1] t1]. cbn. rewrite app_nil_r. reflexivity.
Qed.


Lemma solo_stuck (n : nat) (c : Step) (pc : ProgramPoint) (held : bool) (s : State) :
  step_from c pc held s = None -> solo n c pc held s = (pc, held, s, []).
Proof. intros Hs. destruct n; cbn [solo]; [|rewrite Hs]; reflexivity. Qed.

Lemma pool_same (P : Pool) (i : nat) (c : Step) (pc : ProgramPoint) :
  callers P !! i = Some (c, pc) ->
  mkPool (lock_held P) (globals P) (<[i := (c, pc)]> (callers P)) (history P ++ []) = P.
Proof.
  intros Hi. rewrite list_insert_id by exact Hi. rewrite app_nil_r. destruct P; reflexivity.
Qed.

(** Scheduling one caller [n] times in a row lets it run alone for [n]
    steps. *)
Lemma pool_run_solo (n i : nat) (c : Step) :
  forall (pc : ProgramPoint) (P : Pool),
  callers P !! i = Some (c, pc) ->
  pool_run (replicate n i) P =
  let '(pc', held', s', t) := solo n c pc (lock_held P) (globals P) in
  mkPool held' s' (<[i := (c, pc')]> (callers P)) (history P ++ t).
Proof.
  induction n as [|n IH]; intros pc P Hi.
  - cbn [replicate pool_run foldl solo]. symmetry. apply pool_same. exact Hi.
  - cbn [replicate]. unfold pool_run in *. cbn [foldl solo].
    pose proof (lookup_lt_Some _ _ _ Hi) as Hlt.
    unfold pool_step at 2. rewrite Hi.
    destruct (step_from c pc (lock_held P) (globals P)) as [[[[pc1 held1] s1] t1]|] eqn:Hs.
    + rewrite (IH pc1) by (cbn [callers]; apply list_lookup_insert_eq; exact Hlt).
      cbn [lock_held globals callers history].
      destruct (solo n c pc1 held1 s1) as [[[pc2 held2] s2] t2].
      rewrite list_insert_insert_eq, <- app_assoc. reflexivity.
    + rewrite (IH pc P Hi), (solo_stuck n c pc _ _ Hs). reflexivity.
Qed.

Lemma pool_run_app (schedule1 schedule2 : list nat) (P : Pool) :
  pool_run (schedule1 ++ schedule2) P = pool_run schedule2 (pool_run schedule1 P).
Proof. unfold pool_run. apply foldl_app. Qed.

Lemma insert_after_fmap {A B : Type} (f : A -> B) (l1 : list A) (x y : B) (l2 : list B) :
  <[length l1 := x]> ((f <$> l1) ++ y :: l2) = (f <$> l1) ++ x :: l2.
Proof.
  rewrite <- (length_fmap f l1), <- (Nat.add_0_r (length (f <$> l1))), insert_app_r.
  reflexivity.
Qed.

Lemma one_after_the_other_from (todo : list Step) :
  forall (done : list Step) (g : State) (h : list Event),
  pool_run (flat_map (fun i => replicate 6 i) (seq (length done) (length todo)))
    (mkPool false g
       (((fun c => (c, returned)) <$> done) ++ ((fun c => (c, at_entry)) <$> todo)) h) =
  mkPool false (exec (steps todo) g) ((fun c => (c, returned)) <$> (done ++ todo))
    (h ++ events (steps todo) g).
Proof.
  induction todo as [|c todo IH]; intros done g h.
  - cbn. rewrite !app_nil_r. reflexivity.
  - cbn [length seq flat_map]. rewrite pool_run_app.
    rewrite (pool_run_solo 6 (length done) c at_entry).
    2:{ cbn [callers fmap list_fmap]. apply list_lookup_middle. rewrite length_fmap.
        reflexivity. }
    cbn [lock_held globals callers history]. rewrite solo_is_the_call.
    cbn [fmap list_fmap].
    rewrite insert_after_fmap.
    specialize (IH (done ++ [c]) (exec (step c) g) (h ++ events (step c) g)).
    rewrite length_app in IH. cbn [length] in IH.
    replace (length done + 1) with (S (length done)) in IH by lia.
    rewrite fmap_app in IH. cbn [fmap list_fmap] in IH. rewrite <- app_assoc in IH.
    cbn [app] in IH. rewrite IH.
    rewrite exec_steps_cons, events_steps_cons, <- !app_assoc. reflexivity.
Qed.

(** Callers that do not overlap. When the scheduler runs the callers one
    after the other, each to its end, the pool ends with the globals and the
    events of the same calls made in sequence, with every caller returned and
    the lock free: the steps of the concurrent embedding compose to the
    handlers of the sequential one. *)
Theorem callers_one_after_the_other_are_the_calls_in_sequence (cs : list Step) (s : State) :
  let P := pool_run (one_after_the_other (length cs)) (pool_start cs s) in
  globals P = exec (steps cs) s /\
  history P = events (steps cs) s /\
  lock_held P = false /\
  all_returned P.
Proof.
  cbn zeta.
  assert (Hrun : pool_run (one_after_the_other (length cs)) (pool_start cs s) =
                 mkPool false (exec (steps cs) s) ((fun c => (c, returned)) <$> cs)
                   (events (steps cs) s))
    by exact (one_after_the_other_from cs [] s []).
  rewrite Hrun. cbn [globals history lock_held]. repeat split.
  unfold all_returned. cbn [callers]. apply Forall_fmap. apply Forall_true. reflexivity.
Qed.

(* ===================================================================== *)
(** * Sessions                                                            *)
(* ===================================================================== *)

(** ** Entries never regress *)

Lemma grown_refl (s : State) : grown s s.
Proof. repeat split; auto. Qed.

Lemma grown_trans (s1 s2 s3 : State) : grown s1 s2 -> grown s2 s3 -> grown s1 s3.
Proof. intros (Ha & Hb & Hc) (Ha' & Hb' & Hc'). repeat split; auto. Qed.

Lemma grown_fields (s s' : State) :
  s_pass_entry s' = s_pass_entry s ->
  gs_bytecode_cache s' = gs_bytecode_cache s ->
  ps_bytecode_cache s' = ps_bytecode_cache s ->
  vs_bytecode_cache s' = vs_bytecode_cache s ->
  grown s s'.
Proof.
  intros Hpass Hg Hp Hv.
  repeat split; intros q; destruct q; unfold initialized, compiled; cbn [load present];
    congruence.
Qed.

Lemma grown_store (p : EntryPtr) (f : ByteCodeCacheEntry -> ByteCodeCacheEntry) (s : State) :
  (forall e, m_initialized e = true -> m_initialized (f e) = true) ->
  (forall e, m_compiled e = true -> m_compiled (f e) = true) ->
  grown s (store p f s).
Proof.
  intros Hi Hc. split; [|split].
  - intros q. apply present_store.
  - intros q. unfold initialized. destruct (decide (p = q)) as [<-|Hne].
    + destruct p; cbn [load store]; state_simpl; [apply Hi| | |];
        rewrite lookup_alter_eq; destruct (_ !! uid); cbn; try apply Hi; discriminate.
    + rewrite load_store_ne by exact Hne. trivial.
  - intros q. unfold compiled. destruct (decide (p = q)) as [<-|Hne].
    + destruct p; cbn [load store]; state_simpl; [apply Hc| | |];
        rewrite lookup_alter_eq; destruct (_ !! uid); cbn; try apply Hc; discriminate.
    + rewrite load_store_ne by exact Hne. trivial.
Qed.

Lemma grown_subscript `{Countable K} (u : K) (cache : gmap K ByteCodeCacheEntry) :
  (forall u', is_Some (cache !! u') -> is_Some (subscript u cache !! u')) /\
  (forall u', default ByteCodeCacheEntry_ctor (subscript u cache !! u') =
              default ByteCodeCacheEntry_ctor (cache !! u')).
Proof.
  split; intros u'; destruct (decide (u = u')) as [<-|Hne].
  - rewrite subscript_lookup. eauto.
  - rewrite subscript_lookup_ne by exact Hne. trivial.
  - rewrite subscript_lookup. reflexivity.
  - rewrite subscript_lookup_ne by exact Hne. reflexivity.
Qed.

Lemma grows_ret {A : Type} (a : A) : grows (ret a).
Proof. intros s. apply grown_refl. Qed.

Lemma grows_gets {A : Type} (f : State -> A) : grows (gets f).
Proof. intros s. apply grown_refl. Qed.

Lemma grows_emit (e : Event) : grows (emit e).
Proof. intros s. apply grown_refl. Qed.

Lemma grows_modify (f : State -> State) : (forall s, grown s (f s)) -> grows (modify f).
Proof. intros Hf s. apply Hf. Qed.

Lemma grows_bind {A B : Type} (m : M A) (k : A -> M B) :
  grows m -> (forall a, grows (k a)) -> grows (bind m k).
Proof.
  intros Hm Hk s. rewrite exec_bind. eapply grown_trans; [apply Hm | apply Hk].
Qed.

Lemma grows_when (b : bool) (m : M unit) : grows m -> grows (when b m).
Proof. destruct b; [trivial | intros _; apply grows_ret]. Qed.

Lemma grows_for_each {A : Type} (l : list A) (body : A -> M unit) :
  (forall x, grows (body x)) -> grows (for_each l body).
Proof.
  intros Hbody. induction l as [|x l IH]; [apply grows_ret|].
  cbn [for_each]. apply grows_bind; [apply Hbody | intros _; exact IH].
Qed.

Lemma grows_cache_at :
  (forall u, grows (gs_bytecode_cache_at u)) /\
  (forall u, grows (ps_bytecode_cache_at u)) /\
  (forall u, grows (vs_bytecode_cache_at u)).
Proof.
  split; [|split]; intros u s;
    unfold gs_bytecode_cache_at, ps_bytecode_cache_at, vs_bytecode_cache_at;
    rewrite !exec_bind, exec_ret, exec_emit, exec_modify.
  all: split; [|split]; intros q; destruct q; unfold initialized, compiled;
    cbn [load present]; state_simpl; trivial.
  all: try apply grown_subscript.
  all: rewrite (proj2 (grown_subscript u _)); trivial.
Qed.

Ltac grows_step :=
  lazymatch goal with
  | |- grows (bind _ _) => apply grows_bind; [|intros ?]
  | |- grows (ret _) => apply grows_ret
  | |- grows (gets _) => apply grows_gets
  | |- grows (emit _) => apply grows_emit
  | |- grows (when _ _) => apply grows_when
  | |- grows (for_each _ _) => apply grows_for_each; intros ?
  | |- grows (gs_bytecode_cache_at _) => apply grows_cache_at
  | |- grows (ps_bytecode_cache_at _) => apply grows_cache_at
  | |- grows (vs_bytecode_cache_at _) => apply grows_cache_at
  | |- grows (modify (store ?p _)) =>
      apply grows_modify; intros ?; apply grown_store; intros ?; trivial
  | |- grows (modify (worker_finish _)) =>
      apply grows_modify; intros ?; rewrite worker_finish_compiler;
      apply grown_fields; reflexivity
  | |- grows (modify _) => apply grows_modify; intros ?; apply grown_fields; reflexivity
  | |- grows (if ?b then _ else _) => destruct b
  | |- grows (match ?o with CompileSucceeded _ => _ | CompileFailed _ => _ end) =>
      destruct o
  | |- grows (let _ := _ in _) => cbn zeta
  | |- grows (let (_, _) := ?d in _) => destruct d
  | |- grows (match ResultHandler ?w with _ => _ end) =>
      destruct (ResultHandler w) as [[? ?|? ?|? ?]|]
  end.

Ltac grows_auto :=
  unfold call, PrepareShaders, SetCurrentPrimitiveTopology,
    GetGeometryShaderFromUid, GetPixelShaderFromUid, GetVertexShaderFromUid,
    HandleGSUIDChange, HandlePSUIDChange, HandleVSUIDChange, ProcCompilationResults,
    call_ResultHandler, HandleGSUIDChange_ResultHandler, HandlePSUIDChange_ResultHandler,
    HandleVSUIDChange_ResultHandler, s_gs_disk_cache_Append, s_ps_disk_cache_Append,
    s_vs_disk_cache_Append, PushByteCode, PanicAlert, write_file, check_uids,
    CompileShaderAsync, test_and_set, lock, unlock;
  repeat grows_step.

Lemma grows_call (c : Call) : grows (call c).
Proof. destruct c; grows_auto. Qed.

Lemma grows_session (cs : list Call) : grows (session cs).
Proof. unfold session. apply grows_for_each. apply grows_call. Qed.


(** No entry regresses during a session. Whatever the renderer calls
    between [Init] and [Shutdown] (with compiler threads finishing units in
    between), an element stays in its cache, a one-shot flag that is set
    stays set, and an entry that is compiled stays compiled. *)
Theorem no_entry_regresses_during_a_session (cs : list Call) (p : EntryPtr) (s : State) :
  let s' := exec (session cs) s in
  (present p s -> present p s') /\
  (initialized p s = true -> initialized p s' = true) /\
  (compiled p s = true -> compiled p s' = true).
Proof.
  cbn zeta. destruct (grows_session cs s) as (Hp & Hi & Hc).
  split; [apply Hp | split; [apply Hi | apply Hc]].
Qed.

(** ** The active bindings *)

(** The entries of the stages whose uid changed have their one-shot flag
    set when [PrepareShaders] returns. *)
Lemma PrepareShaders_tests_changed (ps_dst_alpha_mode : DSTALPHA_MODE)
    (gs_primitive_type components : u32) (xfr : XFMemory) (bpm : BPMemory)
    (on_gpu_thread : bool) (s : State) :
  let gs_uid := GetGeometryShaderUid gs_primitive_type API_D3D11 xfr components in
  let ps_uid := GetPixelShaderUidD3D11 ps_dst_alpha_mode components xfr bpm in
  let vs_uid := GetVertexShaderUidD3D11 components xfr bpm in
  let gs_changed := bool_decide (gs_uid ≠ memo_geometry on_gpu_thread s) in
  let ps_changed := bool_decide (ps_uid ≠ memo_pixel on_gpu_thread s) in
  let vs_changed := bool_decide (vs_uid ≠ memo_vertex on_gpu_thread s) in
  let s' := exec (PrepareShaders ps_dst_alpha_mode gs_primitive_type components xfr bpm
                    on_gpu_thread) s in
  (gs_changed = true -> IsPassthrough gs_uid = false ->
     initialized (addr_gs gs_uid) s' = true) /\
  (ps_changed = true -> initialized (addr_ps ps_uid) s' = true) /\
  (vs_changed = true -> initialized (addr_vs vs_uid) s' = true).
Proof.
  intros gs_uid ps_uid vs_uid gs_changed ps_changed vs_changed s'.
  pose proof (PrepareShaders_memo_miss ps_dst_alpha_mode gs_primitive_type components xfr bpm
                on_gpu_thread s) as Hmiss.
  cbn zeta in Hmiss.
  fold gs_uid ps_uid vs_uid in Hmiss. fold gs_changed ps_changed vs_changed in Hmiss.
  destruct (negb gs_changed && negb ps_changed && negb vs_changed) eqn:Hall.
  { apply andb_prop in Hall as [Hall Hv]. apply andb_prop in Hall as [Hg Hp].
    apply negb_true_iff in Hg, Hp, Hv. rewrite Hg, Hp, Hv.
    repeat split; discriminate. }
  specialize (Hmiss eq_refl).
  assert (Hs' : s' =
    exec (when vs_changed (step (StepVS vs_uid components xfr bpm on_gpu_thread)))
      (exec (when ps_changed
               (step (StepPS ps_uid ps_dst_alpha_mode components xfr bpm on_gpu_thread)))
         (exec (when gs_changed
                  (step (StepGS gs_uid gs_primitive_type components xfr on_gpu_thread)))
            (remembered on_gpu_thread gs_changed ps_changed vs_changed gs_uid ps_uid vs_uid
               (exec (bind (SetCurrentPrimitiveTopology gs_primitive_type)
                        (fun _ => when on_gpu_thread ProcCompilationResults)) s))))).
  { unfold s', exec at 1. rewrite Hmiss. reflexivity. }
  clearbody s'. subst s'. clear Hmiss.
  rewrite !initialized_when_step. cbn [looked_up].
  clearbody gs_changed ps_changed vs_changed gs_uid ps_uid vs_uid.
  split; [|split].
  - intros -> Hpass. rewrite Hpass.
    repeat case_decide; try reflexivity.
    match goal with K : ~ (true = true /\ _) |- _ => destruct K; auto end.
  - intros ->. repeat case_decide; try reflexivity.
    match goal with K : ~ (true = true /\ Some (addr_ps ps_uid) = _) |- _ => destruct K; auto end.
  - intros ->. repeat case_decide; try reflexivity.
    match goal with K : ~ (true = true /\ _) |- _ => destruct K; auto end.
Qed.


Ltac frame_auto :=
  unfold call, GetGeometryShaderFromUid, GetPixelShaderFromUid, GetVertexShaderFromUid;
  preserves_auto.

(** What a call other than [PrepareShaders] leaves alone. *)
Lemma bindings_of_other_calls (c : Call) :
  (forall a b d x y thr, c <> CallPrepareShaders a b d x y thr) ->
  preserves s_last_geometry_shader_bytecode (call c) /\
  preserves s_last_pixel_shader_bytecode (call c) /\
  preserves s_last_vertex_shader_bytecode (call c) /\
  preserves s_last_pixel_shader_uid (call c) /\
  preserves s_last_vertex_shader_uid (call c).
Proof.
  intros Hc. destruct c as [a b d x y thr| | | | |i]; [destruct (Hc a b d x y thr eq_refl)|..].
  all: repeat split; try frame_auto.
  all: intros s; cbn [call]; rewrite exec_modify, worker_finish_compiler; reflexivity.
Qed.

(** The invariant of a session: the bindings are coherent and the
    passthrough entry is compiled, with its one-shot flag set. *)
Lemma coherent_PrepareShaders (ps_dst_alpha_mode : DSTALPHA_MODE)
    (gs_primitive_type components : u32) (xfr : XFMemory) (bpm : BPMemory)
    (on_gpu_thread : bool) (s : State) :
  bindings_coherent s -> initialized addr_s_pass_entry s = true ->
  bindings_coherent
    (exec (PrepareShaders ps_dst_alpha_mode gs_primitive_type components xfr bpm on_gpu_thread)
       s).
Proof.
  intros (Hcg & Hcp & Hcv) Hpass.
  destruct (PrepareShaders_effect ps_dst_alpha_mode gs_primitive_type components xfr bpm
              on_gpu_thread s)
    as ((Hmg & Hmp & Hmv) & (Hog & Hop & Hov) & _ & Hbg & Hbp & Hbv & _).
  destruct (PrepareShaders_tests_changed ps_dst_alpha_mode gs_primitive_type components xfr bpm
              on_gpu_thread s) as (Htg & Htp & Htv).
  destruct (grows_call (CallPrepareShaders ps_dst_alpha_mode gs_primitive_type components xfr
                          bpm on_gpu_thread) s) as (_ & Hgrow & _).
  cbn zeta in *. cbn [call] in Hgrow.
  set (s' := exec (PrepareShaders ps_dst_alpha_mode gs_primitive_type components xfr bpm
                     on_gpu_thread) s) in *.
  set (gs_uid := GetGeometryShaderUid gs_primitive_type API_D3D11 xfr components) in *.
  set (ps_uid := GetPixelShaderUidD3D11 ps_dst_alpha_mode components xfr bpm) in *.
  set (vs_uid := GetVertexShaderUidD3D11 components xfr bpm) in *.
  assert (Ug : bool_decide (gs_uid ≠ memo_geometry on_gpu_thread s) = false ->
               memo_geometry on_gpu_thread s = gs_uid) by apply unchanged_uid.
  assert (Up : bool_decide (ps_uid ≠ memo_pixel on_gpu_thread s) = false ->
               memo_pixel on_gpu_thread s = ps_uid) by apply unchanged_uid.
  assert (Uv : bool_decide (vs_uid ≠ memo_vertex on_gpu_thread s) = false ->
               memo_vertex on_gpu_thread s = vs_uid) by apply unchanged_uid.
  clearbody s' gs_uid ps_uid vs_uid.
  unfold bindings_coherent.
  destruct on_gpu_thread; cbn [memo_geometry memo_pixel memo_vertex negb andb] in *.
  - (* the submission context *)
    rewrite Hbg, Hbp, Hbv, Hmp, Hmv. rewrite !andb_true_r.
    split; [|split].
    + destruct (bool_decide (gs_uid ≠ s_last_geometry_shader_uid s)) eqn:Hc.
      * destruct (IsPassthrough gs_uid) eqn:Hpt; intros p [= <-].
        -- split; [left; reflexivity | apply Hgrow; exact Hpass].
        -- split; [right; eauto | apply Htg; reflexivity].
      * intros p Hp. destruct (Hcg p Hp) as (Hshape & Hinit).
        split; [exact Hshape | apply Hgrow; exact Hinit].
    + destruct (bool_decide (ps_uid ≠ s_last_pixel_shader_uid s)) eqn:Hc.
      * intros p [= <-]. split; [reflexivity | apply Htp; reflexivity].
      * intros p Hp. destruct (Hcp p Hp) as (Hshape & Hinit).
        split; [rewrite Hshape, (Up eq_refl); reflexivity | apply Hgrow; exact Hinit].
    + destruct (bool_decide (vs_uid ≠ s_last_vertex_shader_uid s)) eqn:Hc.
      * intros p [= <-]. split; [reflexivity | apply Htv; reflexivity].
      * intros p Hp. destruct (Hcv p Hp) as (Hshape & Hinit).
        split; [rewrite Hshape, (Uv eq_refl); reflexivity | apply Hgrow; exact Hinit].
  - (* an auxiliary context *)
    rewrite Hbg, Hbp, Hbv, Hop, Hov. rewrite !andb_false_r.
    split; [|split].
    + destruct (bool_decide (gs_uid ≠ s_last_cpu_geometry_shader_uid s)),
        (IsPassthrough gs_uid); intros p Hp;
        try (destruct (Hcg p Hp) as (Hshape & Hinit);
             split; [exact Hshape | apply Hgrow; exact Hinit]).
      injection Hp as <-. split; [left; reflexivity | apply Hgrow; exact Hpass].
    + intros p Hp. destruct (Hcp p Hp) as (Hshape & Hinit).
      split; [exact Hshape | apply Hgrow; exact Hinit].
    + intros p Hp. destruct (Hcv p Hp) as (Hshape & Hinit).
      split; [exact Hshape | apply Hgrow; exact Hinit].
Qed.


Lemma coherent_call (c : Call) (s : State) :
  bindings_coherent s /\ initialized addr_s_pass_entry s = true /\
  compiled addr_s_pass_entry s = true ->
  bindings_coherent (exec (call c) s) /\ initialized addr_s_pass_entry (exec (call c) s) = true /\
  compiled addr_s_pass_entry (exec (call c) s) = true.
Proof.
  intros (Hcoh & Hinit & Hcomp).
  destruct (grows_call c s) as (_ & Hgi & Hgc).
  split; [|split; [apply Hgi; exact Hinit | apply Hgc; exact Hcomp]].
  destruct c as [a b d x y thr| | | | |i];
    [apply coherent_PrepareShaders; assumption|..].
  all: match goal with
       | |- bindings_coherent (exec (call ?c) _) =>
           destruct (bindings_of_other_calls c ltac:(discriminate))
             as (Hg & Hp & Hv & Hup & Huv)
       end.
  all: destruct Hcoh as (Hcg & Hcp & Hcv); unfold bindings_coherent.
  all: rewrite Hg, Hp, Hv, Hup, Huv.
  all: split; [|split]; intros p Hb;
       [destruct (Hcg p Hb) as (Hshape & Hi) | destruct (Hcp p Hb) as (Hshape & Hi)
       | destruct (Hcv p Hb) as (Hshape & Hi)];
       (split; [exact Hshape | apply Hgi; exact Hi]).
Qed.

Lemma coherent_after_Init (s0 : State) :
  bindings_coherent (exec Init s0) /\ initialized addr_s_pass_entry (exec Init s0) = true /\
  compiled addr_s_pass_entry (exec Init s0) = true.
Proof.
  destruct (Init_state s0) as (_ & _ & _ & Hc & Hi & Hbg & Hbp & Hbv & _).
  unfold bindings_coherent. rewrite Hbg, Hbp, Hbv.
  repeat split; try discriminate; assumption.
Qed.

Lemma coherent_session (cs : list Call) (s : State) :
  bindings_coherent s /\ initialized addr_s_pass_entry s = true /\
  compiled addr_s_pass_entry s = true ->
  bindings_coherent (exec (session cs) s) /\
  initialized addr_s_pass_entry (exec (session cs) s) = true /\
  compiled addr_s_pass_entry (exec (session cs) s) = true.
Proof.
  revert s. unfold session. induction cs as [|c cs IH]; intros s Hs; [exact Hs|].
  rewrite exec_for_each_cons. apply IH. apply coherent_call. exact Hs.
Qed.

Lemma initialized_is_present (p : EntryPtr) (s : State) :
  initialized p s = true -> present p s.
Proof.
  unfold initialized. destruct p; cbn [load present]; [trivial| | |];
    destruct (_ !! uid); cbn; eauto; discriminate.
Qed.

(** The active bindings of a session. From [Init] on, whatever the renderer
    calls from either context: the active pixel bytecode, when the pointer is
    bound, is the bytecode of the element of the pixel cache under the active
    pixel uid, and likewise for the vertex stage; the active geometry
    bytecode is the one of the passthrough entry or of an element of the
    geometry cache; no active pointer dangles, the entry behind each has its
    one-shot flag set, and the passthrough entry stays compiled. *)
Theorem active_bindings_stay_coherent (cs : list Call) (s0 : State) :
  let s := exec (session cs) (exec Init s0) in
  bindings_coherent s /\
  compiled addr_s_pass_entry s = true /\
  (forall p, s_last_geometry_shader_bytecode s = Some p \/
             s_last_pixel_shader_bytecode s = Some p \/
             s_last_vertex_shader_bytecode s = Some p -> present p s) /\
  (forall bytecode, GetActivePixelShaderBytecode s = Some bytecode ->
     exists entry, ps_bytecode_cache s !! GetActivePixelShaderUid s = Some entry /\
                   bytecode = m_shader_bytecode entry) /\
  (forall bytecode, GetActiveVertexShaderBytecode s = Some bytecode ->
     exists entry, vs_bytecode_cache s !! GetActiveVertexShaderUid s = Some entry /\
                   bytecode = m_shader_bytecode entry) /\
  (forall bytecode, GetActiveGeometryShaderBytecode s = Some bytecode ->
     bytecode = m_shader_bytecode (s_pass_entry s) \/
     exists uid entry, gs_bytecode_cache s !! uid = Some entry /\
                       bytecode = m_shader_bytecode entry).
Proof.
  intros s.
  destruct (coherent_session cs (exec Init s0) (coherent_after_Init s0))
    as (Hcoh & _ & Hcomp).
  fold s in Hcoh, Hcomp. clearbody s.
  split; [exact Hcoh|]. split; [exact Hcomp|].
  destruct Hcoh as (Hcg & Hcp & Hcv).
  unfold GetActivePixelShaderBytecode, GetActiveVertexShaderBytecode,
    GetActiveGeometryShaderBytecode, GetActivePixelShaderUid, GetActiveVertexShaderUid.
  split; [|split; [|split]].
  - intros p [Hb|[Hb|Hb]]; apply initialized_is_present;
      [apply (Hcg p Hb) | apply (Hcp p Hb) | apply (Hcv p Hb)].
  - intros bytecode Hb. destruct (s_last_pixel_shader_bytecode s) as [p|] eqn:Hp;
      [|discriminate].
    destruct (Hcp p eq_refl) as (-> & Hi). apply initialized_is_present in Hi.
    cbn [present] in Hi. destruct Hi as [entry He]. exists entry. split; [exact He|].
    cbn in Hb. rewrite He in Hb. cbn in Hb. congruence.
  - intros bytecode Hb. destruct (s_last_vertex_shader_bytecode s) as [p|] eqn:Hp;
      [|discriminate].
    destruct (Hcv p eq_refl) as (-> & Hi). apply initialized_is_present in Hi.
    cbn [present] in Hi. destruct Hi as [entry He]. exists entry. split; [exact He|].
    cbn in Hb. rewrite He in Hb. cbn in Hb. congruence.
  - intros bytecode Hb. destruct (s_last_geometry_shader_bytecode s) as [p|] eqn:Hp;
      [|discriminate].
    destruct (Hcg p eq_refl) as ([-> |(uid & ->)] & Hi).
    + left. cbn in Hb. congruence.
    + right. apply initialized_is_present in Hi. cbn [present] in Hi.
      destruct Hi as [entry He]. exists uid, entry. split; [exact He|].
      cbn in Hb. rewrite He in Hb. cbn in Hb. congruence.
Qed.

(* ===================================================================== *)
(** * Lookups by uid and the auxiliary context                            *)
(* ===================================================================== *)

Lemma exec_InsertByteCode_gs (uid : GeometryShaderUid) (blob : D3DBlob) (s : State) :
  exec (InsertByteCode gs_bytecode_cache_at uid blob) s =
  set_gs_bytecode_cache (<[uid := inserted blob (gs_bytecode_cache s !! uid)]>
                           (gs_bytecode_cache s))
    (set_s_shader_blob_list (s_shader_blob_list s ++ [blob]) s).
Proof.
  etransitivity; [|apply (exec_Read_gs uid blob s)].
  unfold ShaderCacheInserter_Read. rewrite take_ge by reflexivity. reflexivity.
Qed.

Lemma exec_InsertByteCode_ps (uid : PixelShaderUid) (blob : D3DBlob) (s : State) :
  exec (InsertByteCode ps_bytecode_cache_at uid blob) s =
  set_ps_bytecode_cache (<[uid := inserted blob (ps_bytecode_cache s !! uid)]>
                           (ps_bytecode_cache s))
    (set_s_shader_blob_list (s_shader_blob_list s ++ [blob]) s).
Proof.
  etransitivity; [|apply (exec_Read_ps uid blob s)].
  unfold ShaderCacheInserter_Read. rewrite take_ge by reflexivity. reflexivity.
Qed.

Lemma exec_InsertByteCode_vs (uid : VertexShaderUid) (blob : D3DBlob) (s : State) :
  exec (InsertByteCode vs_bytecode_cache_at uid blob) s =
  set_vs_bytecode_cache (<[uid := inserted blob (vs_bytecode_cache s !! uid)]>
                           (vs_bytecode_cache s))
    (set_s_shader_blob_list (s_shader_blob_list s ++ [blob]) s).
Proof.
  etransitivity; [|apply (exec_Read_vs uid blob s)].
  unfold ShaderCacheInserter_Read. rewrite take_ge by reflexivity. reflexivity.
Qed.

Lemma GetGeometryShaderFromUid_hit (uid : GeometryShaderUid) (entry : ByteCodeCacheEntry)
    (s : State) :
  gs_bytecode_cache s !! uid = Some entry ->
  GetGeometryShaderFromUid uid s = (m_shader_bytecode entry, s, [EvLookup (addr_gs uid)]).
Proof.
  intros He. unfold GetGeometryShaderFromUid, gs_bytecode_cache_at, bind, modify, emit, gets, ret.
  cbn [app load]. rewrite subscript_present by eauto. state_simpl.
  rewrite He. destruct s; reflexivity.
Qed.

Lemma GetPixelShaderFromUid_hit (uid : PixelShaderUid) (entry : ByteCodeCacheEntry)
    (s : State) :
  ps_bytecode_cache s !! uid = Some entry ->
  GetPixelShaderFromUid uid s = (m_shader_bytecode entry, s, [EvLookup (addr_ps uid)]).
Proof.
  intros He. unfold GetPixelShaderFromUid, ps_bytecode_cache_at, bind, modify, emit, gets, ret.
  cbn [app load]. rewrite subscript_present by eauto. state_simpl.
  rewrite He. destruct s; reflexivity.
Qed.

Lemma GetVertexShaderFromUid_hit (uid : VertexShaderUid) (entry : ByteCodeCacheEntry)
    (s : State) :
  vs_bytecode_cache s !! uid = Some entry ->
  GetVertexShaderFromUid uid s = (m_shader_bytecode entry, s, [EvLookup (addr_vs uid)]).
Proof.
  intros He. unfold GetVertexShaderFromUid, vs_bytecode_cache_at, bind, modify, emit, gets, ret.
  cbn [app load]. rewrite subscript_present by eauto. state_simpl.
  rewrite He. destruct s; reflexivity.
Qed.

(** Insertion and lookup. An accessor by uid, asked for a uid that is in
    the cache, returns the bytecode of its element and changes nothing. After
    [InsertByteCode] for a uid the accessor returns the bytes of the inserted
    blob and their length, whatever the cache held for the uid before; the
    elements of the other uids are as they were, and the blob is kept in the
    blob list. *)
Theorem GetShaderFromUid_returns_what_InsertByteCode_stored
    (gs_uid : GeometryShaderUid) (ps_uid : PixelShaderUid) (vs_uid : VertexShaderUid)
    (blob : D3DBlob) (s : State) :
  let sg := exec (InsertByteCode gs_bytecode_cache_at gs_uid blob) s in
  let sp := exec (InsertByteCode ps_bytecode_cache_at ps_uid blob) s in
  let sv := exec (InsertByteCode vs_bytecode_cache_at vs_uid blob) s in
  (forall entry s0, gs_bytecode_cache s0 !! gs_uid = Some entry ->
     GetGeometryShaderFromUid gs_uid s0 =
       (m_shader_bytecode entry, s0, [EvLookup (addr_gs gs_uid)])) /\
  (forall entry s0, ps_bytecode_cache s0 !! ps_uid = Some entry ->
     GetPixelShaderFromUid ps_uid s0 =
       (m_shader_bytecode entry, s0, [EvLookup (addr_ps ps_uid)])) /\
  (forall entry s0, vs_bytecode_cache s0 !! vs_uid = Some entry ->
     GetVertexShaderFromUid vs_uid s0 =
       (m_shader_bytecode entry, s0, [EvLookup (addr_vs vs_uid)])) /\
  (GetGeometryShaderFromUid gs_uid sg =
     ({| pShaderBytecode := Some blob; BytecodeLength := length blob |}, sg,
      [EvLookup (addr_gs gs_uid)]) /\
   (forall uid, uid <> gs_uid -> gs_bytecode_cache sg !! uid = gs_bytecode_cache s !! uid) /\
   s_shader_blob_list sg = s_shader_blob_list s ++ [blob]) /\
  (GetPixelShaderFromUid ps_uid sp =
     ({| pShaderBytecode := Some blob; BytecodeLength := length blob |}, sp,
      [EvLookup (addr_ps ps_uid)]) /\
   (forall uid, uid <> ps_uid -> ps_bytecode_cache sp !! uid = ps_bytecode_cache s !! uid) /\
   s_shader_blob_list sp = s_shader_blob_list s ++ [blob]) /\
  (GetVertexShaderFromUid vs_uid sv =
     ({| pShaderBytecode := Some blob; BytecodeLength := length blob |}, sv,
      [EvLookup (addr_vs vs_uid)]) /\
   (forall uid, uid <> vs_uid -> vs_bytecode_cache sv !! uid = vs_bytecode_cache s !! uid) /\
   s_shader_blob_list sv = s_shader_blob_list s ++ [blob]).
Proof.
  cbn zeta.
  split; [intros entry s0; apply GetGeometryShaderFromUid_hit|].
  split; [intros entry s0; apply GetPixelShaderFromUid_hit|].
  split; [intros entry s0; apply GetVertexShaderFromUid_hit|].
  rewrite exec_InsertByteCode_gs, exec_InsertByteCode_ps, exec_InsertByteCode_vs.
  split; [|split]; (split; [|split; [|reflexivity]]).
  - apply (GetGeometryShaderFromUid_hit gs_uid (inserted blob (gs_bytecode_cache s !! gs_uid))).
    state_simpl. apply lookup_insert_eq.
  - intros uid Hne. state_simpl. apply lookup_insert_ne. congruence.
  - apply (GetPixelShaderFromUid_hit ps_uid (inserted blob (ps_bytecode_cache s !! ps_uid))).
    state_simpl. apply lookup_insert_eq.
  - intros uid Hne. state_simpl. apply lookup_insert_ne. congruence.
  - apply (GetVertexShaderFromUid_hit vs_uid (inserted blob (vs_bytecode_cache s !! vs_uid))).
    state_simpl. apply lookup_insert_eq.
  - intros uid Hne. state_simpl. apply lookup_insert_ne. congruence.
Qed.


(** ** Dispatches of a session *)

Lemma occurrences_dispatches (p : EntryPtr) (t : list Event) :
  occurrences (EvCompileShaderAsync p) (dispatches t) = occurrences (EvCompileShaderAsync p) t.
Proof.
  unfold dispatches. induction t as [|e t IH]; [reflexivity|].
  rewrite filter_cons. destruct e; cbn [is_dispatch];
    try (rewrite decide_False by discriminate; rewrite IH, occurrences_cons,
           decide_False by discriminate; reflexivity).
  rewrite decide_True by reflexivity. rewrite !occurrences_cons, IH. reflexivity.
Qed.

Lemma occurrences_none (e : Event) (t : list Event) :
  Forall (fun e' => e' <> e) t -> occurrences e t = 0.
Proof.
  induction 1 as [|e' t He _ IH]; [reflexivity|].
  rewrite occurrences_cons, decide_False by exact He. exact IH.
Qed.

Lemma occurrences_dispatch_of (p : EntryPtr) (changed : bool) (c : Step) (s : State) :
  initialized p s = true ->
  occurrences (EvCompileShaderAsync p) (dispatch_of changed c s) = 0.
Proof.
  intros Hp. unfold dispatch_of. destruct (looked_up c) as [q|]; [|reflexivity].
  destruct (decide (q = p)) as [->|Hne].
  - rewrite Hp, andb_false_r. reflexivity.
  - destruct (changed && negb (initialized q s)); [|reflexivity].
    rewrite occurrences_cons, decide_False by congruence. reflexivity.
Qed.

Ltac emits_any :=
  unfold call, PrepareShaders, SetCurrentPrimitiveTopology,
    GetGeometryShaderFromUid, GetPixelShaderFromUid, GetVertexShaderFromUid,
    HandleGSUIDChange, HandlePSUIDChange, HandleVSUIDChange, check_uids, PanicAlert,
    CompileShaderAsync, gs_bytecode_cache_at, ps_bytecode_cache_at, vs_bytecode_cache_at,
    test_and_set, lock, unlock;
  repeat lazymatch goal with
    | |- emits _ (bind _ _) => apply emits_bind; [|intros ?]
    | |- emits _ (ret _) => apply emits_ret
    | |- emits _ (gets _) => apply emits_gets
    | |- emits _ (modify _) => apply emits_modify
    | |- emits _ (when _ _) => apply emits_when
    | |- emits _ (emit _) => apply emits_emit; cbn beta; discriminate
    | |- emits _ (if false then _ else _) => cbv iota
    | |- emits _ (if ?b then _ else _) => destruct b
    | |- emits _ (let _ := _ in _) => cbn zeta
    | |- emits _ (let (_, _) := ?d in _) => destruct d
    end.

Lemma no_dispatch_in_call (c : Call) (p : EntryPtr) (s : State) :
  initialized p s = true ->
  occurrences (EvCompileShaderAsync p) (events (call c) s) = 0.
Proof.
  intros Hp. destruct c as [a b d x y thr| |u|u|u|i].
  - cbn [call]. rewrite <- occurrences_dispatches.
    destruct (PrepareShaders_effect a b d x y thr s) as (_ & _ & _ & _ & _ & _ & _ & _ & _ & _ & ->).
    rewrite !occurrences_app, !occurrences_dispatch_of by exact Hp. reflexivity.
  - apply occurrences_quiet; [apply quiet_ProcCompilationResults | reflexivity].
  - apply occurrences_none.
    apply (ltac:(emits_any) : emits (fun e => e <> EvCompileShaderAsync p)
                                 (call (CallGetGeometryShaderFromUid u))).
  - apply occurrences_none.
    apply (ltac:(emits_any) : emits (fun e => e <> EvCompileShaderAsync p)
                                 (call (CallGetPixelShaderFromUid u))).
  - apply occurrences_none.
    apply (ltac:(emits_any) : emits (fun e => e <> EvCompileShaderAsync p)
                                 (call (CallGetVertexShaderFromUid u))).
  - reflexivity.
Qed.

Lemma no_dispatch_in_session (cs : list Call) (p : EntryPtr) (s : State) :
  initialized p s = true ->
  occurrences (EvCompileShaderAsync p) (events (session cs) s) = 0.
Proof.
  revert s. unfold session. induction cs as [|c cs IH]; intros s Hp; [reflexivity|].
  rewrite events_for_each_cons, occurrences_app, no_dispatch_in_call by exact Hp.
  apply IH. apply (grows_call c s). exact Hp.
Qed.


(** ** The auxiliary context *)

Lemma completed_PrepareShaders_auxiliary (ps_dst_alpha_mode : DSTALPHA_MODE)
    (gs_primitive_type components : u32) (xfr : XFMemory) (bpm : BPMemory) :
  preserves (fun s => completed (s_compiler s))
    (PrepareShaders ps_dst_alpha_mode gs_primitive_type components xfr bpm false).
Proof.
  unfold PrepareShaders, SetCurrentPrimitiveTopology. cbv iota.
  repeat first [preserves_step | progress preserves_auto].
Qed.

Lemma no_drain_in_PrepareShaders_auxiliary (ps_dst_alpha_mode : DSTALPHA_MODE)
    (gs_primitive_type components : u32) (xfr : XFMemory) (bpm : BPMemory) :
  emits (fun e => e <> EvProcCompilationResults)
    (PrepareShaders ps_dst_alpha_mode gs_primitive_type components xfr bpm false).
Proof. emits_any. Qed.

(** A call of [PrepareShaders] from an auxiliary context warms the caches
    and leaves the submission context alone, the geometry pointer apart: it
    drains no completion and runs no completion handler, it does not set the
    dirty flag, and it changes neither the active uids nor the active pixel
    and vertex pointers. The entry of every stage whose uid differs from the
    one the auxiliary context remembers has its one-shot flag set afterwards
    (the geometry one unless the uid is a passthrough one), so that no later
    call of the session, from either context, dispatches a compile for it. *)
Theorem PrepareShaders_on_an_auxiliary_context_warms_the_caches
    (ps_dst_alpha_mode : DSTALPHA_MODE) (gs_primitive_type components : u32)
    (xfr : XFMemory) (bpm : BPMemory) (s : State) :
  let gs_uid := GetGeometryShaderUid gs_primitive_type API_D3D11 xfr components in
  let ps_uid := GetPixelShaderUidD3D11 ps_dst_alpha_mode components xfr bpm in
  let vs_uid := GetVertexShaderUidD3D11 components xfr bpm in
  let warm := PrepareShaders ps_dst_alpha_mode gs_primitive_type components xfr bpm false in
  let s' := exec warm s in
  (GetActiveGeometryShaderUid s' = GetActiveGeometryShaderUid s /\
   GetActivePixelShaderUid s' = GetActivePixelShaderUid s /\
   GetActiveVertexShaderUid s' = GetActiveVertexShaderUid s) /\
  (s_last_pixel_shader_bytecode s' = s_last_pixel_shader_bytecode s /\
   s_last_vertex_shader_bytecode s' = s_last_vertex_shader_bytecode s) /\
  m_dirty_pso s' = m_dirty_pso s /\
  (drains (events warm s) = 0 /\ completed (s_compiler s') = completed (s_compiler s)) /\
  (gs_uid <> s_last_cpu_geometry_shader_uid s -> IsPassthrough gs_uid = false ->
     initialized (addr_gs gs_uid) s' = true /\
     forall later, occurrences (EvCompileShaderAsync (addr_gs gs_uid))
                     (events (session later) s') = 0) /\
  (ps_uid <> s_last_cpu_pixel_shader_uid s ->
     initialized (addr_ps ps_uid) s' = true /\
     forall later, occurrences (EvCompileShaderAsync (addr_ps ps_uid))
                     (events (session later) s') = 0) /\
  (vs_uid <> s_last_cpu_vertex_shader_uid s ->
     initialized (addr_vs vs_uid) s' = true /\
     forall later, occurrences (EvCompileShaderAsync (addr_vs vs_uid))
                     (events (session later) s') = 0).
Proof.
  intros gs_uid ps_uid vs_uid warm s'.
  destruct (PrepareShaders_effect ps_dst_alpha_mode gs_primitive_type components xfr bpm
              false s) as (_ & (Hog & Hop & Hov) & Hdirty & _ & Hbp & Hbv & _).
  destruct (PrepareShaders_tests_changed ps_dst_alpha_mode gs_primitive_type components xfr bpm
              false s) as (Htg & Htp & Htv).
  pose proof (completed_PrepareShaders_auxiliary ps_dst_alpha_mode gs_primitive_type components
                xfr bpm s) as Hcompleted.
  pose proof (no_drain_in_PrepareShaders_auxiliary ps_dst_alpha_mode gs_primitive_type
                components xfr bpm s) as Hdrain.
  cbn zeta in *. cbn [memo_geometry memo_pixel memo_vertex negb andb] in *.
  rewrite andb_false_r in Hbp, Hbv.
  fold gs_uid ps_uid vs_uid in Htg, Htp, Htv.
  fold warm in Hog, Hop, Hov, Hdirty, Hbp, Hbv, Htg, Htp, Htv, Hcompleted, Hdrain.
  fold s' in Hog, Hop, Hov, Hdirty, Hbp, Hbv, Htg, Htp, Htv, Hcompleted.
  unfold GetActiveGeometryShaderUid, GetActivePixelShaderUid, GetActiveVertexShaderUid.
  clearbody s' warm gs_uid ps_uid vs_uid.
  split; [auto|]. split; [auto|]. split; [exact Hdirty|].
  split; [split; [apply occurrences_none; exact Hdrain | exact Hcompleted]|].
  split; [|split].
  - intros Hne Hpass.
    assert (Hset : initialized (addr_gs gs_uid) s' = true)
      by (apply Htg; [apply bool_decide_true; exact Hne | exact Hpass]).
    split; [exact Hset | intros later; apply no_dispatch_in_session; exact Hset].
  - intros Hne.
    assert (Hset : initialized (addr_ps ps_uid) s' = true)
      by (apply Htp; apply bool_decide_true; exact Hne).
    split; [exact Hset | intros later; apply no_dispatch_in_session; exact Hset].
  - intros Hne.
    assert (Hset : initialized (addr_vs vs_uid) s' = true)
      by (apply Htv; apply bool_decide_true; exact Hne).
    split; [exact Hset | intros later; apply no_dispatch_in_session; exact Hset].
Qed.

(* ===================================================================== *)
(** * Waiting for readiness, and failed compilations                      *)
(* ===================================================================== *)

Lemma yields_cons_yield (count : Z) (t : list Event) :
  yields (EvYield count :: t) = S (yields t).
Proof. reflexivity. Qed.

Lemma drains_cons_yield (count : Z) (t : list Event) :
  drains (EvYield count :: t) = drains t.
Proof. unfold drains. rewrite occurrences_cons, decide_False by discriminate. reflexivity. Qed.

Lemma TestShaders_loop_rounds (finished : nat -> list nat) (g p v : EntryPtr) (n : nat) :
  forall (count : nat) (s : State) (fuel : nat),
  bFullAsyncShaderCompilation (g_ActiveConfig s) = false ->
  (forall k, k < n -> active_compiled g p v (rounds finished count k s) = false) ->
  active_compiled g p v (rounds finished count n s) = true ->
  n <= fuel ->
  exists t,
    TestShaders_loop fuel finished count g p v s = Some (true, rounds finished count n s, t) /\
    drains t = n /\ yields t = n.
Proof.
  induction n as [|n IH]; intros count s fuel Hwait Hnot Hready Hfuel.
  - cbn [rounds] in *. exists []. destruct fuel; cbn [TestShaders_loop]; rewrite Hready;
      repeat split.
  - destruct fuel as [|fuel]; [lia|].
    pose proof (Hnot 0 ltac:(lia)) as Hfirst.
    assert (Hlater : forall k, k < n ->
              active_compiled g p v
                (rounds finished (S count) k
                   (exec ProcCompilationResults (workers_finish (finished count) s))) = false)
      by (intros k Hk; apply (Hnot (S k)); lia).
    clear Hnot. cbn [TestShaders_loop rounds] in *. rewrite Hfirst.
    pose proof (control_preserved_iteration (finished count) s) as Hctl.
    pose proof (drains_ProcCompilationResults (workers_finish (finished count) s))
      as (Hdr & Hyi).
    unfold exec, events in *.
    destruct (ProcCompilationResults (workers_finish (finished count) s)) as [[u s1] t1].
    cbn [fst snd] in *.
    assert (Hwait1 : bFullAsyncShaderCompilation (g_ActiveConfig s1) = false).
    { destruct Hctl as (_ & _ & _ & _ & _ & _ & _ & _ & _ & _ & _ & Hcfg & _).
      rewrite Hcfg. exact Hwait. }
    rewrite Hwait1.
    destruct (IH (S count) s1 fuel Hwait1) as (t & Hrun & Hd & Hy).
    + exact Hlater.
    + exact Hready.
    + lia.
    + rewrite Hrun. eexists. split; [reflexivity|].
      rewrite drains_app, yields_app, drains_cons_yield, yields_cons_yield, Hdr, Hyi, Hd, Hy.
      split; lia.
Qed.

Lemma bound_rounds (finished : nat -> list nat) (n : nat) :
  forall (count : nat) (s : State), control_preserved s (rounds finished count n s).
Proof.
  induction n as [|n IH]; intros count s; cbn [rounds]; [apply control_preserved_refl|].
  eapply control_preserved_trans; [apply control_preserved_iteration | apply IH].
Qed.

Lemma all_active_compiled_bound (s s' : State) (g p v : EntryPtr) :
  s_last_geometry_shader_bytecode s = Some g ->
  s_last_pixel_shader_bytecode s = Some p ->
  s_last_vertex_shader_bytecode s = Some v ->
  control_preserved s s' ->
  all_active_compiled s' = active_compiled g p v s'.
Proof.
  intros Hg Hp Hv (Hg' & Hp' & Hv' & _). unfold all_active_compiled.
  rewrite Hg', Hp', Hv', Hg, Hp, Hv. reflexivity.
Qed.

(** Under the wait policy [TestShaders] returns at the first iteration at
    which the three active entries are compiled. If they are compiled after
    [n] iterations (the compiler threads finishing units as the schedule
    says, each iteration draining once) and not before, then the call returns
    true in the state of that iteration, after exactly [n] drains and [n]
    yields, for every bound on the iterations that is at least [n]. *)
Theorem TestShaders_returns_at_the_first_ready_iteration (finished : nat -> list nat)
    (n : nat) (s : State) :
  bFullAsyncShaderCompilation (g_ActiveConfig s) = false ->
  all_active_bound s = true ->
  (forall k, k < n -> all_active_compiled (rounds finished 0 k s) = false) ->
  all_active_compiled (rounds finished 0 n s) = true ->
  forall fuel, n <= fuel ->
  exists t,
    TestShaders fuel finished s = Some (true, rounds finished 0 n s, t) /\
    drains t = n /\ yields t = n.
Proof.
  intros Hwait Hbound Hnot Hready fuel Hfuel.
  destruct (TestShaders_bound s Hbound) as (g & p & v & Hg & Hp & Hv & _ & Hloop).
  rewrite Hloop. apply TestShaders_loop_rounds; try assumption.
  - intros k Hk.
    rewrite <- (all_active_compiled_bound s _ g p v Hg Hp Hv (bound_rounds finished k 0 s)).
    apply Hnot. exact Hk.
  - rewrite <- (all_active_compiled_bound s _ g p v Hg Hp Hv (bound_rounds finished n 0 s)).
    exact Hready.
Qed.


(** ** Failed compilations *)



(** ** The first draw of the submission context *)

Lemma occurrences_lookup_handler_events (p q : EntryPtr) (previous : bool) :
  p <> q -> occurrences (EvLookup q) (handler_events p previous) = 0.
Proof.
  intros Hpq. unfold handler_events. rewrite occurrences_app, !occurrences_cons.
  rewrite !decide_False by congruence.
  destruct previous; [reflexivity|].
  rewrite occurrences_cons, decide_False by congruence. reflexivity.
Qed.

Lemma occurrences_lookup_quiet {A : Type} (m : M A) (q : EntryPtr) (s : State) :
  quiet m -> occurrences (EvLookup q) (events m s) = 0.
Proof.
  intros Hq. destruct (Hq s) as (_ & Hev & _).
  apply occurrences_quiet; [exact Hev | reflexivity].
Qed.

(** A stage whose uid is the one its context remembers is not looked up:
    no event of the call subscripts the cache of the stage. *)
Lemma unchanged_stage_is_not_looked_up (ps_dst_alpha_mode : DSTALPHA_MODE)
    (gs_primitive_type components : u32) (xfr : XFMemory) (bpm : BPMemory)
    (on_gpu_thread : bool) (s : State) :
  let gs_uid := GetGeometryShaderUid gs_primitive_type API_D3D11 xfr components in
  let ps_uid := GetPixelShaderUidD3D11 ps_dst_alpha_mode components xfr bpm in
  let vs_uid := GetVertexShaderUidD3D11 components xfr bpm in
  let call := PrepareShaders ps_dst_alpha_mode gs_primitive_type components xfr bpm
                on_gpu_thread in
  (gs_uid = memo_geometry on_gpu_thread s ->
     forall uid, occurrences (EvLookup (addr_gs uid)) (events call s) = 0) /\
  (ps_uid = memo_pixel on_gpu_thread s ->
     forall uid, occurrences (EvLookup (addr_ps uid)) (events call s) = 0) /\
  (vs_uid = memo_vertex on_gpu_thread s ->
     forall uid, occurrences (EvLookup (addr_vs uid)) (events call s) = 0).
Proof.
  intros gs_uid ps_uid vs_uid call.
  assert (Hpro : quiet (bind (SetCurrentPrimitiveTopology gs_primitive_type)
                          (fun _ => when on_gpu_thread ProcCompilationResults)))
    by apply quiet_prologue.
  assert (Hchk : forall a b c, quiet (when on_gpu_thread (check_uids a b c)))
    by (intros a b c; apply quiet_when, quiet_check_uids).
  pose proof (PrepareShaders_memo_hit ps_dst_alpha_mode gs_primitive_type components xfr bpm
                on_gpu_thread s) as Hhit.
  pose proof (PrepareShaders_memo_miss ps_dst_alpha_mode gs_primitive_type components xfr bpm
                on_gpu_thread s) as Hmiss.
  cbn zeta in Hmiss. fold gs_uid ps_uid vs_uid in Hhit, Hmiss.
  assert (Hevents : forall q,
    (gs_uid <> memo_geometry on_gpu_thread s -> addr_gs gs_uid <> q) ->
    (ps_uid <> memo_pixel on_gpu_thread s -> addr_ps ps_uid <> q) ->
    (vs_uid <> memo_vertex on_gpu_thread s -> addr_vs vs_uid <> q) ->
    (bool_decide (gs_uid ≠ memo_geometry on_gpu_thread s) = false ->
     bool_decide (ps_uid ≠ memo_pixel on_gpu_thread s) = false ->
     bool_decide (vs_uid ≠ memo_vertex on_gpu_thread s) = false -> False) ->
    occurrences (EvLookup q) (events call s) = 0).
  { intros q Hqg Hqp Hqv Hsome.
    unfold events at 1. unfold call. rewrite Hmiss; cycle 1.
    { destruct (bool_decide (gs_uid ≠ _)) eqn:Eg; [reflexivity|].
      destruct (bool_decide (ps_uid ≠ _)) eqn:Ep; [reflexivity|].
      destruct (bool_decide (vs_uid ≠ _)) eqn:Ev; [reflexivity|].
      destruct (Hsome eq_refl eq_refl eq_refl). }
    cbn [snd]. rewrite !occurrences_app.
    rewrite (occurrences_lookup_quiet _ q s Hpro).
    rewrite (occurrences_lookup_quiet _ q _ (Hchk _ _ _)).
    clear Hhit Hmiss Hsome.
    generalize (remembered on_gpu_thread (bool_decide (gs_uid ≠ memo_geometry on_gpu_thread s))
                  (bool_decide (ps_uid ≠ memo_pixel on_gpu_thread s))
                  (bool_decide (vs_uid ≠ memo_vertex on_gpu_thread s)) gs_uid ps_uid vs_uid
                  (exec (bind (SetCurrentPrimitiveTopology gs_primitive_type)
                           (fun _ => when on_gpu_thread ProcCompilationResults)) s)).
    intros s2.
    assert (HG : occurrences (EvLookup q)
              (events (when (bool_decide (gs_uid ≠ memo_geometry on_gpu_thread s))
                         (HandleGSUIDChange gs_uid gs_primitive_type components xfr
                            on_gpu_thread)) s2) = 0).
    { case_bool_decide as Eg; [|reflexivity]. cbn [when].
      rewrite HandleGSUIDChange_events. destruct (IsPassthrough gs_uid); [reflexivity|].
      apply occurrences_lookup_handler_events, Hqg, Eg. }
    rewrite HG. clear HG.
    generalize (exec (when (bool_decide (gs_uid ≠ memo_geometry on_gpu_thread s))
                        (HandleGSUIDChange gs_uid gs_primitive_type components xfr
                           on_gpu_thread)) s2).
    intros s3.
    assert (HP : occurrences (EvLookup q)
              (events (when (bool_decide (ps_uid ≠ memo_pixel on_gpu_thread s))
                         (HandlePSUIDChange ps_uid ps_dst_alpha_mode components xfr bpm
                            on_gpu_thread)) s3) = 0).
    { case_bool_decide as Ep; [|reflexivity]. cbn [when].
      rewrite HandlePSUIDChange_events.
      apply occurrences_lookup_handler_events, Hqp, Ep. }
    rewrite HP. clear HP.
    generalize (exec (when (bool_decide (ps_uid ≠ memo_pixel on_gpu_thread s))
                        (HandlePSUIDChange ps_uid ps_dst_alpha_mode components xfr bpm
                           on_gpu_thread)) s3).
    intros s4.
    case_bool_decide as Ev; [|reflexivity]. cbn [when].
    rewrite HandleVSUIDChange_events.
    apply occurrences_lookup_handler_events, Hqv, Ev. }
  assert (Hall : forall q,
    bool_decide (gs_uid ≠ memo_geometry on_gpu_thread s) = false ->
    bool_decide (ps_uid ≠ memo_pixel on_gpu_thread s) = false ->
    bool_decide (vs_uid ≠ memo_vertex on_gpu_thread s) = false ->
    occurrences (EvLookup q) (events call s) = 0).
  { intros q Eg Ep Ev.
    apply bool_decide_eq_false, dec_stable in Eg.
    apply bool_decide_eq_false, dec_stable in Ep.
    apply bool_decide_eq_false, dec_stable in Ev.
    unfold events at 1. unfold call. rewrite (Hhit (eq_sym Eg) (eq_sym Ep) (eq_sym Ev)).
    exact (occurrences_lookup_quiet _ q s Hpro). }
  assert (Hcases : forall q,
    (gs_uid <> memo_geometry on_gpu_thread s -> addr_gs gs_uid <> q) ->
    (ps_uid <> memo_pixel on_gpu_thread s -> addr_ps ps_uid <> q) ->
    (vs_uid <> memo_vertex on_gpu_thread s -> addr_vs vs_uid <> q) ->
    occurrences (EvLookup q) (events call s) = 0).
  { intros q Hqg Hqp Hqv.
    destruct (bool_decide (gs_uid ≠ memo_geometry on_gpu_thread s)) eqn:Eg;
      [apply Hevents; try assumption; intros; congruence|].
    destruct (bool_decide (ps_uid ≠ memo_pixel on_gpu_thread s)) eqn:Ep;
      [apply Hevents; try assumption; intros; congruence|].
    destruct (bool_decide (vs_uid ≠ memo_vertex on_gpu_thread s)) eqn:Ev;
      [apply Hevents; try assumption; intros; congruence|].
    apply Hall; first [assumption | reflexivity]. }
  split; [|split]; intros E uid; apply Hcases; intros; congruence.
Qed.


Lemma unbound_if_null (s : State) :
  s_last_geometry_shader_bytecode s = None \/ s_last_pixel_shader_bytecode s = None \/
  s_last_vertex_shader_bytecode s = None ->
  all_active_bound s = false.
Proof.
  unfold all_active_bound.
  destruct (s_last_geometry_shader_bytecode s), (s_last_pixel_shader_bytecode s),
    (s_last_vertex_shader_bytecode s); intros [Hn|[Hn|Hn]]; congruence.
Qed.

Lemma undrawn_after_Init (s0 : State) : undrawn (exec Init s0).
Proof.
  destruct (Init_state s0) as (_ & _ & _ & _ & _ & Hbg & Hbp & Hbv & _).
  destruct (Init_memo s0) as (Hug & Hup & Huv & _).
  unfold undrawn. auto 10.
Qed.

(** A call that is not a [PrepareShaders] of the submission context leaves
    the submission context undrawn. An auxiliary call with a passthrough
    geometry uid binds the geometry pointer all the same. *)
Lemma undrawn_call (c : Call) (s : State) :
  on_submission_context c = false -> undrawn s -> undrawn (exec (call c) s).
Proof.
  intros Hc (Hug & Hup & Huv & Hbp & Hbv & Hbg).
  assert (Hcases : (exists a b d x y thr, c = CallPrepareShaders a b d x y thr) \/
                   (forall a b d x y thr, c <> CallPrepareShaders a b d x y thr))
    by (destruct c; [left; eauto 10 | right; intros; discriminate..]).
  destruct Hcases as [(a & b & d & x & y & thr & ->)|Hne].
  - cbn [on_submission_context] in Hc. subst thr. cbn [call].
    destruct (PrepareShaders_effect a b d x y false s)
      as (_ & (Hg' & Hp' & Hv') & _ & Hg & Hp & Hv & _).
    cbn [negb memo_geometry memo_pixel memo_vertex] in Hg', Hp', Hv'.
    rewrite andb_false_r in Hp, Hv.
    unfold undrawn. rewrite Hg', Hp', Hv', Hp, Hv, Hg.
    repeat match goal with |- _ /\ _ => split end; try assumption.
    destruct (bool_decide _); [|exact Hbg].
    destruct (IsPassthrough _); [right; reflexivity | exact Hbg].
  - destruct (bindings_of_other_calls c Hne) as (Pg & Pp & Pv & Ppu & Pvu).
    assert (Pgu : preserves s_last_geometry_shader_uid (call c)).
    { destruct c as [a b d x y thr| | | | |i]; [destruct (Hne a b d x y thr eq_refl)|..];
        try frame_auto.
      intros s1; cbn [call]; rewrite exec_modify, worker_finish_compiler; reflexivity. }
    unfold undrawn. rewrite (Pg s), (Pp s), (Pv s), (Ppu s), (Pvu s), (Pgu s).
    auto 10.
Qed.

Lemma exec_session_nil (s : State) : exec (session []) s = s.
Proof. reflexivity. Qed.

Lemma undrawn_session (cs : list Call) (s : State) :
  Forall (fun c => on_submission_context c = false) cs ->
  undrawn s -> undrawn (exec (session cs) s).
Proof.
  intros Hcs. revert s. induction Hcs as [|c cs Hc _ IH]; intros s Hs; [exact Hs|].
  unfold session. rewrite exec_for_each_cons. apply IH, undrawn_call; assumption.
Qed.

(** The first [PrepareShaders] of the submission context, in a state in
    which that context has not drawn. *)
Lemma PrepareShaders_when_undrawn (ps_dst_alpha_mode : DSTALPHA_MODE)
    (gs_primitive_type components : u32) (xfr : XFMemory) (bpm : BPMemory) (s : State) :
  undrawn s ->
  let gs_uid := GetGeometryShaderUid gs_primitive_type API_D3D11 xfr components in
  let ps_uid := GetPixelShaderUidD3D11 ps_dst_alpha_mode components xfr bpm in
  let vs_uid := GetVertexShaderUidD3D11 components xfr bpm in
  let draw := PrepareShaders ps_dst_alpha_mode gs_primitive_type components xfr bpm true in
  let s' := exec draw s in
  (ps_uid = PixelShaderUid_zero ->
     s_last_pixel_shader_bytecode s' = None /\ GetActivePixelShaderBytecode s' = None /\
     forall uid, occurrences (EvLookup (addr_ps uid)) (events draw s) = 0) /\
  (vs_uid = VertexShaderUid_zero ->
     s_last_vertex_shader_bytecode s' = None /\ GetActiveVertexShaderBytecode s' = None /\
     forall uid, occurrences (EvLookup (addr_vs uid)) (events draw s) = 0) /\
  (gs_uid = GeometryShaderUid_zero ->
     s_last_geometry_shader_bytecode s' = s_last_geometry_shader_bytecode s /\
     (forall uid, occurrences (EvLookup (addr_gs uid)) (events draw s) = 0) /\
     (s_last_geometry_shader_bytecode s = None ->
        s_last_geometry_shader_bytecode s' = None /\
        GetActiveGeometryShaderBytecode s' = None)) /\
  (ps_uid = PixelShaderUid_zero \/ vs_uid = VertexShaderUid_zero \/
   (gs_uid = GeometryShaderUid_zero /\ s_last_geometry_shader_bytecode s = None) ->
     forall fuel finished, TestShaders fuel finished s' = Some (false, s', [])) /\
  (gs_uid <> GeometryShaderUid_zero -> ps_uid <> PixelShaderUid_zero ->
   vs_uid <> VertexShaderUid_zero -> all_active_bound s' = true).
Proof.
  intros (Hug & Hup & Huv & Hbp & Hbv & Hbg) gs_uid ps_uid vs_uid draw s'.
  destruct (PrepareShaders_effect ps_dst_alpha_mode gs_primitive_type components xfr bpm true
              s) as (_ & _ & _ & Hg & Hp & Hv & _).
  destruct (unchanged_stage_is_not_looked_up ps_dst_alpha_mode gs_primitive_type components
              xfr bpm true s) as (Lg & Lp & Lv).
  cbn zeta in Hg, Hp, Hv, Lg, Lp, Lv.
  cbn [memo_geometry memo_pixel memo_vertex] in Hg, Hp, Hv, Lg, Lp, Lv.
  fold gs_uid ps_uid vs_uid in Hg, Hp, Hv, Lg, Lp, Lv.
  fold draw in Lg, Lp, Lv. fold draw s' in Hg, Hp, Hv.
  unfold GetActiveGeometryShaderBytecode, GetActivePixelShaderBytecode,
    GetActiveVertexShaderBytecode.
  clearbody s' draw gs_uid ps_uid vs_uid.
  rewrite Hug in Hg, Lg. rewrite Hup, andb_true_r in Hp. rewrite Hup in Lp.
  rewrite Huv, andb_true_r in Hv. rewrite Huv in Lv. rewrite Hbp in Hp. rewrite Hbv in Hv.
  assert (HG : gs_uid = GeometryShaderUid_zero ->
               s_last_geometry_shader_bytecode s' = s_last_geometry_shader_bytecode s).
  { intros Hz. rewrite Hg, Hz, bool_decide_false by tauto. reflexivity. }
  assert (HP : ps_uid = PixelShaderUid_zero -> s_last_pixel_shader_bytecode s' = None).
  { intros Hz. rewrite Hp, Hz, bool_decide_false by tauto. reflexivity. }
  assert (HV : vs_uid = VertexShaderUid_zero -> s_last_vertex_shader_bytecode s' = None).
  { intros Hz. rewrite Hv, Hz, bool_decide_false by tauto. reflexivity. }
  split; [|split; [|split; [|split]]].
  - intros Hz. rewrite (HP Hz). split; [reflexivity | split; [reflexivity | exact (Lp Hz)]].
  - intros Hz. rewrite (HV Hz). split; [reflexivity | split; [reflexivity | exact (Lv Hz)]].
  - intros Hz. split; [exact (HG Hz) | split; [exact (Lg Hz)|]].
    intros Hnull. rewrite (HG Hz), Hnull. split; reflexivity.
  - intros Hz fuel finished. apply TestShaders_unbound. apply unbound_if_null.
    destruct Hz as [Hz|[Hz|[Hz Hnull]]]; auto.
    left. rewrite (HG Hz). exact Hnull.
  - intros Hzg Hzp Hzv. unfold all_active_bound.
    rewrite Hg, Hp, Hv, !bool_decide_true by assumption.
    destruct (IsPassthrough gs_uid); reflexivity.
Qed.

(** After [Init] the memo slots of the submission context hold the
    value-initialised uids and no entry is bound, and the calls that are not
    a [PrepareShaders] of the submission context (those of auxiliary
    contexts, the accessors, drains, compiler threads) keep it so, except
    that an auxiliary call with a passthrough geometry uid binds the geometry
    pointer to the passthrough entry. In the first [PrepareShaders] of the
    submission context, a stage whose uid equals the value-initialised uid is
    therefore taken as unchanged: its cache is not looked up and its active
    pointer is left as it was, null for the pixel and the vertex stage, null
    or the passthrough entry for the geometry stage. With a null pointer
    [TestShaders] returns false at once, without a drain, however often the
    caller asks. *)
Theorem first_draw_with_a_value_initialised_uid_binds_nothing (between : list Call)
    (ps_dst_alpha_mode : DSTALPHA_MODE) (gs_primitive_type components : u32)
    (xfr : XFMemory) (bpm : BPMemory) (s0 : State) :
  Forall (fun c => on_submission_context c = false) between ->
  let gs_uid := GetGeometryShaderUid gs_primitive_type API_D3D11 xfr components in
  let ps_uid := GetPixelShaderUidD3D11 ps_dst_alpha_mode components xfr bpm in
  let vs_uid := GetVertexShaderUidD3D11 components xfr bpm in
  let s := exec (session between) (exec Init s0) in
  let draw := PrepareShaders ps_dst_alpha_mode gs_primitive_type components xfr bpm true in
  let s' := exec draw s in
  (ps_uid = PixelShaderUid_zero ->
     s_last_pixel_shader_bytecode s' = None /\ GetActivePixelShaderBytecode s' = None /\
     forall uid, occurrences (EvLookup (addr_ps uid)) (events draw s) = 0) /\
  (vs_uid = VertexShaderUid_zero ->
     s_last_vertex_shader_bytecode s' = None /\ GetActiveVertexShaderBytecode s' = None /\
     forall uid, occurrences (EvLookup (addr_vs uid)) (events draw s) = 0) /\
  (gs_uid = GeometryShaderUid_zero ->
     s_last_geometry_shader_bytecode s' = s_last_geometry_shader_bytecode s /\
     (forall uid, occurrences (EvLookup (addr_gs uid)) (events draw s) = 0) /\
     (s_last_geometry_shader_bytecode s' = None \/
      s_last_geometry_shader_bytecode s' = Some addr_s_pass_entry) /\
     (between = [] ->
        s_last_geometry_shader_bytecode s' = None /\
        GetActiveGeometryShaderBytecode s' = None)) /\
  (ps_uid = PixelShaderUid_zero \/ vs_uid = VertexShaderUid_zero \/
   (gs_uid = GeometryShaderUid_zero /\ s_last_geometry_shader_bytecode s = None) ->
     forall fuel finished, TestShaders fuel finished s' = Some (false, s', [])) /\
  (gs_uid <> GeometryShaderUid_zero -> ps_uid <> PixelShaderUid_zero ->
   vs_uid <> VertexShaderUid_zero -> all_active_bound s' = true).
Proof.
  intros Hbetween.
  pose proof (undrawn_session between (exec Init s0) Hbetween (undrawn_after_Init s0)) as Hs.
  assert (Hfirst : between = [] ->
            s_last_geometry_shader_bytecode (exec (session between) (exec Init s0)) = None).
  { intros ->. rewrite exec_session_nil.
    destruct (Init_state s0) as (_ & _ & _ & _ & _ & Hbg & _). exact Hbg. }
  revert Hs Hfirst. generalize (exec (session between) (exec Init s0)).
  intros s Hs Hfirst. cbn zeta.
  destruct (PrepareShaders_when_undrawn ps_dst_alpha_mode gs_primitive_type components xfr bpm
              s Hs) as (HP & HV & HG & HT & HB).
  split; [exact HP | split; [exact HV | split; [|split; [exact HT | exact HB]]]].
  intros Hz. destruct (HG Hz) as (Hsame & Hlook & Hnull).
  split; [exact Hsame | split; [exact Hlook | split]].
  - rewrite Hsame. destruct Hs as (_ & _ & _ & _ & _ & Hbg). exact Hbg.
  - intros Hnone. apply Hnull, Hfirst, Hnone.
Qed.

End ShaderCacheProperties.

(* ===================================================================== *)
(** * The code on concrete inputs                                         *)
(* ===================================================================== *)

#[local] Existing Instance demo.

(** C1. With shader debugging enabled and a geometry cache file that holds
    one record, [Init] still replays the record: [Clear] is empty, the file
    keeps its record, the entry of the uid is compiled with the bytes of the
    file, and the handler called for the uid afterwards finds the one-shot
    flag set and dispatches nothing. *)
Theorem Init_with_debugging_keeps_the_disk_cache :
  bEnableShaderDebugging (g_Config demo_cached) = true /\
  s_gs_disk_cache demo_cached = [(1%N, [x01; x02])] /\
  s_gs_disk_cache (exec Init demo_cached) = [(1%N, [x01; x02])] /\
  gs_bytecode_cache (exec Init demo_cached) !! 1%N =
    Some {| m_shader_bytecode := published [x01; x02]; m_compiled := true;
            m_initialized := true; code := "" |} /\
  events Init demo_cached =
    [EvUnlock; EvTestAndSet addr_s_pass_entry false;
     EvLock; EvLookup (addr_gs 1%N); EvUnlock; EvTestAndSet (addr_gs 1%N) false] /\
  events (@HandleGSUIDChange demo 1%N 1%N 3%N 5%N true) (exec Init demo_cached) =
    [EvLock; EvLookup (addr_gs 1%N); EvUnlock; EvTestAndSet (addr_gs 1%N) true].
Proof. vm_compute. repeat split; reflexivity. Qed.

(** C3. The submission context draws lines (geometry uid 2); then an
    auxiliary context prepares triangles (the passthrough geometry uid 3).
    The call of the auxiliary context rebinds the active geometry bytecode
    of the submission context to the passthrough entry, while the active
    geometry uid is still 2. The other handlers guard the same assignment
    with [on_gpu_thread]: the pixel pointer is untouched by that call. *)
Theorem passthrough_on_auxiliary_context_rebinds_the_submission_entry :
  let auxiliary := @PrepareShaders demo 0%N 2%N 3%N 7%N 8%N false in
  IsPassthrough (GetGeometryShaderUid 2%N tt 7%N 3%N) = true /\
  s_last_geometry_shader_bytecode (demo_drawn false) = Some (addr_gs 2%N) /\
  s_last_geometry_shader_bytecode (exec auxiliary (demo_drawn false)) =
    Some addr_s_pass_entry /\
  GetActiveGeometryShaderUid (exec auxiliary (demo_drawn false)) = 2%N /\
  s_last_pixel_shader_bytecode (demo_drawn false) = Some (addr_ps 6%N) /\
  s_last_pixel_shader_bytecode (exec auxiliary (demo_drawn false)) = Some (addr_ps 6%N) /\
  GetActiveGeometryShaderBytecode (demo_ready false) = Some (published [x44; x58; x42; x43]) /\
  GetActiveGeometryShaderBytecode (exec auxiliary (demo_ready false)) = Some zero_bytecode.
Proof. vm_compute. repeat split; reflexivity. Qed.

(** C5. A vertex shader whose compilation fails: the dump file holds the
    source and not the diagnostic text of the compiler, which only the alert
    carries; and the alert is handed the [std::string] object of the file
    name, not its characters. The geometry handler, on the same failure,
    writes both the source and the diagnostic text, and hands the alert the
    characters of the file name. In either case the entry stays uncompiled
    and no record is appended. *)
Theorem failed_vertex_compile_dumps_the_source_only :
  D3DCompile "#error" "main" 36866 "vs_5_0" = CompileFailed "error X1507" /\
  dump_files demo_failed_vertex !! "Dump/bad_vs_0000.txt" = Some "#error" /\
  alerts demo_failed_vertex =
    [mkAlert (compile_failure_format "vertex")
             [string_object "Dump/bad_vs_0000.txt"; chars "vs_5_0"; chars "error X1507"]] /\
  compiled (addr_vs 5%N) demo_failed_vertex = false /\
  s_vs_disk_cache demo_failed_vertex = [] /\
  dump_files demo_failed_geometry !! "Dump/bad_gs_0000.txt" = Some "#errorerror X1507" /\
  alerts demo_failed_geometry =
    [mkAlert (compile_failure_format "geometry")
             [chars "Dump/bad_gs_0000.txt"; chars "gs_5_0"; chars "error X1507"]] /\
  compiled (addr_gs 1%N) demo_failed_geometry = false /\
  s_gs_disk_cache demo_failed_geometry = [].
Proof. vm_compute. repeat split; reflexivity. Qed.


(** The scenario of the specification for the wait policy: after the first
    draw nothing is compiled; the compiler threads finish the three units
    before the second drain of the loop; [TestShaders] returns true after two
    iterations, and not with fuel for one iteration only. *)
Example TestShaders_wait_policy_scenario :
  all_active_compiled (demo_drawn false) = false /\
  TestShaders 1 (fun k => if k is 1 then [0; 0; 0] else []) (demo_drawn false) = None /\
  (fun out => (fst (fst out), snd out)) <$>
    TestShaders 2 (fun k => if k is 1 then [0; 0; 0] else []) (demo_drawn false) =
    Some (true, [EvProcCompilationResults; EvYield 0; EvProcCompilationResults;
                 EvDiskCacheAppend (addr_gs 2%N); EvDiskCacheAppend (addr_ps 6%N);
                 EvDiskCacheAppend (addr_vs 5%N); EvYield 1]).
Proof. vm_compute. repeat split; reflexivity. Qed.

(** ** The theorems at concrete inputs *)

(** C10 at a volume whose filesystem is invalid and at one whose filesystem
    is valid. *)
Lemma CreateFileSystem_on_demo_volumes :
  demo_filesystem false = None /\
  exists filesystem, demo_filesystem true = Some filesystem /\
                     IsValid (fun state => state) filesystem = true /\
                     m_rVolume filesystem = Some true.
Proof.
  pose proof (CreateFileSystem_null_iff_no_volume_or_invalid
                (fun volume : bool => volume) (fun state : bool => state)) as Hspec.
  split.
  - apply (proj1 (Hspec (Some false))). right.
    exists false. eexists. repeat split.
  - destruct (demo_filesystem true) as [filesystem|] eqn:Hfs; [|discriminate].
    exists filesystem. split; [reflexivity|].
    destruct (proj2 (Hspec (Some true)) filesystem Hfs) as (Hvalid & v & [= <-] & _ & Hvol).
    auto.
Defined.

(** C9 at uids that the caches of a fresh session do not hold. *)
Lemma GetShaderFromUid_on_a_fresh_session :
  gs_bytecode_cache (demo_start false false) !! 7%N = None /\
  result (GetGeometryShaderFromUid 7%N) (demo_start false false) = zero_bytecode /\
  gs_bytecode_cache (exec (GetGeometryShaderFromUid 7%N) (demo_start false false)) !! 7%N =
    Some ByteCodeCacheEntry_ctor.
Proof.
  destruct (GetShaderFromUid_inserts_default_entry (H := demo) 7%N 8%N 9%N (demo_start false false))
    as (Hgs & _).
  split; [reflexivity|].
  destruct (Hgs eq_refl) as (Hrun & Hentry & _).
  split; [unfold result; rewrite Hrun; reflexivity | exact Hentry].
Defined.

(** C2 on a session that changes to pixel uid 6, drains, and changes to
    pixel uid 6 again. *)
Lemma one_shot_flag_on_a_repeated_uid :
  let change := StepPS 6%N 0%N 3%N 5%N 6%N true in
  let s := exec Init (demo_start false false) in
  initialized (addr_ps 6%N) (exec (steps [change]) s) = true /\
  initialized (addr_ps 6%N) (exec (steps [change; StepDrain; change]) s) = true /\
  occurrences (EvCompileShaderAsync (addr_ps 6%N))
    (events (steps [change; StepDrain; change]) s) <= 1.
Proof.
  intros change s.
  destruct (one_shot_flag_single_dispatch (H := demo) [change; StepDrain; change]
              (@addr_ps demo 6%N) s)
    as (Hmono & _ & _ & _ & Hdispatch).
  assert (Hset : initialized (addr_ps 6%N) (exec (steps [change]) s) = true)
    by (vm_compute; reflexivity).
  split; [exact Hset | split; [|exact Hdispatch]].
  exact (Hmono [change] [StepDrain; change] eq_refl Hset).
Defined.

(** C4 on the first draw of a session, prepared twice. *)
Lemma PrepareShaders_twice_on_the_first_draw :
  let call := @PrepareShaders demo 0%N 1%N 3%N 5%N 6%N true in
  memo_geometry true (demo_drawn false) = 2%N /\
  memo_pixel true (demo_drawn false) = 6%N /\
  memo_vertex true (demo_drawn false) = 5%N /\
  events call (demo_drawn false) = [EvProcCompilationResults] /\
  Forall (fun e => is_cache_work e = false) (events call (demo_drawn false)).
Proof.
  intros call.
  destruct (PrepareShaders_twice_returns_after_comparison (H := demo) 0%N 1%N 3%N 5%N 6%N true
              (exec Init (demo_start false false)))
    as (Hhit & (Hg & Hp & Hv) & _ & Hquiet & _).
  split; [exact Hg | split; [exact Hp | split; [exact Hv | split; [|exact Hquiet]]]].
  unfold events. subst call. rewrite (Hhit (demo_drawn false) Hg Hp Hv).
  vm_compute. reflexivity.
Defined.

(** C6 on the session that finds a geometry cache file with one record. *)
Lemma replayed_record_of_the_cached_session :
  (1%N, [x01; x02]) ∈ s_gs_disk_cache demo_cached /\
  recovered (addr_gs 1%N) [x01; x02] (exec Init demo_cached) /\
  result (GetGeometryShaderFromUid 1%N) (exec Init demo_cached) = published [x01; x02].
Proof.
  assert (Hin : (1%N, [x01; x02]) ∈ s_gs_disk_cache demo_cached) by constructor.
  destruct (replayed_records_are_compiled_and_never_dispatched (H := demo) demo_cached)
    as (_ & _ & _ & Hgs & _).
  destruct (Hgs 1%N [x01; x02] Hin) as (last_blob & Hlast & _ & _ & Hrecovered & Hget).
  assert (Hblob : last_blob = [x01; x02])
    by (vm_compute in Hlast; injection Hlast as <-; reflexivity).
  rewrite Hblob in Hrecovered, Hget. auto.
Defined.

(** C7 on the scenario of the specification: the draw after the first one
    differs in the pixel uid only (9 instead of 6). *)
Lemma PrepareShaders_when_only_the_pixel_uid_changes :
  let call := @PrepareShaders demo 0%N 1%N 3%N 5%N 9%N true in
  GetActivePixelShaderUid (demo_drawn false) = 6%N /\
  dispatches (events call (demo_drawn false)) = [EvCompileShaderAsync (addr_ps 9%N)] /\
  GetActivePixelShaderUid (exec call (demo_drawn false)) = 9%N /\
  s_last_pixel_shader_bytecode (exec call (demo_drawn false)) = Some (addr_ps 9%N) /\
  s_last_geometry_shader_bytecode (exec call (demo_drawn false)) = Some (addr_gs 2%N) /\
  s_last_vertex_shader_bytecode (exec call (demo_drawn false)) = Some (addr_vs 5%N) /\
  m_dirty_pso (exec call (demo_drawn false)) = true.
Proof.
  intros call. subst call.
  destruct (PrepareShaders_on_submission_context (H := demo) 0%N 1%N 3%N 5%N 9%N (demo_drawn false))
    as (Hdirty & _ & Hps & _ & _ & _ & _ & _ & Honly).
  destruct (Honly eq_refl eq_refl eq_refl) as (Hdisp & Hg & Hv & _).
  destruct (Hps eq_refl) as (Huid & Hptr).
  split; [reflexivity|].
  split; [exact Hdisp|].
  split; [exact Huid|].
  split; [exact Hptr|].
  split; [rewrite Hg; reflexivity|].
  split; [rewrite Hv; reflexivity|].
  exact (Hdirty eq_refl).
Defined.


(** ** The further properties at concrete inputs *)

(** The pixel unit of the first draw, compiled: its handler publishes the
    bytes to the entry of pixel uid 6 and persists them. *)
Lemma successful_pixel_compile_of_the_first_draw :
  let wunit := @pixel_unit demo 6%N (@addr_ps demo 6%N) 0%N 3%N 5%N 6%N in
  let s' := exec (call_ResultHandler (wunit, CompileSucceeded [x44; x58; x42; x43]))
              (demo_drawn false) in
  present (addr_ps 6%N) (demo_drawn false) /\
  m_shader_bytecode (load (addr_ps 6%N) s') = published [x44; x58; x42; x43] /\
  compiled (addr_ps 6%N) s' = true /\
  persisted_at (addr_ps 6%N) s' = Some [x44; x58; x42; x43].
Proof.
  intros wunit s'.
  assert (Hpresent : present (addr_ps 6%N) (demo_drawn false))
    by (vm_compute; eexists; reflexivity).
  destruct (successful_compile_publishes_and_persists (H := demo) wunit [x44; x58; x42; x43]
              (@addr_ps demo 6%N) (@addr_ps demo 6%N) (demo_drawn false) eq_refl Hpresent)
    as (Hbytes & Hcompiled & Hpersisted & _).
  split; [exact Hpresent | split; [exact Hbytes | split; [exact Hcompiled | exact Hpersisted]]].
Defined.


(** After the failed first draw the compiler is idle and the three active
    entries are bound and not compiled: under the wait policy [TestShaders]
    does not return within a hundred iterations. *)
Lemma TestShaders_after_the_failed_draw :
  all_active_bound demo_failed_draw = true /\
  all_active_compiled demo_failed_draw = false /\
  TestShaders 100 (fun _ => []) demo_failed_draw = None.
Proof.
  assert (Hbound : all_active_bound demo_failed_draw = true) by (vm_compute; reflexivity).
  assert (Hnot : all_active_compiled demo_failed_draw = false) by (vm_compute; reflexivity).
  split; [exact Hbound | split; [exact Hnot|]].
  apply (TestShaders_never_returns_once_the_compiler_is_idle (H := demo) demo_failed_draw);
    [reflexivity | vm_compute; reflexivity | vm_compute; reflexivity | exact Hbound | exact Hnot].
Defined.

(** An auxiliary context prepares triangles (the passthrough geometry uid)
    before the submission context has drawn: the geometry pointer of the
    submission context is bound to the passthrough entry by that call. The
    first draw of the submission context has the value-initialised pixel
    uid 0: the pixel cache is not looked up, the pixel pointer stays null and
    [TestShaders] returns false without a drain. *)
Lemma first_draw_after_an_auxiliary_passthrough_call :
  let between := [@CallPrepareShaders demo 0%N 2%N 3%N 7%N 8%N false] in
  let s := exec (session between) (exec Init (demo_start false false)) in
  let draw := @PrepareShaders demo 0%N 1%N 3%N 5%N 0%N true in
  let s' := exec draw s in
  s_last_geometry_shader_bytecode s = Some addr_s_pass_entry /\
  s_last_pixel_shader_bytecode s' = None /\
  occurrences (EvLookup (addr_ps 0%N)) (events draw s) = 0 /\
  TestShaders 10 (fun _ => []) s' = Some (false, s', []).
Proof.
  intros between s draw s'.
  assert (Hbetween : Forall (fun c => @on_submission_context demo c = false) between)
    by (constructor; [reflexivity | constructor]).
  destruct (first_draw_with_a_value_initialised_uid_binds_nothing (H := demo) between
              0%N 1%N 3%N 5%N 0%N (demo_start false false) Hbetween)
    as (Hpixel & _ & _ & Htest & _).
  destruct (Hpixel eq_refl) as (Hnull & _ & Hlookup).
  split; [vm_compute; reflexivity|].
  split; [exact Hnull | split; [exact (Hlookup 0%N)|]].
  exact (Htest (or_introl eq_refl) 10 (fun _ => [])).
Defined.

(** The first draw under the wait policy, with the compiler threads
    finishing one unit per iteration: [TestShaders] returns true after three
    drains and three yields. *)
Lemma TestShaders_waits_for_the_three_units :
  exists t,
    TestShaders 5 (fun _ => [0]) (demo_drawn false) =
      Some (true, rounds (fun _ => [0]) 0 3 (demo_drawn false), t) /\
    drains t = 3 /\ yields t = 3.
Proof.
  apply (TestShaders_returns_at_the_first_ready_iteration (H := demo) (fun _ => [0]) 3
           (demo_drawn false)).
  - reflexivity.
  - vm_compute. reflexivity.
  - intros k Hk. destruct k as [|[|[|k]]]; [vm_compute; reflexivity.. | lia].
  - vm_compute. reflexivity.
  - lia.
Defined.

